(** * The Plan -> Act -> Reflect loop of [base_agent.py]

    A shallow embedding of [BaseAgent] (tool registry, status emitter,
    Execute step, loop controller, final-result generation) together with
    the properties its specification states about it, and further
    properties of the code: the shape of a run as a grammar of its log,
    the example tools of [math_agent.py] and [twitter_agent.py],
    [normalize_url] of [research_agent.py], the status callbacks and
    [_extract_email_body] of [email_agent.py].

    Conventions of the embedding.

    - Python values that the agent stores in dictionaries and lists are
      values of [pyval]; a [dict] is an association list in insertion
      order, read with [dict_get] (first binding of the key); a [str] is
      the byte string of its UTF-8 encoding.
    - The pydantic models [Plan], [Action] and [Reflection] are records,
      each with its [dict] method.
    - Everything outside the agent (the Opper client with its model calls
      and spans, the tools' backends, the observer, the clock) lives in an
      abstract [World]; each external operation is a function of the world
      returning a result and the next world.  External code acts on the
      agent only through what it returns or raises.
    - A computation of the agent is a function of the agent object and the
      world that gives back a result or a raised exception, the new agent
      and world, and the log of what it did towards the outside, in order:
      model calls, span operations, pydantic validations, tool
      executions, calls of [_emit_status] and calls of the overridable
      goal predicate.  The log is what the theorems count.
    - The raise channel carries instances of Python's [Exception], which is
      what the two [except Exception] handlers of the source intercept;
      interpreter signals outside this class (KeyboardInterrupt,
      SystemExit) are not part of the embedding.
    - [print] output under [verbose] is not modelled; the call of the goal
      predicate that [process] makes for its closing message is. *)

From Stdlib Require Import String Ascii ZArith QArith Lia Bool.
From Stdlib Require Import DecimalString List.
Import ListNotations.
Open Scope string_scope.
Open Scope Z_scope.
Open Scope list_scope.
Set Warnings "-register-all".

(** ** Python values *)

Inductive pyval : Type :=
| PNone
| PBool (b : bool)
| PInt (z : Z)
| PFloat (x : Q)
| PStr (s : string)
| PList (l : list pyval)
| PDict (d : list (string * pyval)).

Definition kwargs := list (string * pyval).

Fixpoint dict_get (k : string) (d : kwargs) : option pyval :=
  match d with
  | [] => None
  | (k', v) :: d' => if String.eqb k' k then Some v else dict_get k d'
  end.

(** [isinstance(v, dict) and k in v] *)
Definition has_key (k : string) (v : pyval) : bool :=
  match v with
  | PDict d => match dict_get k d with Some _ => true | None => false end
  | _ => false
  end.

(** [s[:n]].  A [str] is held as the bytes of its UTF-8 encoding, and
    Python counts characters: a byte [10xxxxxx] continues the character
    before it. *)
Definition is_continuation (c : ascii) : bool :=
  match c with Ascii _ _ _ _ _ _ b6 b7 => b7 && negb b6 end.

Fixpoint str_prefix (n : nat) (s : string) : string :=
  match s with
  | EmptyString => EmptyString
  | String c rest =>
      if is_continuation c then String c (str_prefix n rest)
      else match n with
           | O => EmptyString
           | S n' => String c (str_prefix n' rest)
           end
  end.

(** [f"{n}"] for an int. *)
Definition str_of_int (n : Z) : string := NilZero.string_of_int (Z.to_int n).

(** [f"{b}"] for a bool. *)
Definition str_of_bool (b : bool) : string := if b then "True" else "False".

(** ** Exceptions and results *)

Record PyExc : Type := { exc_class : string; exc_str : string }.

Inductive Res (A : Type) : Type :=
| Ok (a : A)
| Raise (e : PyExc).
Arguments Ok {A} a.
Arguments Raise {A} e.

(** [type(v).__name__] *)
Definition py_type_name (v : pyval) : string :=
  match v with
  | PNone => "NoneType"
  | PBool _ => "bool"
  | PInt _ => "int"
  | PFloat _ => "float"
  | PStr _ => "str"
  | PList _ => "list"
  | PDict _ => "dict"
  end.

(** [d.get(key, default)]: defined on dicts only. *)
Definition py_get (v : pyval) (key : string) (default : pyval) : Res pyval :=
  match v with
  | PDict d => Ok (match dict_get key d with Some x => x | None => default end)
  | _ => Raise {| exc_class := "AttributeError";
                  exc_str := ("'" ++ py_type_name v
                              ++ "' object has no attribute 'get'")%string |}
  end.

(** ** The pydantic models *)

Module Plan.
Record t : Type := {
  thoughts : string;
  steps : list string;
  current_step : Z;
  goal_achieved : bool
}.
Definition dict (p : t) : pyval :=
  PDict [("thoughts", PStr (thoughts p));
         ("steps", PList (map PStr (steps p)));
         ("current_step", PInt (current_step p));
         ("goal_achieved", PBool (goal_achieved p))].
End Plan.

Module Action.
Record t : Type := {
  thoughts : string;
  tool_name : string;
  tool_parameters : kwargs;
  expected_outcome : string;
  user_message : string
}.
Definition dict (a : t) : pyval :=
  PDict [("thoughts", PStr (thoughts a));
         ("tool_name", PStr (tool_name a));
         ("tool_parameters", PDict (tool_parameters a));
         ("expected_outcome", PStr (expected_outcome a));
         ("user_message", PStr (user_message a))].
End Action.

Module Reflection.
Record t : Type := {
  thoughts : string;
  action_successful : bool;
  lessons_learned : string;
  next_steps : string;
  goal_progress : string
}.
Definition dict (r : t) : pyval :=
  PDict [("thoughts", PStr (thoughts r));
         ("action_successful", PBool (action_successful r));
         ("lessons_learned", PStr (lessons_learned r));
         ("next_steps", PStr (next_steps r));
         ("goal_progress", PStr (goal_progress r))].
End Reflection.

(** A tool: its [execute] runs against the world and returns a value or
    raises. *)
Module Tool.
Record t (World : Type) : Type := {
  name : string;
  description : string;
  parameters : pyval;
  execute : kwargs -> World -> Res pyval * World
}.
Arguments name {World} _.
Arguments description {World} _.
Arguments parameters {World} _.
Arguments execute {World} _ _ _.
End Tool.

(** ** The log of external operations *)

Inductive Event : Type :=
| EvCall (name : string) (input : pyval) (output_schema : string)
         (parent_span_id : string) (r : Res pyval)
| EvSpanCreate (name : string) (input : option string)
               (parent_id : option string) (r : Res string)
| EvSpanUpdate (span_id : string) (output : string) (r : Res unit)
| EvValidate (schema : string) (payload : pyval) (err : option PyExc)
| EvTool (name : string) (arguments : kwargs) (r : Res pyval)
| EvEmit (event_type : string) (data : pyval)
| EvPredicate (goal : string) (history : list pyval) (r : Res pyval).

(** ** The outside of the agent *)

(** The Opper client, pydantic's validating constructors, the clock and
    the builtin [str] on values.  None of them is code of this
    repository. *)
Record Env (World : Type) : Type := {
  opper_call : string -> string -> string -> pyval -> string ->
               World -> Res pyval * World;
  spans_create : string -> option string -> option string ->
                 World -> Res string * World;
  spans_update : string -> string -> World -> Res unit * World;
  time_time : World -> Q * World;
  Plan_new : pyval -> Res Plan.t;
  Action_new : pyval -> Res Action.t;
  Reflection_new : pyval -> Res Reflection.t;
  py_str : pyval -> string
}.
Arguments opper_call {World} _ _ _ _ _ _ _.
Arguments spans_create {World} _ _ _ _ _.
Arguments spans_update {World} _ _ _ _.
Arguments time_time {World} _ _.
Arguments Plan_new {World} _ _.
Arguments Action_new {World} _ _.
Arguments Reflection_new {World} _ _.
Arguments py_str {World} _ _.

Definition Callback (World : Type) : Type :=
  string -> pyval -> World -> Res unit * World.

(** ** Agent state *)

Record BaseAgent (World : Type) : Type := {
  name : string;
  max_iterations : Z;
  verbose : bool;
  output_schema : option string;
  callback : option (Callback World);
  current_plan : option Plan.t;
  execution_history : list pyval;
  current_goal : option string;
  tools : list (Tool.t World);
  description : string
}.
Arguments name {World} _.
Arguments max_iterations {World} _.
Arguments verbose {World} _.
Arguments output_schema {World} _.
Arguments callback {World} _.
Arguments current_plan {World} _.
Arguments execution_history {World} _.
Arguments current_goal {World} _.
Arguments tools {World} _.
Arguments description {World} _.

(** The methods a subclass may override. *)
Class AgentClass (World : Type) : Type := {
  get_tools_method : list (Tool.t World);
  get_agent_description_method : string -> string;
  is_goal_achieved_method : string -> list pyval -> Res pyval
}.

(** *** [is_goal_achieved] *)

Definition is_goal_achieved (goal : string) (execution_history : list pyval)
  : Res pyval :=
  match execution_history with
  | [] => Ok (PBool false)
  | _ :: _ =>
      let last_cycle := last execution_history PNone in
      match py_get last_cycle "reflection" (PDict []) with
      | Ok last_reflection =>
          py_get last_reflection "action_successful" (PBool false)
      | Raise e => Raise e
      end
  end.

(** [BaseAgent] itself. *)
#[export] Instance BaseAgentClass (World : Type) : AgentClass World := {|
  get_tools_method := [];
  get_agent_description_method :=
    fun name => ("AI agent named " ++ name)%string;
  is_goal_achieved_method := is_goal_achieved
|}.

(** *** [__init__] *)

Definition __init__ {World : Type} {cls : AgentClass World} (name : string)
  (max_iterations : Z) (verbose : bool) (output_schema : option string)
  (tools : option (list (Tool.t World))) (description : option string)
  (callback : option (Callback World)) : BaseAgent World :=
  {| name := name; max_iterations := max_iterations; verbose := verbose;
     output_schema := output_schema; callback := callback;
     current_plan := None; execution_history := []; current_goal := None;
     tools := match tools with
              | Some ts => ts
              | None => get_tools_method
              end;
     description := match description with
                    | Some d => d
                    | None => get_agent_description_method name
                    end |}.

(** *** The tool registry *)

Section Registry.
Context {World : Type}.
Implicit Types (a : BaseAgent World) (tool : Tool.t World).

Definition set_tools (ts : list (Tool.t World)) a : BaseAgent World :=
  {| name := name a; max_iterations := max_iterations a;
     verbose := verbose a; output_schema := output_schema a;
     callback := callback a; current_plan := current_plan a;
     execution_history := execution_history a;
     current_goal := current_goal a; tools := ts;
     description := description a |}.

Definition add_tool tool a : BaseAgent World :=
  set_tools (tools a ++ [tool]) a.

Definition remove_tool (tool_name : string) a : BaseAgent World :=
  set_tools
    (filter (fun tool => negb (String.eqb (Tool.name tool) tool_name))
            (tools a)) a.

Fixpoint find_tool (tool_name : string) (ts : list (Tool.t World))
  : option (Tool.t World) :=
  match ts with
  | [] => None
  | tool :: ts' =>
      if String.eqb (Tool.name tool) tool_name then Some tool
      else find_tool tool_name ts'
  end.

Definition get_tool (tool_name : string) a : option (Tool.t World) :=
  find_tool tool_name (tools a).

Definition list_tools a : list string := map Tool.name (tools a).
End Registry.

(** ** Computations of the agent *)

Record St (World : Type) : Type := { self : BaseAgent World; world : World }.
Arguments self {World} _.
Arguments world {World} _.

Definition M (World A : Type) : Type :=
  St World -> Res A * St World * list Event.

Section Monad.
Context {World : Type}.

Definition ret {A} (a : A) : M World A := fun s => (Ok a, s, []).

Definition bind {A B} (m : M World A) (f : A -> M World B) : M World B :=
  fun s =>
    let '(r, s1, l1) := m s in
    match r with
    | Ok a => let '(r2, s2, l2) := f a s1 in (r2, s2, l1 ++ l2)
    | Raise e => (Raise e, s1, l1)
    end.

(** [try: m  except Exception as e: h e] *)
Definition try_except {A} (m : M World A) (h : PyExc -> M World A)
  : M World A :=
  fun s =>
    let '(r, s1, l1) := m s in
    match r with
    | Ok a => (Ok a, s1, l1)
    | Raise e => let '(r2, s2, l2) := h e s1 in (r2, s2, l1 ++ l2)
    end.

(** A pure step that may raise. *)
Definition lift {A} (r : Res A) : M World A := fun s => (r, s, []).

Definition raise {A} (e : PyExc) : M World A := lift (Raise e).

Definition tell (l : list Event) : M World unit := fun s => (Ok tt, s, l).

Definition get_self : M World (BaseAgent World) :=
  fun s => (Ok (self s), s, []).

Definition modify_self (f : BaseAgent World -> BaseAgent World)
  : M World unit :=
  fun s => (Ok tt, {| self := f (self s); world := world s |}, []).

(** An external operation: run it on the world and log its outcome. *)
Definition extern {A} (op : World -> Res A * World)
  (ev : Res A -> list Event) : M World A :=
  fun s =>
    let '(r, w) := op (world s) in
    (r, {| self := self s; world := w |}, ev r).

Definition error_of {A} (r : Res A) : option PyExc :=
  match r with Ok _ => None | Raise e => Some e end.

(** Construction of a pydantic model from the keys of a payload. *)
Definition validate {A} (schema : string) (new : pyval -> Res A)
  (payload : pyval) : M World A :=
  fun s => (new payload, s, [EvValidate schema payload (error_of (new payload))]).

Definition read_clock (clock : World -> Q * World) : M World Q :=
  fun s =>
    let '(t, w) := clock (world s) in
    (Ok t, {| self := self s; world := w |}, []).
End Monad.

Declare Scope agent_scope.
Delimit Scope agent_scope with agent.
Notation "x <- m ;; k" := (bind m (fun x => k))
  (at level 61, m at next level, right associativity) : agent_scope.
Notation "m ;; k" := (bind m (fun _ => k))
  (at level 61, right associativity) : agent_scope.
Open Scope agent_scope.

Inductive LoopCtl : Type := Continue | Break.

(** Marks a run of [while_loop] that used up its fuel with the loop
    condition still true; [process] gives the loop enough fuel, and
    [process_spec] shows that it never produces this: a run that
    raises has logged the failure it raises. *)
Definition fuel_exhausted : PyExc :=
  {| exc_class := "<fuel>"; exc_str := "while loop out of fuel" |}.

Definition plan_instructions : string :=
  "You are a planning assistant. Analyze the goal and create a detailed plan to achieve it. Consider the available tools and any previous execution history. If the goal is already achieved based on the history, set goal_achieved to true.".

Definition decide_instructions : string :=
  "You are an action planner. Based on the current plan and available tools, decide what specific action to take to execute the next step in the plan. Use 'direct_response' as tool_name if you can complete the goal directly without tools.".

Definition reflect_instructions : string :=
  "You are a reflection assistant. Analyze what happened with this specific action and its result. Evaluate if the action was successful and what should be done next to progress toward the goal.".

Definition final_instructions : string :=
  "You are a result formatter. Based on the goal and execution history, generate a structured final result. Extract the key information and format it according to the required schema. Focus on the main outcomes and insights from the agent's work.".

(** [l[-n:]] *)
Definition lastn {A} (n : nat) (l : list A) : list A :=
  skipn (length l - n)%nat l.

Section Agent.
Context {World : Type} (env : Env World) {cls : AgentClass World}.
Implicit Types (goal parent_span_id : string).

Definition set_current_goal (g : option string) (a : BaseAgent World)
  : BaseAgent World :=
  {| name := name a; max_iterations := max_iterations a;
     verbose := verbose a; output_schema := output_schema a;
     callback := callback a; current_plan := current_plan a;
     execution_history := execution_history a;
     current_goal := g; tools := tools a;
     description := description a |}.

Definition set_execution_history (h : list pyval) (a : BaseAgent World)
  : BaseAgent World :=
  {| name := name a; max_iterations := max_iterations a;
     verbose := verbose a; output_schema := output_schema a;
     callback := callback a; current_plan := current_plan a;
     execution_history := h;
     current_goal := current_goal a; tools := tools a;
     description := description a |}.

Definition set_current_plan (p : option Plan.t) (a : BaseAgent World)
  : BaseAgent World :=
  {| name := name a; max_iterations := max_iterations a;
     verbose := verbose a; output_schema := output_schema a;
     callback := callback a; current_plan := p;
     execution_history := execution_history a;
     current_goal := current_goal a; tools := tools a;
     description := description a |}.

(** [self.execution_history.append(cycle)] *)
Definition append_cycle (cycle : pyval) (a : BaseAgent World)
  : BaseAgent World :=
  set_execution_history (execution_history a ++ [cycle]) a.

(** *** [_emit_status] *)

Definition _emit_status (event_type : string) (data : pyval)
  : M World unit :=
  tell [EvEmit event_type data] ;;
  a <- get_self ;;
  match callback a with
  | Some cb =>
      try_except (extern (cb event_type data) (fun _ => []))
                 (fun _ => ret tt)
  | None => ret tt
  end.

(** *** [call_llm] and [start_trace] *)

Definition call_llm (name instructions output_schema : string)
  (input_data : pyval) parent_span_id : M World pyval :=
  extern (opper_call env name instructions output_schema input_data
            parent_span_id)
         (fun r => [EvCall name input_data output_schema parent_span_id r]).

Definition create_span (name : string) (input parent_id : option string)
  : M World string :=
  extern (spans_create env name input parent_id)
         (fun r => [EvSpanCreate name input parent_id r]).

Definition update_span (span_id output : string) : M World unit :=
  extern (spans_update env span_id output)
         (fun r => [EvSpanUpdate span_id output r]).

Definition start_trace (name : string) (input_data : string)
  : M World string :=
  create_span name
    (if String.eqb input_data "" then None else Some input_data) None.

(** *** The steps of one iteration *)

Definition tool_summary (tool : Tool.t World) : pyval :=
  PDict [("name", PStr (Tool.name tool));
         ("description", PStr (Tool.description tool))].

Definition tool_schema (tool : Tool.t World) : pyval :=
  PDict [("name", PStr (Tool.name tool));
         ("description", PStr (Tool.description tool));
         ("parameters", Tool.parameters tool)].

Definition _create_plan goal parent_span_id : M World Plan.t :=
  a <- get_self ;;
  let context :=
    PDict [("goal", PStr goal);
           ("agent_description", PStr (description a));
           ("available_tools", PList (map tool_summary (tools a)));
           ("execution_history", PList (lastn 3 (execution_history a)))] in
  plan_call <- call_llm "plan" plan_instructions "Plan" context
                 parent_span_id ;;
  validate "Plan" (Plan_new env) plan_call.

Definition _decide_action (plan : Plan.t) parent_span_id
  : M World Action.t :=
  a <- get_self ;;
  let context :=
    PDict [("plan", Plan.dict plan);
           ("available_tools", PList (map tool_schema (tools a)))] in
  action_call <- call_llm "decide" decide_instructions "Action" context
                   parent_span_id ;;
  validate "Action" (Action_new env) action_call.

Definition _execute_action (action : Action.t) : M World pyval :=
  if String.eqb (Action.tool_name action) "direct_response" then
    ret (PDict [("type", PStr "direct_response");
                ("result",
                 PStr "Task completed directly without tool usage");
                ("success", PBool true)])
  else
    a <- get_self ;;
    match get_tool (Action.tool_name action) a with
    | None =>
        ret (PDict [("type", PStr "error");
                    ("result",
                     PStr ("Tool '" ++ Action.tool_name action
                           ++ "' not found")%string);
                    ("success", PBool false)])
    | Some tool =>
        try_except
          (result <- extern (Tool.execute tool
                               (Action.tool_parameters action))
                       (fun r => [EvTool (Tool.name tool)
                                    (Action.tool_parameters action) r]) ;;
           ret (PDict [("type", PStr "tool_execution");
                       ("tool_name", PStr (Action.tool_name action));
                       ("parameters",
                        PDict (Action.tool_parameters action));
                       ("result", result);
                       ("success", PBool true)]))
          (fun e =>
             ret (PDict [("type", PStr "error");
                         ("tool_name", PStr (Action.tool_name action));
                         ("parameters",
                          PDict (Action.tool_parameters action));
                         ("result",
                          PStr ("Error executing tool: " ++ exc_str e)%string);
                         ("success", PBool false)]))
    end.

Definition py_opt_str (o : option string) : pyval :=
  match o with Some s => PStr s | None => PNone end.

Definition _reflect_on_result (action : Action.t) (action_result : pyval)
  (plan : Plan.t) parent_span_id : M World Reflection.t :=
  a <- get_self ;;
  let context :=
    PDict [("action", Action.dict action);
           ("action_result", action_result);
           ("goal", py_opt_str (current_goal a))] in
  reflection_call <- call_llm "reflect" reflect_instructions "Reflection"
                       context parent_span_id ;;
  validate "Reflection" (Reflection_new env) reflection_call.

(** *** [_generate_final_result] *)

(** [self.is_goal_achieved(goal, execution_history)], dispatched on the
    agent's class. *)
Definition call_is_goal_achieved goal (execution_history : list pyval)
  : M World pyval :=
  fun s =>
    let r := is_goal_achieved_method goal execution_history in
    (r, s, [EvPredicate goal execution_history r]).

Definition _generate_final_result goal (execution_history : list pyval)
  parent_span_id : M World pyval :=
  a <- get_self ;;
  match output_schema a with
  | None =>
      achieved <- call_is_goal_achieved goal execution_history ;;
      ret (PDict [("goal", PStr goal);
                  ("achieved", achieved);
                  ("iterations", PInt (Z.of_nat (length execution_history)));
                  ("execution_history", PList execution_history)])
  | Some schema =>
      achieved <- call_is_goal_achieved goal execution_history ;;
      let context :=
        PDict [("goal", PStr goal);
               ("execution_history", PList execution_history);
               ("agent_description", PStr (description a));
               ("goal_achieved", achieved);
               ("iterations",
                PInt (Z.of_nat (length execution_history)))] in
      call_llm "generate_final_result" final_instructions schema context
        parent_span_id
  end.
(** *** [process] *)

(** One pass through the body of the [while] loop, [iteration] being the
    counter after its increment. *)
Definition loop_body goal (trace_id : string) (iteration : Z)
  : M World LoopCtl :=
  iteration_span <-
    create_span ("iteration_" ++ str_of_int iteration)%string
      (Some ("Iteration " ++ str_of_int iteration ++ " of goal: "
             ++ goal)%string)
      (Some trace_id) ;;
  plan <- _create_plan goal iteration_span ;;
  _emit_status "plan_created"
    (PDict [("iteration", PInt iteration); ("plan", Plan.dict plan)]) ;;
  if Plan.goal_achieved plan then ret Break
  else
    action <- _decide_action plan iteration_span ;;
    _emit_status "action_decided"
      (PDict [("iteration", PInt iteration);
              ("action", Action.dict action)]) ;;
    action_result <- _execute_action action ;;
    _emit_status "action_executed"
      (PDict [("iteration", PInt iteration);
              ("action", Action.dict action);
              ("result", action_result)]) ;;
    reflection <- _reflect_on_result action action_result plan
                    iteration_span ;;
    _emit_status "reflection_completed"
      (PDict [("iteration", PInt iteration);
              ("reflection", Reflection.dict reflection)]) ;;
    timestamp <- read_clock (time_time env) ;;
    let cycle :=
      PDict [("iteration", PInt iteration);
             ("plan", Plan.dict plan);
             ("action", Action.dict action);
             ("action_result", action_result);
             ("reflection", Reflection.dict reflection);
             ("timestamp", PFloat timestamp)] in
    modify_self (append_cycle cycle) ;;
    update_span iteration_span
      ("Plan: " ++ str_prefix 100 (Plan.thoughts plan)
       ++ "... | Action: " ++ Action.tool_name action
       ++ " | Success: "
       ++ str_of_bool (Reflection.action_successful reflection))%string ;;
    modify_self (set_current_plan (Some plan)) ;;
    ret Continue.

(** [while iteration < self.max_iterations: iteration += 1; ...], returning
    the counter the loop leaves behind. *)
Fixpoint while_loop (fuel : nat) goal (trace_id : string) (iteration : Z)
  : M World Z :=
  a <- get_self ;;
  if iteration <? max_iterations a then
    match fuel with
    | O => raise fuel_exhausted
    | S fuel' =>
        let iteration := iteration + 1 in
        ctl <- loop_body goal trace_id iteration ;;
        match ctl with
        | Break => ret iteration
        | Continue => while_loop fuel' goal trace_id iteration
        end
    end
  else ret iteration.

Definition process goal : M World pyval :=
  modify_self (set_current_goal (Some goal)) ;;
  modify_self (set_execution_history []) ;;
  a <- get_self ;;
  trace_id <- start_trace (name a) goal ;;
  _emit_status "goal_start"
    (PDict [("goal", PStr goal);
            ("agent_name", PStr (name a));
            ("available_tools",
             PList (map (fun tool => PStr (Tool.name tool)) (tools a)))]) ;;
  iteration <- while_loop (Z.to_nat (max_iterations a)) goal trace_id 0 ;;
  a <- get_self ;;
  final_result <- _generate_final_result goal (execution_history a)
                    trace_id ;;
  a <- get_self ;;
  achieved <- call_is_goal_achieved goal (execution_history a) ;;
  _emit_status "goal_completed"
    (PDict [("goal", PStr goal);
            ("achieved", achieved);
            ("iterations", PInt iteration);
            ("final_result", final_result)]) ;;
  update_span trace_id (py_str env final_result) ;;
  a <- get_self ;;
  (if verbose a then
     if has_key "achieved" final_result then ret tt
     else call_is_goal_achieved goal (execution_history a) ;; ret tt
   else ret tt) ;;
  ret final_result.

(** [process] up to the end of its loop, giving the trace id and the
    counter, and [process] from there on. *)
Definition run_loop goal : M World (string * Z) :=
  modify_self (set_current_goal (Some goal)) ;;
  modify_self (set_execution_history []) ;;
  a <- get_self ;;
  trace_id <- start_trace (name a) goal ;;
  _emit_status "goal_start"
    (PDict [("goal", PStr goal);
            ("agent_name", PStr (name a));
            ("available_tools",
             PList (map (fun tool => PStr (Tool.name tool)) (tools a)))]) ;;
  iteration <- while_loop (Z.to_nat (max_iterations a)) goal trace_id 0 ;;
  ret (trace_id, iteration).

Definition finish goal (trace_id : string) (iteration : Z) : M World pyval :=
  a <- get_self ;;
  final_result <- _generate_final_result goal (execution_history a)
                    trace_id ;;
  a <- get_self ;;
  achieved <- call_is_goal_achieved goal (execution_history a) ;;
  _emit_status "goal_completed"
    (PDict [("goal", PStr goal);
            ("achieved", achieved);
            ("iterations", PInt iteration);
            ("final_result", final_result)]) ;;
  update_span trace_id (py_str env final_result) ;;
  a <- get_self ;;
  (if verbose a then
     if has_key "achieved" final_result then ret tt
     else call_is_goal_achieved goal (execution_history a) ;; ret tt
   else ret tt) ;;
  ret final_result.
End Agent.

(** ** Reading the log *)

Definition raised {A} (r : Res A) : list PyExc :=
  match r with Ok _ => [] | Raise e => [e] end.

(** What an event contributes to the things that make [process] raise:
    a failed model call, a failed span operation, a failed validation or
    a raising goal predicate.  A raising tool is not among them. *)
Definition failure_of (ev : Event) : list PyExc :=
  match ev with
  | EvCall _ _ _ _ r => raised r
  | EvSpanCreate _ _ _ r => raised r
  | EvSpanUpdate _ _ r => raised r
  | EvValidate _ _ (Some e) => [e]
  | EvPredicate _ _ r => raised r
  | _ => []
  end.

Definition failures (l : list Event) : list PyExc := flat_map failure_of l.

(** The names of the model calls, in order. *)
Definition llm_calls (l : list Event) : list string :=
  flat_map (fun ev => match ev with EvCall n _ _ _ _ => [n] | _ => [] end) l.

(** How many model calls carry the name [n]. *)
Definition calls (n : string) (l : list Event) : nat :=
  length (filter (String.eqb n) (llm_calls l)).

(** The event types passed to [_emit_status], in order. *)
Definition statuses (l : list Event) : list string :=
  flat_map (fun ev => match ev with EvEmit t _ => [t] | _ => [] end) l.

(** The payloads emitted under the event type [t]. *)
Definition emitted (t : string) (l : list Event) : list pyval :=
  flat_map (fun ev => match ev with
                      | EvEmit t' d => if String.eqb t' t then [d] else []
                      | _ => []
                      end) l.

(** The tools executed, with what each execution gave. *)
Definition tool_runs (l : list Event) : list (string * Res pyval) :=
  flat_map (fun ev => match ev with EvTool n _ r => [(n, r)] | _ => [] end) l.

Definition field (k : string) (v : pyval) : list pyval :=
  match v with
  | PDict d => match dict_get k d with Some x => [x] | None => [] end
  | _ => []
  end.

(** The action results announced by [action_executed]. *)
Definition executed_results (l : list Event) : list pyval :=
  flat_map (field "result") (emitted "action_executed" l).

(** The action results handed to the Reflect model call. *)
Definition reflected_results (l : list Event) : list pyval :=
  flat_map (fun ev => match ev with
                      | EvCall n input _ _ _ =>
                          if String.eqb n "reflect"
                          then field "action_result" input else []
                      | _ => []
                      end) l.

(** [n] copies of a block, one after the other. *)
Definition times {A} (n : nat) (block : list A) : list A :=
  concat (repeat block n).

Definition cycle_calls : list string := ["plan"; "decide"; "reflect"].

Definition cycle_statuses : list string :=
  ["plan_created"; "action_decided"; "action_executed";
   "reflection_completed"].

(** The dictionary [process] records for iteration [iteration]. *)
Definition make_cycle (iteration : Z) (plan : Plan.t) (action : Action.t)
  (action_result : pyval) (reflection : Reflection.t) (timestamp : Q)
  : pyval :=
  PDict [("iteration", PInt iteration);
         ("plan", Plan.dict plan);
         ("action", Action.dict action);
         ("action_result", action_result);
         ("reflection", Reflection.dict reflection);
         ("timestamp", PFloat timestamp)].

Definition cycle_ok (i : Z) (c : pyval) : Prop :=
  exists plan action action_result reflection timestamp,
    c = make_cycle i plan action action_result reflection timestamp.

(** Cycles numbered [i+1], [i+2], ... *)
Fixpoint cycles_from (i : Z) (cs : list pyval) : Prop :=
  match cs with
  | [] => True
  | c :: cs' => cycle_ok (i + 1) c /\ cycles_from (i + 1) cs'
  end.

(** [cycle["iteration"]] *)
Definition cycle_iteration (c : pyval) : option pyval :=
  match c with PDict d => dict_get "iteration" d | _ => None end.

Section PlanFlags.
Context {World : Type} (env : Env World).

(** Whether a response to the Plan call is a plan with
    [goal_achieved = True]. *)
Definition reports_achieved (r : Res pyval) : bool :=
  match r with
  | Ok payload =>
      match Plan_new env payload with
      | Ok p => Plan.goal_achieved p
      | Raise _ => false
      end
  | Raise _ => false
  end.

(** One flag per Plan call, in order. *)
Definition plan_flags (l : list Event) : list bool :=
  flat_map (fun ev => match ev with
                      | EvCall n _ _ _ r =>
                          if String.eqb n "plan"
                          then [reports_achieved r] else []
                      | _ => []
                      end) l.
End PlanFlags.

(** The three components of a run. *)
Definition result_of {World A} (o : Res A * St World * list Event) : Res A :=
  fst (fst o).
Definition state_of {World A} (o : Res A * St World * list Event)
  : St World := snd (fst o).
Definition log_of {World A} (o : Res A * St World * list Event)
  : list Event := snd o.

(** The attributes of the agent that [process] only reads. *)
Definition config {World} (a : BaseAgent World) :=
  (name a, max_iterations a, verbose a, output_schema a, callback a,
   tools a, description a).

(** ** Postconditions *)

Section Post.
Context {World : Type}.
Implicit Types (s : St World).

Definition post {A} (m : M World A) s
  (Q : Res A -> St World -> list Event -> Prop) : Prop :=
  Q (result_of (m s)) (state_of (m s)) (log_of (m s)).

(** Computations that run alike from every state. *)
Definition eqm {A} (m1 m2 : M World A) : Prop := forall s, m1 s = m2 s.

End Post.

(** ** What the steps of [process] guarantee *)

Section Specs.
Context {World : Type} (env : Env World).

(** One pass through the loop body that starts with the counter at [i]. *)
Definition body_post (i : Z) (s : St World) (r : Res LoopCtl)
  (s' : St World) (l : list Event) : Prop :=
  config (self s') = config (self s) /\
  current_goal (self s') = current_goal (self s) /\
  failures l = raised r /\
  reflected_results l = executed_results l /\
  emitted "goal_completed" l = [] /\
  (length (tool_runs l) <= calls "decide" l)%nat /\
  exists cs,
    execution_history (self s') = execution_history (self s) ++ cs /\
    cycles_from i cs /\
    match r with
    | Ok Break =>
        cs = [] /\ llm_calls l = ["plan"] /\ plan_flags env l = [true] /\
        statuses l = ["plan_created"]
    | Ok Continue =>
        length cs = 1%nat /\ llm_calls l = cycle_calls /\
        plan_flags env l = [false] /\ statuses l = cycle_statuses
    | Raise _ =>
        (length cs <= 1)%nat /\
        plan_flags env l = repeat false (length (plan_flags env l)) /\
        (calls "plan" l <= 1)%nat /\ (calls "decide" l <= 1)%nat /\
        (calls "reflect" l <= 1)%nat
    end.

(** The loop entered with the counter at [i], the bound being [N] and the
    history [h0]. *)
Definition loop_post (N i : Z) (s : St World) (r : Res Z)
  (s' : St World) (l : list Event) : Prop :=
  config (self s') = config (self s) /\
  current_goal (self s') = current_goal (self s) /\
  failures l = raised r /\
  reflected_results l = executed_results l /\
  emitted "goal_completed" l = [] /\
  (length (tool_runs l) <= calls "decide" l)%nat /\
  exists cs,
    execution_history (self s') = execution_history (self s) ++ cs /\
    cycles_from i cs /\
    Z.of_nat (length cs) <= Z.max 0 (N - i) /\
    match r with
    | Ok j =>
        exists brk : bool,
          llm_calls l = times (length cs) cycle_calls
                        ++ (if brk then ["plan"] else []) /\
          plan_flags env l = repeat false (length cs)
                             ++ (if brk then [true] else []) /\
          statuses l = times (length cs) cycle_statuses
                       ++ (if brk then ["plan_created"] else []) /\
          j = i + Z.of_nat (length cs) + (if brk then 1 else 0) /\
          (if brk then j <= N else N <= j)
    | Raise _ =>
        plan_flags env l = repeat false (length (plan_flags env l)) /\
        Z.of_nat (calls "plan" l) <= Z.max 0 (N - i) /\
        Z.of_nat (calls "decide" l) <= Z.max 0 (N - i) /\
        Z.of_nat (calls "reflect" l) <= Z.max 0 (N - i)
    end.

(** The dictionary [_generate_final_result] builds when no output schema is
    configured. *)
Definition default_result (goal : string) (achieved : pyval)
  (execution_history : list pyval) : pyval :=
  PDict [("goal", PStr goal);
         ("achieved", achieved);
         ("iterations", PInt (Z.of_nat (length execution_history)));
         ("execution_history", PList execution_history)].

(** The payload of the [goal_completed] event. *)
Definition completion_payload (goal : string) (achieved : pyval)
  (iteration : Z) (final_result : pyval) : pyval :=
  PDict [("goal", PStr goal);
         ("achieved", achieved);
         ("iterations", PInt iteration);
         ("final_result", final_result)].

(** A run of [process] that got as far as final-result generation: the
    loop recorded the history [h] and ended, by [break] when [brk] holds
    and by its condition otherwise, leaving the counter at [j]; [r] is
    what [process] gave and [l] its log. *)
Definition finalizing {cls : AgentClass World} (goal : string)
  (a : BaseAgent World) (h : list pyval) (r : Res pyval) (l : list Event)
  (brk : bool) (j : Z) : Prop :=
  exists fin_calls fin_statuses,
    llm_calls l = times (length h) cycle_calls
                  ++ (if brk then ["plan"] else []) ++ fin_calls /\
    plan_flags env l = repeat false (length h)
                       ++ (if brk then [true] else []) /\
    statuses l = "goal_start" :: times (length h) cycle_statuses
                 ++ (if brk then ["plan_created"] else []) ++ fin_statuses /\
    j = Z.of_nat (length h) + (if brk then 1 else 0) /\
    (if brk then j <= max_iterations a
     else Z.of_nat (length h) = Z.max 0 (max_iterations a)) /\
    (output_schema a = None -> fin_calls = []) /\
    (fin_calls = [] \/ fin_calls = ["generate_final_result"]) /\
    (fin_statuses = [] \/ fin_statuses = ["goal_completed"]) /\
    match r with
    | Ok v =>
        fin_statuses = ["goal_completed"] /\
        (output_schema a <> None ->
         fin_calls = ["generate_final_result"]) /\
        exists achieved,
          is_goal_achieved_method goal h = Ok achieved /\
          emitted "goal_completed" l
          = [completion_payload goal achieved j v] /\
          (output_schema a = None -> v = default_result goal achieved h)
    | Raise _ => True
    end.

Definition process_post {cls : AgentClass World} (goal : string)
  (s : St World) (r : Res pyval) (s' : St World) (l : list Event) : Prop :=
  let a := self s in
  let h := execution_history (self s') in
  config (self s') = config a /\
  current_goal (self s') = Some goal /\
  failures l = raised r /\
  reflected_results l = executed_results l /\
  (length (tool_runs l) <= calls "decide" l)%nat /\
  cycles_from 0 h /\
  Z.of_nat (length h) <= Z.max 0 (max_iterations a) /\
  Z.of_nat (calls "plan" l) <= Z.max 0 (max_iterations a) /\
  Z.of_nat (calls "decide" l) <= Z.max 0 (max_iterations a) /\
  Z.of_nat (calls "reflect" l) <= Z.max 0 (max_iterations a) /\
  ((exists e, r = Raise e /\
              plan_flags env l = repeat false (length (plan_flags env l)))
   \/ exists brk j, finalizing goal a h r l brk j).
End Specs.

(** ** A stub environment *)

Module Demo.

(** The world counts the plans the stub model has produced. *)
Definition World : Type := nat.

Definition get_bool (k : string) (v : pyval) : bool :=
  match v with
  | PDict d => match dict_get k d with Some (PBool b) => b | _ => false end
  | _ => false
  end.

Definition get_str (k : string) (v : pyval) : string :=
  match v with
  | PDict d => match dict_get k d with Some (PStr s) => s | _ => "" end
  | _ => ""
  end.

(** A model that reports the goal achieved from its [n]-th plan on
    (counting from 0), always decides to use [tool], and reflects that
    the action succeeded exactly when its result says so. *)
Definition stub_call (n : nat) (tool : string)
  (name instructions schema : string) (input : pyval) (parent : string)
  (w : World) : Res pyval * World :=
  if String.eqb name "plan" then
    (Ok (PDict [("thoughts", PStr "compute 3+4");
                ("goal_achieved", PBool (n <=? w)%nat)]), S w)
  else if String.eqb name "decide" then
    (Ok (PDict [("tool_name", PStr tool)]), w)
  else if String.eqb name "reflect" then
    (Ok (PDict [("action_successful",
                 PBool (match input with
                        | PDict d =>
                            match dict_get "action_result" d with
                            | Some res => get_bool "success" res
                            | None => false
                            end
                        | _ => false
                        end))]), w)
  else (Ok (PDict [("summary", PStr "done")]), w).

Definition env (n : nat) (tool : string) : Env World := {|
  opper_call := stub_call n tool;
  spans_create := fun name _ _ w => (Ok ("span:" ++ name)%string, w);
  spans_update := fun _ _ w => (Ok tt, w);
  time_time := fun w => (0%Q, w);
  Plan_new := fun v =>
    Ok {| Plan.thoughts := get_str "thoughts" v; Plan.steps := [];
          Plan.current_step := 0;
          Plan.goal_achieved := get_bool "goal_achieved" v |};
  Action_new := fun v =>
    Ok {| Action.thoughts := ""; Action.tool_name := get_str "tool_name" v;
          Action.tool_parameters := [("a", PInt 3); ("b", PInt 4)];
          Action.expected_outcome := ""; Action.user_message := "" |};
  Reflection_new := fun v =>
    Ok {| Reflection.thoughts := "";
          Reflection.action_successful := get_bool "action_successful" v;
          Reflection.lessons_learned := ""; Reflection.next_steps := "";
          Reflection.goal_progress := "" |};
  py_str := fun _ => "<result>"
|}.

Definition add : Tool.t World := {|
  Tool.name := "add"; Tool.description := "Add two numbers";
  Tool.parameters := PDict [("a", PStr "float"); ("b", PStr "float")];
  Tool.execute := fun kw w =>
    match dict_get "a" kw, dict_get "b" kw with
    | Some (PInt a), Some (PInt b) => (Ok (PInt (a + b)), w)
    | _, _ => (Raise {| exc_class := "TypeError";
                        exc_str := "unsupported operand" |}, w)
    end
|}.

(** A tool whose [execute] always raises. *)
Definition broken (name : string) : Tool.t World := {|
  Tool.name := name; Tool.description := "Always fails";
  Tool.parameters := PDict [];
  Tool.execute := fun _ w =>
    (Raise {| exc_class := "RuntimeError"; exc_str := "boom" |}, w)
|}.

(** An observer that raises on every event. *)
Definition raising_observer : Callback World :=
  fun _ _ w => (Raise {| exc_class := "ValueError"; exc_str := "no" |}, w).

Definition agent (max_iterations : Z) (schema : option string)
  (cb : option (Callback World)) (ts : list (Tool.t World))
  : BaseAgent World :=
  __init__ "MathAgent" max_iterations false schema (Some ts)
    (Some "does arithmetic") cb.

Definition start (a : BaseAgent World) : St World :=
  {| self := a; world := 0%nat |}.

Definition action_for (tool : string) : Action.t := {|
  Action.thoughts := ""; Action.tool_name := tool;
  Action.tool_parameters := [("a", PInt 3); ("b", PInt 4)];
  Action.expected_outcome := ""; Action.user_message := ""
|}.

Definition plan0 : Plan.t := {|
  Plan.thoughts := "compute 3+4"; Plan.steps := ["add 3 and 4"];
  Plan.current_step := 0; Plan.goal_achieved := false
|}.

Definition reflection_of (ok : bool) : Reflection.t := {|
  Reflection.thoughts := ""; Reflection.action_successful := ok;
  Reflection.lessons_learned := ""; Reflection.next_steps := "";
  Reflection.goal_progress := ""
|}.

(** A subclass whose goal predicate always says yes. *)
Definition optimist : AgentClass World := {|
  get_tools_method := [];
  get_agent_description_method := fun _ => "optimist";
  is_goal_achieved_method := fun _ _ => Ok (PBool true)
|}.

End Demo.

(** ** More of the repository: summaries, plain tools, the example tools *)

(** *** [get_tools_summary] *)

Definition get_tools_summary {World : Type} (a : BaseAgent World) : string :=
  ("Agent '" ++ name a ++ "' tools: "
   ++ String.concat ", " (list_tools a))%string.

(** *** Calling [tool.execute] with the action's parameters as keywords *)

(** [execute] is called as [tool.execute] applied to the unpacked
    parameters.  A parameter named [self] collides with the receiver and
    the call raises [TypeError] before the body runs; the message names
    the class that defines the [execute] that was called. *)
Definition call_collision (owner : string) (params : kwargs)
  : option PyExc :=
  match dict_get "self" params with
  | Some _ =>
      Some {| exc_class := "TypeError";
              exc_str := (owner ++ ".execute() got multiple values for "
                          ++ "argument 'self'")%string |}
  | None => None
  end.

(** What is left for the catch-all keyword dictionary once the named
    parameters [names] have taken theirs. *)
Definition remove_keys (names : list string) (params : kwargs) : kwargs :=
  filter (fun kv => negb (existsb (String.eqb (fst kv)) names)) params.

(** A named parameter whose default is [None]. *)
Definition named_or_none (k : string) (params : kwargs) : pyval :=
  match dict_get k params with Some v => v | None => PNone end.

(** *** [Tool.execute] of the base class *)

Definition Tool_execute {World : Type} (name : string) (params : kwargs)
  (w : World) : Res pyval * World :=
  match call_collision "Tool" params with
  | Some e => (Raise e, w)
  | None =>
      (Raise {| exc_class := "NotImplementedError";
                exc_str := ("Tool " ++ name
                            ++ " execution not implemented")%string |}, w)
  end.

(** A [Tool] that is not of a subclass. *)
Definition plain_tool {World : Type} (name description : string)
  (parameters : pyval) : Tool.t World :=
  {| Tool.name := name; Tool.description := description;
     Tool.parameters := parameters; Tool.execute := Tool_execute name |}.

(** *** The tools of [math_agent.py] *)

(** Python's arithmetic on two values: not code of this repository. *)
Record PyOps : Type := {
  py_add : pyval -> pyval -> Res pyval;
  py_sub : pyval -> pyval -> Res pyval;
  py_mul : pyval -> pyval -> Res pyval;
  py_truediv : pyval -> pyval -> Res pyval
}.

(** [v == 0] *)
Definition py_eq_zero (v : pyval) : bool :=
  match v with
  | PInt z => z =? 0
  | PFloat x => Qeq_bool x 0
  | PBool b => negb b
  | _ => false
  end.

(** The operand [k] as the body of [execute] ends up using it:
    [if k is None: k = kwargs.get(k, 0.0)], the catch-all dictionary
    being what the named parameters left over. *)
Definition math_operand (k : string) (params : kwargs) : pyval :=
  let kw := remove_keys ["_parent_span_id"; "a"; "b"] params in
  match named_or_none k params with
  | PNone => match dict_get k kw with Some v => v | None => PFloat 0 end
  | v => v
  end.

Section MathTools.
Context {World : Type} (ops : PyOps).

Definition math_parameters (a b : string) : pyval :=
  PDict [("a", PStr a); ("b", PStr b)].

Definition math_execute (owner : string)
  (op : pyval -> pyval -> Res pyval) (params : kwargs) (w : World)
  : Res pyval * World :=
  match call_collision owner params with
  | Some e => (Raise e, w)
  | None => (op (math_operand "a" params) (math_operand "b" params), w)
  end.

Definition AddTool : Tool.t World :=
  {| Tool.name := "add";
     Tool.description := "Adds two numbers together";
     Tool.parameters :=
       math_parameters "float - The first number"
                       "float - The second number";
     Tool.execute := math_execute "AddTool" (py_add ops) |}.

Definition SubtractTool : Tool.t World :=
  {| Tool.name := "subtract";
     Tool.description := "Subtracts the second number from the first number";
     Tool.parameters :=
       math_parameters "float - The number to subtract from"
                       "float - The number to subtract";
     Tool.execute := math_execute "SubtractTool" (py_sub ops) |}.

Definition MultiplyTool : Tool.t World :=
  {| Tool.name := "multiply";
     Tool.description := "Multiplies two numbers together";
     Tool.parameters :=
       math_parameters "float - The first number"
                       "float - The second number";
     Tool.execute := math_execute "MultiplyTool" (py_mul ops) |}.

Definition divide (a b : pyval) : Res pyval :=
  if py_eq_zero b
  then Raise {| exc_class := "ValueError";
                exc_str := "Cannot divide by zero" |}
  else py_truediv ops a b.

Definition DivideTool : Tool.t World :=
  {| Tool.name := "divide";
     Tool.description := "Divides the first number by the second number";
     Tool.parameters :=
       math_parameters "float - The dividend (number to be divided)"
                       "float - The divisor (number to divide by)";
     Tool.execute := math_execute "DivideTool" divide |}.
End MathTools.

(** *** [TwitterTool.execute] of [twitter_agent.py] *)

Record TwitterTool : Type := {
  tw_name : string;
  tw_description : string;
  tw_parameters : pyval;
  composio_tool_name : string;
  user_id : string
}.

Section Twitter.
Context {World : Type}.
(** [composio_client.tools.execute(tool_name, user_id=..., arguments=...)] *)
Context (composio_execute :
           string -> string -> kwargs -> World -> Res pyval * World).

Definition TwitterTool_execute (t : TwitterTool) (params : kwargs)
  (w : World) : Res pyval * World :=
  match call_collision "TwitterTool" params with
  | Some e => (Raise e, w)
  | None =>
      let kw := remove_keys ["_parent_span_id"] params in
      match composio_execute (composio_tool_name t) (user_id t) kw w with
      | (Ok result, w') =>
          (Ok (PDict [("success", PBool true);
                      ("result",
                       PStr ("Successfully executed "
                             ++ composio_tool_name t)%string);
                      ("details", result);
                      ("tool_name", PStr (tw_name t))]), w')
      | (Raise e, w') =>
          (Ok (PDict [("success", PBool false);
                      ("error",
                       PStr ("Error executing " ++ composio_tool_name t
                             ++ ": " ++ exc_str e)%string);
                      ("tool_name", PStr (tw_name t))]), w')
      end
  end.

Definition twitter_tool (t : TwitterTool) : Tool.t World :=
  {| Tool.name := tw_name t; Tool.description := tw_description t;
     Tool.parameters := tw_parameters t;
     Tool.execute := TwitterTool_execute t |}.
End Twitter.

(** *** [normalize_url] of [research_agent.py] *)

Definition normalize_url (url : string) : string :=
  if String.eqb url "" then url
  else if prefix "//" url then ("https:" ++ url)%string
  else if prefix "/" url then ("https://duckduckgo.com" ++ url)%string
  else url.

(** *** The status callbacks of [math_agent.py] and [email_agent.py] *)

(** [bool(v)] *)
Definition py_truthy (v : pyval) : bool :=
  match v with
  | PNone => false
  | PBool b => b
  | PInt z => negb (z =? 0)
  | PFloat x => negb (Qeq_bool x 0)
  | PStr s => negb (String.eqb s "")
  | PList l => match l with [] => false | _ :: _ => true end
  | PDict d => match d with [] => false | _ :: _ => true end
  end.

Section PrintStatus.
(** The output stream, [print] of one line, and how a value that is not
    a string shows in an f-string. *)
Context {Out : Type} (print : string -> Out -> Out)
  (format : pyval -> string).

Definition fstring (v : pyval) : string :=
  match v with PStr s => s | _ => format v end.

(** [print_status], and [print_email_status], which has the same body. *)
Definition print_status (event_type : string) (data : pyval) (out : Out)
  : Res unit * Out :=
  if String.eqb event_type "goal_start" then
    match py_get data "agent_name" PNone with
    | Raise e => (Raise e, out)
    | Ok agent_name =>
        let out := print ("Agent: " ++ fstring agent_name)%string out in
        match py_get data "goal" PNone with
        | Raise e => (Raise e, out)
        | Ok goal => (Ok tt, print ("Goal: " ++ fstring goal)%string out)
        end
    end
  else if String.eqb event_type "thought_created" then
    match py_get data "thought" (PDict []) with
    | Raise e => (Raise e, out)
    | Ok thought =>
        match py_get thought "user_message" (PStr "") with
        | Raise e => (Raise e, out)
        | Ok user_message =>
            if py_truthy user_message
            then (Ok tt, print (fstring user_message) out)
            else (Ok tt, out)
        end
    end
  else (Ok tt, out).
End PrintStatus.


(** *** [_extract_email_body] of [email_agent.py]

    The method is defined three times there, with the same body, in
    [ListEmailsTool], [ReadEmailTool] and [FetchUnrepliedEmailsTool]. *)

(** [v == s] for a string literal [s] *)
Definition py_eq_str (v : pyval) (s : string) : bool :=
  match v with PStr x => String.eqb x s | _ => false end.

Section EmailBody.
(** [base64.urlsafe_b64decode(data).decode('utf-8', errors='ignore')],
    [str.strip], and the interpreter's wording of the [TypeError] that an
    operation raises about a value: not code of this repository. *)
Context (decode : pyval -> Res string) (py_strip : string -> string)
  (type_error_message : string -> pyval -> string).

Definition type_error (operation : string) (v : pyval) : PyExc :=
  {| exc_class := "TypeError";
     exc_str := type_error_message operation v |}.

(** [v[k]] for a string [k] *)
Definition py_item (v : pyval) (k : string) : Res pyval :=
  match v with
  | PDict d =>
      match dict_get k d with
      | Some x => Ok x
      | None => Raise {| exc_class := "KeyError";
                         exc_str := ("'" ++ k ++ "'")%string |}
      end
  | _ => Raise (type_error "subscript" v)
  end.

(** What [for part in v] goes through: the elements of a list, the keys
    of a dictionary, the characters of a string. *)
Definition py_iter (v : pyval) : Res (list pyval) :=
  match v with
  | PList l => Ok l
  | PDict d => Ok (map (fun kv => PStr (fst kv)) d)
  | PStr s =>
      Ok (map (fun c => PStr (String c EmptyString)) (list_ascii_of_string s))
  | _ => Raise (type_error "iterate" v)
  end.

(** [data = part['body'].get('data', '')] and, if [data] is not empty,
    [body += decode(data)]. *)
Definition add_data (body : string) (part : pyval) : Res string :=
  match py_item part "body" with
  | Raise e => Raise e
  | Ok b =>
      match py_get b "data" (PStr "") with
      | Raise e => Raise e
      | Ok data =>
          if py_truthy data then
            match decode data with
            | Raise e => Raise e
            | Ok text => Ok (body ++ text)%string
            end
          else Ok body
      end
  end.

(** One pass through the loop over the parts. *)
Definition extract_part (body : string) (part : pyval) : Res string :=
  match py_item part "mimeType" with
  | Raise e => Raise e
  | Ok mime =>
      if py_eq_str mime "text/plain" then add_data body part
      else if py_eq_str mime "text/html" && String.eqb body "" then
        add_data body part
      else Ok body
  end.

Fixpoint extract_parts (body : string) (parts : list pyval) : Res string :=
  match parts with
  | [] => Ok body
  | part :: rest =>
      match extract_part body part with
      | Raise e => Raise e
      | Ok body' => extract_parts body' rest
      end
  end.

(** On a list or a string, ['parts' in payload] gives a boolean and the
    subscript that follows, [payload['parts']] or [payload['mimeType']],
    raises; on the other values that are no dictionary the test itself
    raises. *)
Definition _extract_email_body (payload : pyval) : Res string :=
  match payload with
  | PDict d =>
      match dict_get "parts" d with
      | Some parts =>
          match py_iter parts with
          | Raise e => Raise e
          | Ok ps =>
              match extract_parts "" ps with
              | Raise e => Raise e
              | Ok body => Ok (py_strip body)
              end
          end
      | None =>
          match py_item payload "mimeType" with
          | Raise e => Raise e
          | Ok mime =>
              if py_eq_str mime "text/plain" then
                match add_data "" payload with
                | Raise e => Raise e
                | Ok body => Ok (py_strip body)
                end
              else Ok (py_strip "")
          end
      end
  | PList _ | PStr _ => Raise (type_error "subscript" payload)
  | _ => Raise (type_error "in" payload)
  end.

(** Whether the loop takes a part for HTML, and whether for plain
    text. *)
Definition is_html (part : pyval) : bool :=
  match py_item part "mimeType" with
  | Ok mime => py_eq_str mime "text/html"
  | Raise _ => false
  end.

Definition is_plain (part : pyval) : bool :=
  match py_item part "mimeType" with
  | Ok mime => py_eq_str mime "text/plain"
  | Raise _ => false
  end.
End EmailBody.
(** ** The shape of a run

    What [process] logs, written as a grammar: one rule for each place
    where an iteration, the loop, or the run can end. *)

Section Trace.
Context {World : Type} (env : Env World).
Implicit Types (a : BaseAgent World) (goal trace_id span_id : string).

(** The inputs of the three model calls of an iteration. *)
Definition plan_context goal a : pyval :=
  PDict [("goal", PStr goal);
         ("agent_description", PStr (description a));
         ("available_tools", PList (map tool_summary (tools a)));
         ("execution_history", PList (lastn 3 (execution_history a)))].

Definition decide_context (plan : Plan.t) a : pyval :=
  PDict [("plan", Plan.dict plan);
         ("available_tools", PList (map tool_schema (tools a)))].

Definition reflect_context (action : Action.t) (action_result : pyval) a
  : pyval :=
  PDict [("action", Action.dict action);
         ("action_result", action_result);
         ("goal", py_opt_str (current_goal a))].

(** The events of an iteration, each with its outcome. *)
Definition ev_span goal trace_id (i : Z) (r : Res string) : Event :=
  EvSpanCreate ("iteration_" ++ str_of_int i)%string
    (Some ("Iteration " ++ str_of_int i ++ " of goal: " ++ goal)%string)
    (Some trace_id) r.

Definition ev_plan goal a span_id (r : Res pyval) : Event :=
  EvCall "plan" (plan_context goal a) "Plan" span_id r.

Definition ev_decide (plan : Plan.t) a span_id (r : Res pyval) : Event :=
  EvCall "decide" (decide_context plan a) "Action" span_id r.

Definition ev_reflect (action : Action.t) (action_result : pyval) a span_id
  (r : Res pyval) : Event :=
  EvCall "reflect" (reflect_context action action_result a) "Reflection"
    span_id r.

Definition ev_update span_id (plan : Plan.t) (action : Action.t)
  (reflection : Reflection.t) (r : Res unit) : Event :=
  EvSpanUpdate span_id
    ("Plan: " ++ str_prefix 100 (Plan.thoughts plan)
     ++ "... | Action: " ++ Action.tool_name action
     ++ " | Success: "
     ++ str_of_bool (Reflection.action_successful reflection))%string r.

(** The log of an iteration up to and including [plan_created]. *)
Definition planned goal trace_id (i : Z) a span_id (payload : pyval)
  (plan : Plan.t) : list Event :=
  [ev_span goal trace_id i (Ok span_id);
   ev_plan goal a span_id (Ok payload);
   EvValidate "Plan" payload None;
   EvEmit "plan_created"
     (PDict [("iteration", PInt i); ("plan", Plan.dict plan)])].

(** From the Decide-Action call to [action_decided]. *)
Definition decided (i : Z) a span_id (plan : Plan.t) (payload : pyval)
  (action : Action.t) : list Event :=
  [ev_decide plan a span_id (Ok payload);
   EvValidate "Action" payload None;
   EvEmit "action_decided"
     (PDict [("iteration", PInt i); ("action", Action.dict action)])].

Definition ev_executed (i : Z) (action : Action.t) (action_result : pyval)
  : Event :=
  EvEmit "action_executed"
    (PDict [("iteration", PInt i); ("action", Action.dict action);
            ("result", action_result)]).

(** From the Reflect call to [reflection_completed]. *)
Definition reflected (i : Z) a span_id (action : Action.t)
  (action_result payload : pyval) (reflection : Reflection.t)
  : list Event :=
  [ev_reflect action action_result a span_id (Ok payload);
   EvValidate "Reflection" payload None;
   EvEmit "reflection_completed"
     (PDict [("iteration", PInt i);
             ("reflection", Reflection.dict reflection)])].

(** The Execute step in the world [w]: the world it leaves, its result
    and what it logs. *)
Inductive executes a (action : Action.t) (w : World)
  : World -> pyval -> list Event -> Prop :=
| ex_direct :
    Action.tool_name action = "direct_response" ->
    executes a action w w
      (PDict [("type", PStr "direct_response");
              ("result", PStr "Task completed directly without tool usage");
              ("success", PBool true)]) []
| ex_missing :
    Action.tool_name action <> "direct_response" ->
    get_tool (Action.tool_name action) a = None ->
    executes a action w w
      (PDict [("type", PStr "error");
              ("result",
               PStr ("Tool '" ++ Action.tool_name action
                     ++ "' not found")%string);
              ("success", PBool false)]) []
| ex_returned tool v w' :
    Action.tool_name action <> "direct_response" ->
    get_tool (Action.tool_name action) a = Some tool ->
    Tool.execute tool (Action.tool_parameters action) w = (Ok v, w') ->
    executes a action w w'
      (PDict [("type", PStr "tool_execution");
              ("tool_name", PStr (Action.tool_name action));
              ("parameters", PDict (Action.tool_parameters action));
              ("result", v);
              ("success", PBool true)])
      [EvTool (Tool.name tool) (Action.tool_parameters action) (Ok v)]
| ex_raised tool e w' :
    Action.tool_name action <> "direct_response" ->
    get_tool (Action.tool_name action) a = Some tool ->
    Tool.execute tool (Action.tool_parameters action) w = (Raise e, w') ->
    executes a action w w'
      (PDict [("type", PStr "error");
              ("tool_name", PStr (Action.tool_name action));
              ("parameters", PDict (Action.tool_parameters action));
              ("result", PStr ("Error executing tool: " ++ exc_str e)%string);
              ("success", PBool false)])
      [EvTool (Tool.name tool) (Action.tool_parameters action) (Raise e)].

(** One pass through the loop body with the counter at [i], from the
    agent [a]: its log, how it ends, and the agent it leaves. *)
Inductive iteration goal trace_id (i : Z) a
  : list Event -> Res LoopCtl -> BaseAgent World -> Prop :=
| it_span_raised e :
    iteration goal trace_id i a
      [ev_span goal trace_id i (Raise e)] (Raise e) a
| it_plan_raised span_id e :
    iteration goal trace_id i a
      [ev_span goal trace_id i (Ok span_id);
       ev_plan goal a span_id (Raise e)] (Raise e) a
| it_plan_invalid span_id payload e :
    Plan_new env payload = Raise e ->
    iteration goal trace_id i a
      [ev_span goal trace_id i (Ok span_id);
       ev_plan goal a span_id (Ok payload);
       EvValidate "Plan" payload (Some e)] (Raise e) a
| it_break span_id payload plan :
    Plan_new env payload = Ok plan ->
    Plan.goal_achieved plan = true ->
    iteration goal trace_id i a
      (planned goal trace_id i a span_id payload plan) (Ok Break) a
| it_decide_raised span_id payload plan e :
    Plan_new env payload = Ok plan ->
    Plan.goal_achieved plan = false ->
    iteration goal trace_id i a
      (planned goal trace_id i a span_id payload plan
       ++ [ev_decide plan a span_id (Raise e)]) (Raise e) a
| it_decide_invalid span_id payload plan payload2 e :
    Plan_new env payload = Ok plan ->
    Plan.goal_achieved plan = false ->
    Action_new env payload2 = Raise e ->
    iteration goal trace_id i a
      (planned goal trace_id i a span_id payload plan
       ++ [ev_decide plan a span_id (Ok payload2);
           EvValidate "Action" payload2 (Some e)]) (Raise e) a
| it_reflect_raised span_id payload plan payload2 action w w' result tl e :
    Plan_new env payload = Ok plan ->
    Plan.goal_achieved plan = false ->
    Action_new env payload2 = Ok action ->
    executes a action w w' result tl ->
    iteration goal trace_id i a
      (planned goal trace_id i a span_id payload plan
       ++ decided i a span_id plan payload2 action
       ++ tl ++ ev_executed i action result
       :: [ev_reflect action result a span_id (Raise e)]) (Raise e) a
| it_reflect_invalid span_id payload plan payload2 action w w' result tl
    payload3 e :
    Plan_new env payload = Ok plan ->
    Plan.goal_achieved plan = false ->
    Action_new env payload2 = Ok action ->
    executes a action w w' result tl ->
    Reflection_new env payload3 = Raise e ->
    iteration goal trace_id i a
      (planned goal trace_id i a span_id payload plan
       ++ decided i a span_id plan payload2 action
       ++ tl ++ ev_executed i action result
       :: [ev_reflect action result a span_id (Ok payload3);
           EvValidate "Reflection" payload3 (Some e)]) (Raise e) a
| it_update_raised span_id payload plan payload2 action w w' result tl
    payload3 reflection timestamp e :
    Plan_new env payload = Ok plan ->
    Plan.goal_achieved plan = false ->
    Action_new env payload2 = Ok action ->
    executes a action w w' result tl ->
    Reflection_new env payload3 = Ok reflection ->
    iteration goal trace_id i a
      (planned goal trace_id i a span_id payload plan
       ++ decided i a span_id plan payload2 action
       ++ tl ++ ev_executed i action result
       :: reflected i a span_id action result payload3 reflection
       ++ [ev_update span_id plan action reflection (Raise e)])
      (Raise e)
      (append_cycle
         (make_cycle i plan action result reflection timestamp) a)
| it_continue span_id payload plan payload2 action w w' result tl
    payload3 reflection timestamp :
    Plan_new env payload = Ok plan ->
    Plan.goal_achieved plan = false ->
    Action_new env payload2 = Ok action ->
    executes a action w w' result tl ->
    Reflection_new env payload3 = Ok reflection ->
    iteration goal trace_id i a
      (planned goal trace_id i a span_id payload plan
       ++ decided i a span_id plan payload2 action
       ++ tl ++ ev_executed i action result
       :: reflected i a span_id action result payload3 reflection
       ++ [ev_update span_id plan action reflection (Ok tt)])
      (Ok Continue)
      (set_current_plan (Some plan)
         (append_cycle
            (make_cycle i plan action result reflection timestamp) a)).

(** The loop entered with the counter at [i]. *)
Inductive looping goal trace_id
  : Z -> BaseAgent World -> list Event -> Res Z -> BaseAgent World -> Prop :=
| lp_done i a :
    max_iterations a <= i ->
    looping goal trace_id i a [] (Ok i) a
| lp_break i a l a' :
    i < max_iterations a ->
    iteration goal trace_id (i + 1) a l (Ok Break) a' ->
    looping goal trace_id i a l (Ok (i + 1)) a'
| lp_raised i a l e a' :
    i < max_iterations a ->
    iteration goal trace_id (i + 1) a l (Raise e) a' ->
    looping goal trace_id i a l (Raise e) a'
| lp_continue i a l1 a1 l2 r a' :
    i < max_iterations a ->
    iteration goal trace_id (i + 1) a l1 (Ok Continue) a1 ->
    looping goal trace_id (i + 1) a1 l2 r a' ->
    looping goal trace_id i a (l1 ++ l2) r a'.

(** The agent as [process] sets it up before anything else. *)
Definition reset_for goal a : BaseAgent World :=
  set_execution_history [] (set_current_goal (Some goal) a).

Definition ev_trace goal a (r : Res string) : Event :=
  EvSpanCreate (name a) (if String.eqb goal "" then None else Some goal)
    None r.

Definition ev_goal_start goal a : Event :=
  EvEmit "goal_start"
    (PDict [("goal", PStr goal);
            ("agent_name", PStr (name a));
            ("available_tools",
             PList (map (fun tool => PStr (Tool.name tool)) (tools a)))]).

(** [process] up to the end of its loop. *)
Inductive running goal a
  : list Event -> Res (string * Z) -> BaseAgent World -> Prop :=
| rn_trace_raised e :
    running goal a [ev_trace goal a (Raise e)] (Raise e) (reset_for goal a)
| rn_loop_raised trace_id l e a' :
    looping goal trace_id 0 (reset_for goal a) l (Raise e) a' ->
    running goal a
      (ev_trace goal a (Ok trace_id) :: ev_goal_start goal a :: l)
      (Raise e) a'
| rn_loop_ended trace_id l j a' :
    looping goal trace_id 0 (reset_for goal a) l (Ok j) a' ->
    running goal a
      (ev_trace goal a (Ok trace_id) :: ev_goal_start goal a :: l)
      (Ok (trace_id, j)) a'.

(** The input of the model call that shapes the final result. *)
Definition final_context goal (h : list pyval) a (achieved : pyval)
  : pyval :=
  PDict [("goal", PStr goal);
         ("execution_history", PList h);
         ("agent_description", PStr (description a));
         ("goal_achieved", achieved);
         ("iterations", PInt (Z.of_nat (length h)))].

(** [_generate_final_result]: its log and what it gives. *)
Inductive generates {cls : AgentClass World} goal (h : list pyval)
  trace_id a : list Event -> Res pyval -> Prop :=
| gen_predicate_raised e :
    is_goal_achieved_method goal h = Raise e ->
    generates goal h trace_id a [EvPredicate goal h (Raise e)] (Raise e)
| gen_default achieved :
    output_schema a = None ->
    is_goal_achieved_method goal h = Ok achieved ->
    generates goal h trace_id a [EvPredicate goal h (Ok achieved)]
      (Ok (default_result goal achieved h))
| gen_schema schema achieved r :
    output_schema a = Some schema ->
    is_goal_achieved_method goal h = Ok achieved ->
    generates goal h trace_id a
      [EvPredicate goal h (Ok achieved);
       EvCall "generate_final_result" (final_context goal h a achieved)
         schema trace_id r] r.

(** The call of the predicate for the closing message of a verbose
    agent. *)
Definition closing_log goal a (achieved final_result : pyval)
  : list Event :=
  if verbose a then
    if has_key "achieved" final_result then []
    else [EvPredicate goal (execution_history a) (Ok achieved)]
  else [].

(** [process] after its loop, the counter being [j]. *)
Inductive finishing {cls : AgentClass World} goal trace_id (j : Z) a
  : list Event -> Res pyval -> Prop :=
| fin_generate_raised l e :
    generates goal (execution_history a) trace_id a l (Raise e) ->
    finishing goal trace_id j a l (Raise e)
| fin_update_raised l v achieved e :
    generates goal (execution_history a) trace_id a l (Ok v) ->
    is_goal_achieved_method goal (execution_history a) = Ok achieved ->
    finishing goal trace_id j a
      (l ++ [EvPredicate goal (execution_history a) (Ok achieved);
             EvEmit "goal_completed" (completion_payload goal achieved j v);
             EvSpanUpdate trace_id (py_str env v) (Raise e)])
      (Raise e)
| fin_returned l v achieved :
    generates goal (execution_history a) trace_id a l (Ok v) ->
    is_goal_achieved_method goal (execution_history a) = Ok achieved ->
    finishing goal trace_id j a
      (l ++ [EvPredicate goal (execution_history a) (Ok achieved);
             EvEmit "goal_completed" (completion_payload goal achieved j v);
             EvSpanUpdate trace_id (py_str env v) (Ok tt)]
       ++ closing_log goal a achieved v)
      (Ok v).

(** A whole run of [process] from the agent [a]. *)
Inductive processing {cls : AgentClass World} goal a
  : list Event -> Res pyval -> BaseAgent World -> Prop :=
| pr_aborted l e a' :
    running goal a l (Raise e) a' ->
    processing goal a l (Raise e) a'
| pr_finished l1 trace_id j a' l2 r :
    running goal a l1 (Ok (trace_id, j)) a' ->
    finishing goal trace_id j a' l2 r ->
    processing goal a (l1 ++ l2) r a'.
End Trace.

(** ** What to read off a run *)

(** The lifecycle announced through [_emit_status]. *)
Inductive Phase : Type :=
| Idle | Planning | Planned | Decided | Executed | Done.

Definition lifecycle_step (p : Phase) (event_type : string) : option Phase :=
  match p with
  | Idle =>
      if String.eqb event_type "goal_start" then Some Planning else None
  | Planning =>
      if String.eqb event_type "plan_created" then Some Planned
      else if String.eqb event_type "goal_completed" then Some Done
      else None
  | Planned =>
      if String.eqb event_type "action_decided" then Some Decided
      else if String.eqb event_type "goal_completed" then Some Done
      else None
  | Decided =>
      if String.eqb event_type "action_executed" then Some Executed
      else None
  | Executed =>
      if String.eqb event_type "reflection_completed" then Some Planning
      else None
  | Done => None
  end.

Fixpoint lifecycle_run (p : Phase) (event_types : list string)
  : option Phase :=
  match event_types with
  | [] => Some p
  | t :: rest =>
      match lifecycle_step p t with
      | Some q => lifecycle_run q rest
      | None => None
      end
  end.

(** The inputs of the model calls named [n], in order. *)
Definition inputs (n : string) (l : list Event) : list pyval :=
  flat_map (fun ev => match ev with
                      | EvCall n' input _ _ _ =>
                          if String.eqb n' n then [input] else []
                      | _ => []
                      end) l.

(** The history each Plan call was shown. *)
Definition plan_histories (l : list Event) : list pyval :=
  flat_map (field "execution_history") (inputs "plan" l).

(** What the [k]-th Plan call of a run is shown, [h] being the history
    the run leaves behind: [h[:k][-3:]]. *)
Definition window_at (h : list pyval) (k : nat) : pyval :=
  PList (lastn 3 (firstn k h)).

(** Span discipline below the trace [trace_id]: [current] is the span of
    the iteration under way, if any. *)
Fixpoint traced (trace_id : string) (current : option string)
  (l : list Event) : Prop :=
  match l with
  | [] => True
  | EvSpanCreate _ _ parent r :: rest =>
      parent = Some trace_id /\
      traced trace_id (match r with Ok id => Some id | Raise _ => None end)
        rest
  | EvCall n _ _ parent _ :: rest =>
      (if String.eqb n "generate_final_result" then parent = trace_id
       else current = Some parent) /\
      traced trace_id current rest
  | EvSpanUpdate id _ _ :: rest =>
      (current = Some id \/ id = trace_id) /\ traced trace_id current rest
  | _ :: rest => traced trace_id current rest
  end.

(** The iteration numbers carried by the events of type [t]. *)
Definition event_iterations (t : string) (l : list Event) : list pyval :=
  flat_map (field "iteration") (emitted t l).

(** [current_plan] against the cycles [cs] recorded since some earlier
    point at which it was [before]. *)
Definition plan_follows (before : option Plan.t) (cs : list pyval)
  {World} (a' : BaseAgent World) : Prop :=
  match rev cs with
  | [] => current_plan a' = before
  | c :: _ =>
      exists plan,
        current_plan a' = Some plan /\
        field "plan" c = [Plan.dict plan] /\
        Plan.goal_achieved plan = false
  end.


(** The values the events of type [t] carry under the key [k]. *)
Definition event_fields (t k : string) (l : list Event) : list pyval :=
  flat_map (field k) (emitted t l).

(** The values the cycles of a history hold under the key [k]. *)
Definition recorded (k : string) (h : list pyval) : list pyval :=
  flat_map (field k) h.

(** The events of type [t] announced, under [k_event], what the cycles
    hold under [k_cycle], and at most one value more. *)
Definition announced (t k_event k_cycle : string) (h : list pyval)
  (l : list Event) (rest : list pyval) : Prop :=
  event_fields t k_event l = recorded k_cycle h ++ rest /\
  (length rest <= 1)%nat.

(** The history [h] against the log [l] of the run that recorded it; the
    run is over and has not raised when [closed] holds. *)
Definition history_announced (h : list pyval) (l : list Event)
  (closed : bool) : Prop :=
  announced "reflection_completed" "reflection" "reflection" h l [] /\
  (exists rest, announced "plan_created" "plan" "plan" h l rest) /\
  (exists rest,
     announced "action_decided" "action" "action" h l rest /\
     (closed = true -> rest = [])) /\
  (exists rest,
     announced "action_executed" "result" "action_result" h l rest /\
     (closed = true -> rest = [])).


(** The model calls made for the final result. *)
Definition final_calls (l : list Event) : list Event :=
  filter (fun ev => match ev with
                    | EvCall n _ _ _ _ => String.eqb n "generate_final_result"
                    | _ => false
                    end) l.

(** What the model is told in the three calls of an iteration, for an
    agent with the description [d] and the registry [ts]. *)
Definition informed {World} (goal d : string) (ts : list (Tool.t World))
  (l : list Event) : Prop :=
  Forall (fun input =>
            field "goal" input = [PStr goal] /\
            field "agent_description" input = [PStr d] /\
            field "available_tools" input = [PList (map tool_summary ts)])
    (inputs "plan" l) /\
  Forall (fun input =>
            field "available_tools" input = [PList (map tool_schema ts)])
    (inputs "decide" l) /\
  Forall (fun input => field "goal" input = [PStr goal])
    (inputs "reflect" l).

(** An event that is no status update, or one of an iteration or of the
    end of the run. *)
Definition after_start (ev : Event) : bool :=
  match ev with
  | EvEmit t _ =>
      existsb (String.eqb t) (cycle_statuses ++ ["goal_completed"])
  | _ => true
  end.


(** Agents that differ at most in [current_plan], states that differ at
    most there, and computations that cannot tell such states apart. *)
Definition same_but_plan {World} (a1 a2 : BaseAgent World) : Prop :=
  set_current_plan None a1 = set_current_plan None a2.

Definition plan_srel {World} (s1 s2 : St World) : Prop :=
  same_but_plan (self s1) (self s2) /\ world s1 = world s2.

Definition plan_rel {World A} (m1 m2 : M World A) : Prop :=
  forall s1 s2,
    plan_srel s1 s2 ->
    result_of (m1 s1) = result_of (m2 s2) /\
    log_of (m1 s1) = log_of (m2 s2) /\
    plan_srel (state_of (m1 s1)) (state_of (m2 s2)).

(** In the log [l], the action announced by the [action_decided] payload
    [d] was executed by [_execute_action] on the agent [a], the result
    was announced by [action_executed], and the Reflect call that follows
    was given that result. *)
Definition executed_and_reflected {World} (a : BaseAgent World)
  (goal : string) (l : list Event) (d : pyval) : Prop :=
  exists before i action w w' result tl span_id r after,
    d = PDict [("iteration", PInt i); ("action", Action.dict action)] /\
    _execute_action action {| self := a; world := w |}
    = (Ok result, {| self := a; world := w' |}, tl) /\
    l = before ++ EvEmit "action_decided" d :: tl
        ++ EvEmit "action_executed"
             (PDict [("iteration", PInt i); ("action", Action.dict action);
                     ("result", result)])
        :: EvCall "reflect"
             (PDict [("action", Action.dict action);
                     ("action_result", result);
                     ("goal", PStr goal)])
             "Reflection" span_id r
        :: after.


(** ** Stubs for the example tools *)

Module DemoTools.

(** Exact arithmetic on numbers, standing in for Python's. *)
Definition number (v : pyval) : option Q :=
  match v with
  | PInt z => Some (inject_Z z)
  | PFloat x => Some x
  | _ => None
  end.

Definition arith (f : Q -> Q -> Q) (a b : pyval) : Res pyval :=
  match number a, number b with
  | Some x, Some y => Ok (PFloat (f x y))
  | _, _ => Raise {| exc_class := "TypeError";
                     exc_str := "unsupported operand type(s)" |}
  end.

Definition ops : PyOps := {|
  py_add := arith Qplus; py_sub := arith Qminus;
  py_mul := arith Qmult; py_truediv := arith Qdiv
|}.

(** A Composio client without a connection. *)
Definition offline (tool_name user_id : string) (arguments : kwargs)
  (w : Demo.World) : Res pyval * Demo.World :=
  (Raise {| exc_class := "ConnectionError"; exc_str := "offline" |}, w).

Definition post : TwitterTool := {|
  tw_name := "creation_of_a_post";
  tw_description := "Creates a post";
  tw_parameters := PDict [("text", PStr "string - text parameter")];
  composio_tool_name := "TWITTER_CREATION_OF_A_POST";
  user_id := "default"
|}.

Definition action (tool : string) (params : kwargs) : Action.t := {|
  Action.thoughts := ""; Action.tool_name := tool;
  Action.tool_parameters := params;
  Action.expected_outcome := ""; Action.user_message := ""
|}.

End DemoTools.

(** ** Stubs for the e-mail payloads *)

Module DemoMail.

(** Data that is already text, standing in for base64. *)
Definition decode (data : pyval) : Res string :=
  match data with
  | PStr s => Ok s
  | _ => Raise {| exc_class := "TypeError";
                  exc_str := "argument should be a bytes-like object" |}
  end.

Definition strip (s : string) : string := s.

Definition wording (operation : string) (v : pyval) : string := operation.

Definition part (mime text : string) : pyval :=
  PDict [("partId", PStr "0"); ("mimeType", PStr mime);
         ("body", PDict [("size", PInt 5); ("data", PStr text)])].

End DemoMail.

(** ** The observer and the objects it is handed

    [_emit_status] passes [data] on to the observer as it is.  Most of
    what [process] puts into [data] is built for the occasion (the
    [dict()] of a plan, an action or a reflection, the list of tool
    names), but two members are the agent's own objects: the action
    result under [result] at [action_executed], and the final result
    under [final_result] at [goal_completed], which, when it is the
    default result, holds the list [self.execution_history] itself under
    [execution_history].  An observer can change these objects in place,
    and what it did to them stays when it raises.

    [process] and [_emit_status] above take the observer to leave
    them alone.  Here they are once more with an observer that may not:
    the same code, the observer being given by what it does to the
    world, whether it raises, and how it leaves those objects. *)

Module Live.

(** How an observer left the objects it was handed: the action result or
    the final result, and the history list; [None] for an object it left
    as it was. *)
Record Touched : Type := {
  touched_result : option pyval;
  touched_history : option (list pyval)
}.

Definition untouched : Touched :=
  {| touched_result := None; touched_history := None |}.

Definition Observer (World : Type) : Type :=
  string -> pyval -> World -> Res unit * World * Touched.

(** The object [v] as the observer left it. *)
Definition left_as {A} (touched : option A) (v : A) : A :=
  match touched with Some v' => v' | None => v end.

(** [d[k] = v] on a dictionary that has the key. *)
Fixpoint dict_set (k : string) (v : pyval) (d : kwargs) : kwargs :=
  match d with
  | [] => []
  | (k', v') :: d' =>
      if String.eqb k' k then (k', v) :: d' else (k', v') :: dict_set k v d'
  end.

(** The default final result shows the history list it holds as the
    observer left it. *)
Definition show_history (h : option (list pyval)) (final_result : pyval)
  : pyval :=
  match h, final_result with
  | Some h', PDict d => PDict (dict_set "execution_history" (PList h') d)
  | _, _ => final_result
  end.

(** An observer that leaves the objects alone. *)
Definition hands_off {World} (cb : Callback World) : Observer World :=
  fun event_type data w =>
    let '(r, w') := cb event_type data w in (r, w', untouched).

(** The observer [cb] with its exceptions taken away: it does the same
    to the world and to the objects, and returns. *)
Definition muted {World} (cb : Observer World) : Observer World :=
  fun event_type data w =>
    let '(_, w', touched) := cb event_type data w in (Ok tt, w', touched).

Section Agent.
Context {World : Type} (env : Env World) {cls : AgentClass World}.
(** [self.callback], which nothing assigns after [__init__]; [None] also
    stands for a callback that tests false. *)
Context (observer : option (Observer World)).
Implicit Types (goal : string).

(** [try: self.callback(event_type, data)  except Exception: pass]:
    whether the observer returns or raises, what it did stays. *)
Definition _emit_status (event_type : string) (data : pyval)
  : M World Touched :=
  tell [EvEmit event_type data] ;;
  match observer with
  | Some cb =>
      fun s =>
        let '(_, w, touched) := cb event_type data (world s) in
        (Ok touched, {| self := self s; world := w |}, [])
  | None => ret untouched
  end.

Definition loop_body goal (trace_id : string) (iteration : Z)
  : M World LoopCtl :=
  iteration_span <-
    create_span env ("iteration_" ++ str_of_int iteration)%string
      (Some ("Iteration " ++ str_of_int iteration ++ " of goal: "
             ++ goal)%string)
      (Some trace_id) ;;
  plan <- _create_plan env goal iteration_span ;;
  _emit_status "plan_created"
    (PDict [("iteration", PInt iteration); ("plan", Plan.dict plan)]) ;;
  if Plan.goal_achieved plan then ret Break
  else
    action <- _decide_action env plan iteration_span ;;
    _emit_status "action_decided"
      (PDict [("iteration", PInt iteration);
              ("action", Action.dict action)]) ;;
    action_result <- _execute_action action ;;
    touched <-
      _emit_status "action_executed"
        (PDict [("iteration", PInt iteration);
                ("action", Action.dict action);
                ("result", action_result)]) ;;
    let action_result := left_as (touched_result touched) action_result in
    reflection <- _reflect_on_result env action action_result plan
                    iteration_span ;;
    _emit_status "reflection_completed"
      (PDict [("iteration", PInt iteration);
              ("reflection", Reflection.dict reflection)]) ;;
    timestamp <- read_clock (time_time env) ;;
    let cycle :=
      PDict [("iteration", PInt iteration);
             ("plan", Plan.dict plan);
             ("action", Action.dict action);
             ("action_result", action_result);
             ("reflection", Reflection.dict reflection);
             ("timestamp", PFloat timestamp)] in
    modify_self (append_cycle cycle) ;;
    update_span env iteration_span
      ("Plan: " ++ str_prefix 100 (Plan.thoughts plan)
       ++ "... | Action: " ++ Action.tool_name action
       ++ " | Success: "
       ++ str_of_bool (Reflection.action_successful reflection))%string ;;
    modify_self (set_current_plan (Some plan)) ;;
    ret Continue.

Fixpoint while_loop (fuel : nat) goal (trace_id : string) (iteration : Z)
  : M World Z :=
  a <- get_self ;;
  if iteration <? max_iterations a then
    match fuel with
    | O => raise fuel_exhausted
    | S fuel' =>
        let iteration := iteration + 1 in
        ctl <- loop_body goal trace_id iteration ;;
        match ctl with
        | Break => ret iteration
        | Continue => while_loop fuel' goal trace_id iteration
        end
    end
  else ret iteration.

Definition process goal : M World pyval :=
  modify_self (set_current_goal (Some goal)) ;;
  modify_self (set_execution_history []) ;;
  a <- get_self ;;
  trace_id <- start_trace env (name a) goal ;;
  _emit_status "goal_start"
    (PDict [("goal", PStr goal);
            ("agent_name", PStr (name a));
            ("available_tools",
             PList (map (fun tool => PStr (Tool.name tool)) (tools a)))]) ;;
  iteration <- while_loop (Z.to_nat (max_iterations a)) goal trace_id 0 ;;
  a <- get_self ;;
  final_result <- _generate_final_result env goal (execution_history a)
                    trace_id ;;
  a <- get_self ;;
  achieved <- call_is_goal_achieved goal (execution_history a) ;;
  touched <-
    _emit_status "goal_completed"
      (PDict [("goal", PStr goal);
              ("achieved", achieved);
              ("iterations", PInt iteration);
              ("final_result", final_result)]) ;;
  (* only the default result holds the history list *)
  let history :=
    match output_schema a with
    | None => touched_history touched
    | Some _ => None
    end in
  match history with
  | Some h => modify_self (set_execution_history h)
  | None => ret tt
  end ;;
  let final_result :=
    left_as (touched_result touched) (show_history history final_result) in
  update_span env trace_id (py_str env final_result) ;;
  a <- get_self ;;
  (if verbose a then
     if has_key "achieved" final_result then ret tt
     else call_is_goal_achieved goal (execution_history a) ;; ret tt
   else ret tt) ;;
  ret final_result.
End Agent.

(** *** Two observers for the stub environment *)

(** Raises on every event, having set the [result] of the action result
    it is handed to 0. *)
Definition meddler : Observer Demo.World :=
  fun event_type data w =>
    (Raise {| exc_class := "RuntimeError"; exc_str := "observer down" |}, w,
     if String.eqb event_type "action_executed" then
       match field "result" data with
       | [PDict d] =>
           {| touched_result := Some (PDict (dict_set "result" (PInt 0) d));
              touched_history := None |}
       | _ => untouched
       end
     else untouched).

(** Raises on every event and does nothing else. *)
Definition grumbler : Observer Demo.World :=
  fun event_type data w =>
    (Raise {| exc_class := "RuntimeError"; exc_str := "observer down" |}, w,
     untouched).

End Live.

(** What a computation started in [s0] has to show for itself: its log
    holds the failure it raises and none otherwise, and the iteration
    bound is the one it started with. *)
Definition accounted {World A} (s0 : St World) (r : Res A)
  (s' : St World) (l : list Event) : Prop :=
  failures l = raised r /\
  max_iterations (self s') = max_iterations (self s0).

(** Two computations that do the same from every agent whose callback is
    [cb], and leave it the callback. *)
Definition agree {World A} (cb : option (Callback World))
  (m1 m2 : M World A) : Prop :=
  forall s,
    callback (self s) = cb ->
    m1 s = m2 s /\ callback (self (state_of (m2 s))) = cb.
(** ** Reasoning about computations *)

Section Logic.
Context {World : Type}.
Implicit Types (s : St World).

Lemma post_mono {A} (m : M World A) s (Q Q' : _ -> _ -> _ -> Prop) :
  post m s Q -> (forall r s' l, Q r s' l -> Q' r s' l) -> post m s Q'.
Proof. unfold post; auto. Qed.

Lemma post_ret {A} (a : A) s Q : Q (Ok a) s [] -> post (ret a) s Q.
Proof. exact (fun H => H). Qed.

Lemma post_lift {A} (r : Res A) s Q : Q r s [] -> post (lift r) s Q.
Proof. exact (fun H => H). Qed.

Lemma post_tell l s Q : Q (Ok tt) s l -> post (tell l) s Q.
Proof. exact (fun H => H). Qed.

Lemma post_get_self s Q : Q (Ok (self s)) s [] -> post get_self s Q.
Proof. exact (fun H => H). Qed.

Lemma post_modify_self f s Q :
  Q (Ok tt) {| self := f (self s); world := world s |} [] ->
  post (modify_self f) s Q.
Proof. exact (fun H => H). Qed.

Lemma post_validate {A} schema (new : pyval -> Res A) payload s Q :
  Q (new payload) s [EvValidate schema payload (error_of (new payload))] ->
  post (validate schema new payload) s Q.
Proof. exact (fun H => H). Qed.

Lemma post_is_goal_achieved {cls : AgentClass World} goal h s Q :
  Q (is_goal_achieved_method goal h) s
    [EvPredicate goal h (is_goal_achieved_method goal h)] ->
  post (call_is_goal_achieved goal h) s Q.
Proof. exact (fun H => H). Qed.

Lemma post_extern {A} (op : World -> Res A * World) ev s Q :
  (forall r w, op (world s) = (r, w) ->
               Q r {| self := self s; world := w |} (ev r)) ->
  post (extern op ev) s Q.
Proof.
  unfold post, extern, result_of, state_of, log_of. intros H.
  destruct (op (world s)) as [r w] eqn:E. simpl. now apply H.
Qed.

Lemma post_read_clock clock s Q :
  (forall t w, Q (Ok t) {| self := self s; world := w |} []) ->
  post (read_clock clock) s Q.
Proof.
  unfold post, read_clock, result_of, state_of, log_of. intros H.
  destruct (clock (world s)) as [t w]. simpl. apply H.
Qed.

Lemma post_bind {A B} (m : M World A) (f : A -> M World B) s Q :
  post m s (fun r s1 l1 =>
              match r with
              | Ok a => post (f a) s1 (fun r2 s2 l2 => Q r2 s2 (l1 ++ l2))
              | Raise e => Q (Raise e) s1 l1
              end) ->
  post (bind m f) s Q.
Proof.
  unfold post, bind, result_of, state_of, log_of.
  destruct (m s) as [[[a | e] s1] l1]; simpl; auto.
  destruct (f a s1) as [[r2 s2] l2]; simpl; auto.
Qed.

Lemma post_try_except {A} (m : M World A) h s Q :
  post m s (fun r s1 l1 =>
              match r with
              | Ok a => Q (Ok a) s1 l1
              | Raise e => post (h e) s1 (fun r2 s2 l2 => Q r2 s2 (l1 ++ l2))
              end) ->
  post (try_except m h) s Q.
Proof.
  unfold post, try_except, result_of, state_of, log_of.
  destruct (m s) as [[[a | e] s1] l1]; simpl; auto.
  destruct (h e s1) as [[r2 s2] l2]; simpl; auto.
Qed.

(** The pointwise form of what [post] says. *)
Lemma post_run {A} (m : M World A) s Q :
  post m s Q -> forall r s' l, m s = (r, s', l) -> Q r s' l.
Proof. unfold post. intros H r s' l E. rewrite E in H. exact H. Qed.
End Logic.

Ltac mstep :=
  lazymatch goal with
  | |- post (bind _ _) _ _ => apply post_bind
  | |- post (ret _) _ _ => apply post_ret
  | |- post (lift _) _ _ => apply post_lift
  | |- post (raise _) _ _ => apply post_lift
  | |- post (tell _) _ _ => apply post_tell
  | |- post get_self _ _ => apply post_get_self
  | |- post (modify_self _) _ _ => apply post_modify_self
  | |- post (validate _ _ _) _ _ => apply post_validate
  | |- post (call_is_goal_achieved _ _) _ _ => apply post_is_goal_achieved
  | |- post (read_clock _) _ _ => apply post_read_clock; intros ? ?
  | |- post (try_except _ _) _ _ => apply post_try_except
  end.

(** ** The steps of one iteration *)

Section StepSpecs.
Context {World : Type} (env : Env World) {cls : AgentClass World}.
Implicit Types (s : St World).

Lemma emit_status_spec event_type data s :
  post (_emit_status event_type data) s
       (fun r s' l => r = Ok tt /\ l = [EvEmit event_type data] /\
                      exists w, s' = {| self := self s; world := w |}).
Proof.
  unfold _emit_status. mstep. mstep. mstep. mstep. simpl.
  destruct (callback (self s)) as [cb |].
  - mstep. apply post_extern. intros [[] | e] w _.
    + repeat split; eauto.
    + mstep. repeat split; eauto.
  - mstep. destruct s. repeat split; eauto.
Qed.

Lemma execute_action_spec action s :
  post (_execute_action action) s
       (fun r s' l =>
          (exists v, r = Ok v) /\
          (l = [] \/ exists n a r0, l = [EvTool n a r0]) /\
          exists w, s' = {| self := self s; world := w |}).
Proof.
  unfold _execute_action.
  destruct (String.eqb (Action.tool_name action) "direct_response").
  - mstep. destruct s. repeat split; eauto.
  - mstep. mstep. simpl.
    destruct (get_tool (Action.tool_name action) (self s)) as [tool |].
    + mstep. mstep. apply post_extern. intros [v | e] w _.
      * mstep. simpl. repeat split; eauto 6.
      * simpl. mstep. simpl. repeat split; eauto 6.
    + mstep. destruct s. repeat split; eauto.
Qed.
End StepSpecs.

Ltac memit :=
  eapply post_bind, post_mono;
  [ apply emit_status_spec
  | let w := fresh "w" in
    intros ? ? ? (-> & -> & w & ->); cbn beta iota; cbn [self world] ].

Ltac mextern :=
  apply post_extern;
  let v := fresh "v" in let e := fresh "e" in let w := fresh "w" in
  intros [v | e] w _; cbn beta iota; cbn [self world].

Ltac body_leaf cs :=
  unfold body_post, calls, executed_results; simpl;
  repeat match goal with
         | H : Plan_new _ _ = _ |- _ => rewrite H
         | H : Plan.goal_achieved _ = _ |- _ => rewrite H
         end;
  simpl;
  repeat (split; [solve [auto] |]);
  exists cs; rewrite ?app_nil_r; simpl; unfold cycle_ok, make_cycle;
  repeat split; eauto 10.

Ltac body_leaf_cycle :=
  unfold body_post, calls, executed_results; simpl;
  repeat match goal with
         | H : Plan_new _ _ = _ |- _ => rewrite H
         | H : Plan.goal_achieved _ = _ |- _ => rewrite H
         end;
  simpl;
  repeat (split; [solve [auto] |]);
  eexists; split; [reflexivity |]; simpl; unfold cycle_ok, make_cycle;
  repeat split; eauto 10.

Section BodySpec.
Context {World : Type} (env : Env World) {cls : AgentClass World}.
Implicit Types (s : St World).

Lemma loop_body_spec goal trace_id i s :
  post (loop_body env goal trace_id (i + 1)) s (body_post env i s).
Proof.
  unfold loop_body, create_span, _create_plan, call_llm.
  mstep. mextern; [| body_leaf (@nil pyval)].
  mstep. mstep. mstep. cbn beta iota. mstep. mextern;
    [| body_leaf (@nil pyval)].
  mstep. destruct (Plan_new env v0) as [plan | e] eqn:Eplan; cbn beta iota;
    [| body_leaf (@nil pyval)].
  memit.
  destruct (Plan.goal_achieved plan) eqn:Eachieved.
  { mstep. body_leaf (@nil pyval). }
  unfold _decide_action, _reflect_on_result, update_span, call_llm.
  mstep. mstep. mstep. cbn beta iota. mstep. mextern;
    [| body_leaf (@nil pyval)].
  mstep. destruct (Action_new env v1) as [action | e]; cbn beta iota;
    [| body_leaf (@nil pyval)].
  memit.
  eapply post_bind, post_mono; [apply execute_action_spec |].
  intros ? ? tl ([result ->] & Htl & wx & ->); cbn beta iota.
  memit.
  mstep. mstep. mstep. cbn beta iota. mstep. mextern;
    [| destruct Htl as [-> | (? & ? & ? & ->)]; body_leaf (@nil pyval)].
  mstep. destruct (Reflection_new env v2) as [reflection | e]; cbn beta iota;
    [| destruct Htl as [-> | (? & ? & ? & ->)]; body_leaf (@nil pyval)].
  memit. mstep. mstep. mstep. mstep. cbn beta iota. mstep. mextern.
  - mstep. mstep. cbn beta iota. mstep.
    destruct Htl as [-> | (? & ? & ? & ->)]; body_leaf_cycle.
  - destruct Htl as [-> | (? & ? & ? & ->)]; body_leaf_cycle.
Qed.
End BodySpec.

(** ** The log of a sequence *)

Lemma failures_app l1 l2 : failures (l1 ++ l2) = failures l1 ++ failures l2.
Proof. apply flat_map_app. Qed.

Lemma llm_calls_app l1 l2 : llm_calls (l1 ++ l2) = llm_calls l1 ++ llm_calls l2.
Proof. apply flat_map_app. Qed.

Lemma calls_app n l1 l2 : calls n (l1 ++ l2) = (calls n l1 + calls n l2)%nat.
Proof.
  unfold calls. now rewrite llm_calls_app, filter_app, length_app.
Qed.

Lemma statuses_app l1 l2 : statuses (l1 ++ l2) = statuses l1 ++ statuses l2.
Proof. apply flat_map_app. Qed.

Lemma emitted_app t l1 l2 : emitted t (l1 ++ l2) = emitted t l1 ++ emitted t l2.
Proof. apply flat_map_app. Qed.

Lemma tool_runs_app l1 l2 : tool_runs (l1 ++ l2) = tool_runs l1 ++ tool_runs l2.
Proof. apply flat_map_app. Qed.

Lemma executed_results_app l1 l2 :
  executed_results (l1 ++ l2) = executed_results l1 ++ executed_results l2.
Proof. unfold executed_results. now rewrite emitted_app, flat_map_app. Qed.

Lemma reflected_results_app l1 l2 :
  reflected_results (l1 ++ l2)
  = reflected_results l1 ++ reflected_results l2.
Proof. apply flat_map_app. Qed.

Lemma plan_flags_app {World} (env : Env World) l1 l2 :
  plan_flags env (l1 ++ l2) = plan_flags env l1 ++ plan_flags env l2.
Proof. apply flat_map_app. Qed.

Lemma times_S {A} n (block : list A) :
  times (S n) block = block ++ times n block.
Proof. reflexivity. Qed.

Lemma length_times {A} n (block : list A) :
  length (times n block) = (n * length block)%nat.
Proof.
  induction n as [| n IH]; [reflexivity |].
  rewrite times_S, length_app, IH. reflexivity.
Qed.

Lemma filter_times {A} (f : A -> bool) n block :
  filter f (times n block) = times n (filter f block).
Proof.
  induction n as [| n IH]; [reflexivity |].
  now rewrite !times_S, filter_app, IH.
Qed.

Lemma config_max_iterations {World} (a a' : BaseAgent World) :
  config a' = config a -> max_iterations a' = max_iterations a.
Proof. unfold config. intros H. now inversion H. Qed.

Lemma cycles_from_app i cs1 cs2 :
  cycles_from i cs1 ->
  cycles_from (i + Z.of_nat (length cs1)) cs2 ->
  cycles_from i (cs1 ++ cs2).
Proof.
  revert i. induction cs1 as [| c cs1 IH]; intros i H1 H2; simpl in *.
  - now rewrite Z.add_0_r in H2.
  - destruct H1 as [Hc H1]. split; [exact Hc |]. apply IH; [exact H1 |].
    replace (i + 1 + Z.of_nat (length cs1))
      with (i + Z.pos (Pos.of_succ_nat (length cs1))) by lia.
    exact H2.
Qed.

Create Rewrite HintDb log.
#[local] Hint Rewrite failures_app llm_calls_app calls_app statuses_app
  emitted_app tool_runs_app executed_results_app reflected_results_app
  @plan_flags_app @length_app : log.

(** ** The loop *)

Section LoopSpec.
Context {World : Type} (env : Env World) {cls : AgentClass World}.
Implicit Types (s : St World).

Lemma loop_post_done N i s : N <= i -> loop_post env N i s (Ok i) s [].
Proof.
  intros H. unfold loop_post; simpl. repeat (split; [solve [auto] |]).
  exists []. rewrite app_nil_r. simpl. repeat split; auto; try lia.
  exists false. simpl. repeat split; auto; lia.
Qed.

Lemma loop_post_break N i s s1 l1 :
  i < N ->
  body_post env i s (Ok Break) s1 l1 ->
  loop_post env N i s (Ok (i + 1)) s1 l1.
Proof.
  intros Hlt (Hc & Hg & Hf & Hr & He & Ht & cs & Hh & Hcs & -> & Hl & Hp & Hs).
  unfold loop_post. repeat (split; [solve [auto] |]).
  exists []. simpl. repeat split; auto; try lia.
  exists true. simpl. repeat split; auto; lia.
Qed.

Lemma loop_post_raise N i s e s1 l1 :
  i < N ->
  body_post env i s (Raise e) s1 l1 ->
  loop_post env N i s (Raise e) s1 l1.
Proof.
  intros Hlt (Hc & Hg & Hf & Hr & He & Ht & cs & Hh & Hcs & Hn & Hp & H1 & H2 & H3).
  unfold loop_post. repeat (split; [solve [auto] |]).
  exists cs. repeat split; auto; lia.
Qed.

Lemma loop_post_continue N i s s1 l1 r s2 l2 :
  i < N ->
  body_post env i s (Ok Continue) s1 l1 ->
  loop_post env N (i + 1) s1 r s2 l2 ->
  loop_post env N i s r s2 (l1 ++ l2).
Proof.
  intros Hlt (Hc & Hg & Hf & Hr & He & Ht & cs & Hh & Hcs & Hn & Hl & Hp & Hs).
  intros (Hc' & Hg' & Hf' & Hr' & He' & Ht' & cs' & Hh' & Hcs' & Hn' & Hcase).
  assert (Hd : calls "decide" l1 = 1%nat) by (unfold calls; now rewrite Hl).
  assert (Hpl : calls "plan" l1 = 1%nat) by (unfold calls; now rewrite Hl).
  assert (Hrf : calls "reflect" l1 = 1%nat) by (unfold calls; now rewrite Hl).
  unfold loop_post. autorewrite with log.
  split; [congruence |]. split; [congruence |].
  split; [now rewrite Hf, Hf' |]. split; [congruence |].
  split; [now rewrite He, He' |]. split; [lia |].
  exists (cs ++ cs'). rewrite length_app, Hn.
  split; [now rewrite Hh', Hh, app_assoc |].
  split; [apply cycles_from_app; [exact Hcs | now rewrite Hn] |].
  split; [lia |].
  destruct r as [j | e].
  - destruct Hcase as (brk & Hl' & Hp' & Hs' & Hj & Hb).
    exists brk. rewrite Hl, Hl', Hp, Hp', Hs, Hs'.
    repeat split; auto; try lia.
  - destruct Hcase as (Hp' & H1 & H2 & H3).
    rewrite Hp, Hp', Hpl, Hd, Hrf. simpl length. rewrite repeat_length.
    repeat split; auto; lia.
Qed.

Lemma while_loop_spec fuel goal trace_id : forall i s,
  max_iterations (self s) - i <= Z.of_nat fuel ->
  post (while_loop env fuel goal trace_id i) s
       (loop_post env (max_iterations (self s)) i s).
Proof.
  induction fuel as [| fuel IH]; intros i s Hfuel; simpl; mstep; mstep; simpl.
  - destruct (i <? max_iterations (self s)) eqn:Hlt.
    + apply Z.ltb_lt in Hlt. lia.
    + apply Z.ltb_ge in Hlt. mstep. now apply loop_post_done.
  - destruct (i <? max_iterations (self s)) eqn:Hlt.
    + apply Z.ltb_lt in Hlt.
      eapply post_bind, post_mono; [apply loop_body_spec |].
      intros [[|] | e] s1 l1 Hbody; cbn beta iota.
      * assert (HN : max_iterations (self s1) = max_iterations (self s))
          by (apply config_max_iterations, Hbody).
        eapply post_mono; [apply IH; lia |].
        intros r s2 l2 Hloop. rewrite HN in Hloop.
        now apply loop_post_continue with s1.
      * mstep. rewrite app_nil_r. now apply loop_post_break.
      * now apply loop_post_raise.
    + apply Z.ltb_ge in Hlt. mstep. now apply loop_post_done.
Qed.
End LoopSpec.

(** ** [process] as a whole *)

Ltac use_loop_facts :=
  repeat match goal with
         | H : execution_history _ = _ |- _ => rewrite H
         | H : failures _ = _ |- _ => rewrite H
         | H : reflected_results _ = _ |- _ => rewrite H
         | H : calls _ _ = _ |- _ => rewrite H
         | H : config _ = _ |- _ => rewrite H
         | H : current_goal _ = _ |- _ => rewrite H
         | H : llm_calls _ = _ |- _ => rewrite H
         | H : plan_flags _ _ = _ |- _ => rewrite H
         | H : statuses _ = _ |- _ => rewrite H
         | H : emitted _ _ = _ |- _ => rewrite H
         | H : output_schema _ = _ |- _ => rewrite H
         end.

Ltac process_side :=
  autorewrite with log; use_loop_facts; unfold calls; simpl;
  rewrite ?app_nil_r;
  solve [ auto | lia
        | match goal with b : bool |- _ => destruct b; simpl in *; lia end ].

Ltac process_leaf brk j fc fs :=
  unfold process_post; cbn [self world];
  repeat (split; [process_side |]);
  right; exists brk, j; unfold finalizing; exists fc, fs;
  autorewrite with log; use_loop_facts; simpl;
  rewrite ?app_nil_r, <- ?app_assoc.

Ltac process_fin :=
  repeat split;
  try solve [ auto | congruence | lia | intros; congruence
            | match goal with
              | b : bool |- _ => destruct b; simpl in *; lia
              end
            | eexists; repeat split; eauto; intros; congruence ].

(** The closing message of [process]: nothing, or one more call of the
    goal predicate, whose value [E] records. *)
Ltac closing_message E tac :=
  mstep; mstep; mstep; cbn beta iota; cbn [self world];
  match goal with
  | |- context [verbose ?a] => destruct (verbose a)
  end;
  [ match goal with
    | |- context [has_key ?k ?v] => destruct (has_key k v)
    end;
    [ mstep; mstep; tac
    | mstep; mstep;
      repeat match goal with
             | H : execution_history _ = _ |- _ => rewrite H
             end;
      rewrite E; cbn beta iota; mstep; mstep; tac ]
  | mstep; mstep; tac ].

Section ProcessSpec.
Context {World : Type} (env : Env World) {cls : AgentClass World}.
Implicit Types (s : St World).

Lemma calls_of_loop l n (brk : bool) :
  llm_calls l = times n cycle_calls ++ (if brk then ["plan"] else []) ->
  calls "plan" l = (n + if brk then 1 else 0)%nat /\
  calls "decide" l = n /\ calls "reflect" l = n.
Proof.
  intros H. unfold calls.
  rewrite H, !filter_app, !filter_times, !length_app, !length_times.
  destruct brk; simpl; lia.
Qed.

Lemma process_spec goal s :
  post (process env goal) s (process_post env goal s).
Proof.
  unfold process, start_trace, create_span, _generate_final_result,
    update_span, call_llm.
  mstep. mstep. mstep. mstep. mstep. mstep. cbn beta iota. cbn [self world].
  mstep. mextern.
  2:{ unfold process_post, calls; simpl. repeat split; auto; try lia.
      left. eauto. }
  memit. mstep.
  eapply post_mono; [apply while_loop_spec; simpl; lia |].
  intros r1 s1 l1 Hloop. simpl in Hloop.
  destruct Hloop as (Hc & Hg & Hf & Hr & He & Ht & cs & Hh & Hcs & Hn & Hcase).
  simpl in Hh.
  destruct r1 as [j | e].
  2:{ destruct Hcase as (Hp & H1 & H2 & H3).
      unfold process_post. autorewrite with log. simpl.
      rewrite Hh, Hf, Hc, Hg, <- Hr, Hp, repeat_length. simpl.
      repeat split; auto; try lia.
      left. eauto. }
  destruct Hcase as (brk & Hl & Hp & Hs & Hj & Hb).
  destruct (calls_of_loop _ _ _ Hl) as (Hcp & Hcd & Hcr).
  rewrite Hcd in Ht.
  assert (Hc' : config (self s1) = config (self s)) by exact Hc.
  assert (Hg' : current_goal (self s1) = Some goal) by exact Hg.
  assert (Hsch : output_schema (self s1) = output_schema (self s))
    by (unfold config in Hc'; now inversion Hc').
  clear Hc Hg.
  mstep. mstep. cbn beta iota. mstep. mstep. mstep. cbn beta iota.
  rewrite Hh.
  destruct (output_schema (self s1)) as [schema |] eqn:Eschema.
  - mstep. mstep.
    destruct (is_goal_achieved_method goal cs) as [achieved | e] eqn:Epred;
      cbn beta iota.
    + mextern.
      * mstep. mstep. cbn beta iota. cbn [self world]. mstep. mstep.
        rewrite Hh, Epred. cbn beta iota. memit. mstep. mextern.
        -- closing_message Epred
             ltac:(process_leaf brk j ["generate_final_result"]
                     ["goal_completed"]; process_fin).
        -- process_leaf brk j ["generate_final_result"] ["goal_completed"].
           process_fin.
      * process_leaf brk j ["generate_final_result"] (@nil string).
        process_fin.
    + process_leaf brk j (@nil string) (@nil string). process_fin.
  - mstep. mstep.
    destruct (is_goal_achieved_method goal cs) as [achieved | e] eqn:Epred;
      cbn beta iota.
    + mstep. mstep. mstep. cbn beta iota. cbn [self world]. mstep. mstep.
      rewrite Hh, Epred. cbn beta iota. memit. mstep. mextern.
      * closing_message Epred
          ltac:(process_leaf brk j (@nil string) ["goal_completed"];
                process_fin).
      * process_leaf brk j (@nil string) ["goal_completed"].
        process_fin.
    + process_leaf brk j (@nil string) (@nil string). process_fin.
Qed.
End ProcessSpec.

(** ** The tool registry *)

Section RegistryFacts.
Context {World : Type}.
Implicit Types (a : BaseAgent World) (t tool : Tool.t World).

Lemma find_tool_some n (ts : list (Tool.t World)) t :
  find_tool n ts = Some t <->
  exists before after,
    ts = before ++ t :: after /\ Tool.name t = n /\
    forall t', In t' before -> Tool.name t' <> n.
Proof.
  induction ts as [| t0 ts IH]; simpl.
  - split; [discriminate |]. intros ([| ? ?] & after & H & _); discriminate.
  - destruct (String.eqb (Tool.name t0) n) eqn:E.
    + apply String.eqb_eq in E. split.
      * intros [= <-]. exists [], ts. simpl. repeat split; auto.
      * intros ([| t1 before] & after & H & Hn & Hb); simpl in H.
        -- now inversion H.
        -- inversion H; subst t1. exfalso. apply (Hb t0); simpl; auto.
    + apply String.eqb_neq in E. rewrite IH. split.
      * intros (before & after & -> & Hn & Hb).
        exists (t0 :: before), after. simpl. repeat split; auto.
        intros t' [<- | Hin]; auto.
      * intros ([| t1 before] & after & H & Hn & Hb); simpl in H.
        -- inversion H; subst. contradiction.
        -- inversion H; subst. exists before, after.
           repeat split; auto. intros t' Hin. apply Hb. simpl; auto.
Qed.

Lemma find_tool_none n (ts : list (Tool.t World)) :
  find_tool n ts = None <-> forall t, In t ts -> Tool.name t <> n.
Proof.
  induction ts as [| t0 ts IH]; simpl.
  - split; auto.
  - destruct (String.eqb (Tool.name t0) n) eqn:E.
    + apply String.eqb_eq in E. split; [discriminate |].
      intros H. exfalso. apply (H t0); auto.
    + apply String.eqb_neq in E. rewrite IH. split.
      * intros H t [<- | Hin]; auto.
      * intros H t Hin. apply H. auto.
Qed.

Lemma find_tool_filter_other n n' (ts : list (Tool.t World)) :
  n' <> n ->
  find_tool n' (filter (fun t => negb (String.eqb (Tool.name t) n)) ts)
  = find_tool n' ts.
Proof.
  intros Hne. induction ts as [| t0 ts IH]; simpl; [reflexivity |].
  destruct (String.eqb (Tool.name t0) n) eqn:E; simpl.
  - apply String.eqb_eq in E.
    destruct (String.eqb (Tool.name t0) n') eqn:E'; [| exact IH].
    apply String.eqb_eq in E'. congruence.
  - now rewrite IH.
Qed.

(** C7. The tool registry: [add_tool] appends at the end, keeping the
    order of the tools already there and whatever their names are (so
    duplicates are allowed); [get_tool] gives the first tool, in insertion
    order, whose name is exactly the requested string, and nothing when no
    tool has that name; [remove_tool] removes every tool of that name and
    keeps the others, in order. *)
Theorem tool_registry_operations a tool n :
  tools (add_tool tool a) = tools a ++ [tool] /\
  list_tools (add_tool tool a) = list_tools a ++ [Tool.name tool] /\
  (forall t,
     get_tool n a = Some t <->
     exists before after,
       tools a = before ++ t :: after /\ Tool.name t = n /\
       forall t', In t' before -> Tool.name t' <> n) /\
  (get_tool n a = None <-> forall t, In t (tools a) -> Tool.name t <> n) /\
  (forall t, In t (tools (remove_tool n a)) <->
             In t (tools a) /\ Tool.name t <> n) /\
  (exists kept, tools (remove_tool n a) = kept /\
     kept = filter (fun t => negb (String.eqb (Tool.name t) n)) (tools a)) /\
  get_tool n (remove_tool n a) = None /\
  (forall n', n' <> n -> get_tool n' (remove_tool n a) = get_tool n' a).
Proof.
  repeat split.
  - unfold list_tools. simpl. now rewrite map_app.
  - apply find_tool_some.
  - apply find_tool_some.
  - apply find_tool_none.
  - apply find_tool_none.
  - simpl in H. apply filter_In in H. apply H.
  - simpl in H. apply filter_In in H. destruct H as [_ H].
    apply negb_true_iff, String.eqb_neq in H. exact H.
  - intros [Hin Hne]. simpl. apply filter_In. split; [exact Hin |].
    now apply negb_true_iff, String.eqb_neq.
  - eexists. split; reflexivity.
  - apply find_tool_none. intros t Hin. simpl in Hin.
    apply filter_In in Hin. destruct Hin as [_ H].
    now apply negb_true_iff, String.eqb_neq in H.
  - intros n' Hne. unfold get_tool. simpl.
    now apply find_tool_filter_other.
Qed.
End RegistryFacts.

(** ** The Execute step *)

Section ExecuteFacts.
Context {World : Type} (env : Env World) {cls : AgentClass World}.
Implicit Types (s : St World).

(** C10. An action whose [tool_name] is [direct_response] gives the
    successful [direct_response] result whatever the registry holds, also
    when a tool of that very name is registered: the agent and the world
    are left as they were and nothing is logged, so no tool ran. *)
Theorem direct_response_bypasses_registry (action : Action.t) s :
  Action.tool_name action = "direct_response" ->
  _execute_action action s
  = (Ok (PDict [("type", PStr "direct_response");
                ("result",
                 PStr "Task completed directly without tool usage");
                ("success", PBool true)]),
     s, []).
Proof.
  intros H. unfold _execute_action. now rewrite H.
Qed.

Lemma execute_missing_tool (action : Action.t) s :
  Action.tool_name action <> "direct_response" ->
  get_tool (Action.tool_name action) (self s) = None ->
  _execute_action action s
  = (Ok (PDict [("type", PStr "error");
                ("result",
                 PStr ("Tool '" ++ Action.tool_name action
                       ++ "' not found")%string);
                ("success", PBool false)]),
     s, []).
Proof.
  intros Hn Hg. apply String.eqb_neq in Hn.
  unfold _execute_action. rewrite Hn.
  unfold bind, get_self. simpl. now rewrite Hg.
Qed.

Lemma execute_raising_tool (action : Action.t) s tool e w :
  Action.tool_name action <> "direct_response" ->
  get_tool (Action.tool_name action) (self s) = Some tool ->
  Tool.execute tool (Action.tool_parameters action) (world s)
  = (Raise e, w) ->
  _execute_action action s
  = (Ok (PDict [("type", PStr "error");
                ("tool_name", PStr (Action.tool_name action));
                ("parameters", PDict (Action.tool_parameters action));
                ("result",
                 PStr ("Error executing tool: " ++ exc_str e)%string);
                ("success", PBool false)]),
     {| self := self s; world := w |},
     [EvTool (Tool.name tool) (Action.tool_parameters action) (Raise e)]).
Proof.
  intros Hn Hg Hx. apply String.eqb_neq in Hn.
  unfold _execute_action. rewrite Hn.
  unfold bind, get_self, try_except, extern, ret. simpl.
  now rewrite Hg, Hx.
Qed.
End ExecuteFacts.

(** ** Consequences for a run of [process] *)

Lemma nth_error_repeat_false n k : nth_error (repeat false n) k <> Some true.
Proof.
  revert k. induction n as [| n IH]; intros [| k]; simpl; try discriminate.
  apply IH.
Qed.

Lemma nth_error_flags n (brk : bool) k :
  nth_error (repeat false n ++ (if brk then [true] else [])) k = Some true ->
  brk = true /\ k = n.
Proof.
  intros H. destruct (Nat.lt_ge_cases k n) as [Hlt | Hge].
  - rewrite nth_error_app1 in H by now rewrite repeat_length.
    now apply nth_error_repeat_false in H.
  - rewrite nth_error_app2 in H by now rewrite repeat_length.
    rewrite repeat_length in H. destruct brk.
    + split; [reflexivity |].
      destruct (k - n)%nat as [| [| m]] eqn:E; simpl in H;
        try discriminate. lia.
    + destruct (k - n)%nat; discriminate.
Qed.

Lemma existsb_flags n (brk : bool) :
  existsb (fun b => b) (repeat false n ++ (if brk then [true] else [])) = brk.
Proof.
  rewrite existsb_app.
  replace (existsb (fun b => b) (repeat false n)) with false
    by (induction n; simpl; auto).
  now destruct brk.
Qed.

Lemma calls_of_run l n (brk : bool) fin_calls :
  llm_calls l = times n cycle_calls ++ (if brk then ["plan"] else [])
                ++ fin_calls ->
  fin_calls = [] \/ fin_calls = ["generate_final_result"] ->
  calls "plan" l = (n + if brk then 1 else 0)%nat /\
  calls "decide" l = n /\ calls "reflect" l = n /\
  (forall name, In name (llm_calls l) ->
                In name cycle_calls \/ In name fin_calls).
Proof.
  intros H Hfin. unfold calls.
  rewrite H, !filter_app, !filter_times, !length_app, !length_times.
  repeat split.
  - destruct brk, Hfin as [-> | ->]; simpl; lia.
  - destruct brk, Hfin as [-> | ->]; simpl; lia.
  - destruct brk, Hfin as [-> | ->]; simpl; lia.
  - intros name Hin. rewrite !in_app_iff in Hin.
    destruct Hin as [Hin | [Hin | Hin]]; auto.
    + left. clear H. induction n as [| n IH]; [destruct Hin |].
      rewrite times_S, in_app_iff in Hin. destruct Hin; auto.
    + left. destruct brk; [| destruct Hin].
      destruct Hin as [<- | []]. simpl; auto.
Qed.

Section ProcessFacts.
Context {World : Type} (env : Env World) {cls : AgentClass World}.
Implicit Types (s : St World).

Lemma process_facts goal s :
  process_post env goal s
    (result_of (process env goal s)) (state_of (process env goal s))
    (log_of (process env goal s)).
Proof. exact (process_spec env goal s). Qed.

(** A run that is not cut short by a failure gives a result. *)
Lemma process_returns goal s :
  failures (log_of (process env goal s)) = [] ->
  exists v, result_of (process env goal s) = Ok v.
Proof.
  intros H. destruct (process_facts goal s) as (_ & _ & Hf & _).
  rewrite H in Hf. destruct (result_of (process env goal s)) as [v | e].
  - now exists v.
  - discriminate.
Qed.

(** A run that returns went through final-result generation. *)
Lemma process_ok_finalizing goal s v :
  result_of (process env goal s) = Ok v ->
  exists brk j,
    finalizing env goal (self s)
      (execution_history (self (state_of (process env goal s))))
      (Ok v) (log_of (process env goal s)) brk j.
Proof.
  intros H. destruct (process_facts goal s) as (_ & _ & _ & _ & _ & _ & _ & _ & _ & _ & Hcase).
  rewrite H in Hcase. destruct Hcase as [(e & He & _) | Hfin].
  - discriminate.
  - exact Hfin.
Qed.

(** A Plan that reports the goal achieved is the last one and ends the
    loop. *)
Lemma process_early_stop goal s k :
  nth_error (plan_flags env (log_of (process env goal s))) k = Some true ->
  length (execution_history (self (state_of (process env goal s)))) = k /\
  exists j,
    finalizing env goal (self s)
      (execution_history (self (state_of (process env goal s))))
      (result_of (process env goal s)) (log_of (process env goal s))
      true j.
Proof.
  intros H. destruct (process_facts goal s) as (_ & _ & _ & _ & _ & _ & _ & _ & _ & _ & Hcase).
  destruct Hcase as [(e & He & Hfl) | (brk & j & Hfin)].
  - rewrite Hfl in H. now apply nth_error_repeat_false in H.
  - pose proof Hfin as (fc & fs & _ & Hp & _).
    rewrite Hp in H. apply nth_error_flags in H. destruct H as [-> ->].
    split; [reflexivity |]. now exists j.
Qed.
End ProcessFacts.

Section IterationBudget.
Context {World : Type} (env : Env World) {cls : AgentClass World}.
Implicit Types (s : St World).

(** C1. With [max_iterations = N], a run of [process] records at most [N]
    cycles and makes at most [N] Plan, Decide-Action and Reflect calls
    (none when [N] is negative).  If the Plan call of iteration [k + 1]
    is the one that reports [goal_achieved] (the flags of the Plan calls
    are counted from 0), then no earlier Plan did, [k + 1 <= N], exactly
    [k + 1] Plan calls are made, exactly [k] cycles are recorded, and
    Decide-Action, Execute and Reflect ran [k] times each, all of them
    before that Plan: after its [plan_created] event the only event that
    may follow is [goal_completed]. *)
Theorem process_iteration_budget goal s :
  let o := process env goal s in
  let N := max_iterations (self s) in
  let h := execution_history (self (state_of o)) in
  let l := log_of o in
  Z.of_nat (length h) <= Z.max 0 N /\
  Z.of_nat (calls "plan" l) <= Z.max 0 N /\
  Z.of_nat (calls "decide" l) <= Z.max 0 N /\
  Z.of_nat (calls "reflect" l) <= Z.max 0 N /\
  forall k,
    nth_error (plan_flags env l) k = Some true ->
    Z.of_nat (S k) <= N /\
    plan_flags env l = repeat false k ++ [true] /\
    calls "plan" l = S k /\
    length h = k /\
    calls "decide" l = k /\
    calls "reflect" l = k /\
    (length (tool_runs l) <= k)%nat /\
    exists fin,
      statuses l
      = "goal_start" :: times k cycle_statuses ++ "plan_created" :: fin /\
      (fin = [] \/ fin = ["goal_completed"]).
Proof.
  intros o N h l.
  pose proof (process_facts env goal s) as
    (_ & _ & _ & _ & Ht & _ & Hh & Hpl & Hd & Hrf & _).
  fold o in Ht, Hh, Hpl, Hd, Hrf. fold h in Hh. fold l in Ht, Hpl, Hd, Hrf.
  repeat (split; [assumption |]).
  intros k Hk. destruct (process_early_stop env goal s k Hk) as (Hlen & j & Hfin).
  fold o in Hlen, Hfin. fold h in Hlen, Hfin. fold l in Hfin.
  destruct Hfin as (fc & fs & Hl & Hp & Hs & Hj & Hb & _ & Hfc & Hfs & _).
  rewrite Hlen in *.
  destruct (calls_of_run l k true fc Hl Hfc) as (Hcp & Hcd & Hcr & _).
  rewrite Hcd in Ht.
  repeat split; try assumption; try lia.
  exists fs. split; [exact Hs | exact Hfs].
Qed.
End IterationBudget.

(** The stub model reports the goal achieved on its second plan: two
    plans, one recorded cycle. *)
Lemma process_iteration_budget_witness :
  let o := process (Demo.env 1 "add") "3+4"
             (Demo.start (Demo.agent 10 None None [Demo.add])) in
  calls "plan" (log_of o) = 2%nat /\
  length (execution_history (self (state_of o))) = 1%nat.
Proof.
  intros o.
  destruct (process_iteration_budget (Demo.env 1 "add") "3+4"
              (Demo.start (Demo.agent 10 None None [Demo.add])))
    as (_ & _ & _ & _ & H).
  destruct (H 1%nat) as (_ & _ & Hp & Hh & _).
  - vm_compute. reflexivity.
  - split; [exact Hp | exact Hh].
Defined.

(** ** The recorded history *)

Lemma cycles_from_iterations i cs :
  cycles_from i cs ->
  map cycle_iteration cs
  = map (fun n => Some (PInt (i + Z.of_nat n))) (seq 1 (length cs)).
Proof.
  revert i. induction cs as [| c cs IH]; intros i H; [reflexivity |].
  destruct H as [(plan & action & res & rf & ts & ->) H]. simpl.
  f_equal. rewrite (IH _ H), <- (seq_shift (length cs) 1), map_map.
  apply map_ext. intros n. do 2 f_equal. lia.
Qed.

Section History.
Context {World : Type} (env : Env World) {cls : AgentClass World}.
Implicit Types (s : St World).

Lemma loop_body_extends goal trace_id i s :
  exists cs,
    execution_history (self (state_of (loop_body env goal trace_id i s)))
    = execution_history (self s) ++ cs /\ (length cs <= 1)%nat.
Proof.
  replace i with (i - 1 + 1) by lia.
  destruct (loop_body_spec env goal trace_id (i - 1) s)
    as (_ & _ & _ & _ & _ & _ & cs & Hh & _ & Hcase).
  exists cs. split; [exact Hh |].
  destruct (result_of _) as [[|] | e].
  - destruct Hcase as (Hn & _). lia.
  - destruct Hcase as (-> & _). simpl. lia.
  - destruct Hcase as (Hn & _). exact Hn.
Qed.

Lemma while_loop_extends fuel goal trace_id : forall i s,
  post (while_loop env fuel goal trace_id i) s
       (fun _ s' _ =>
          exists cs,
            execution_history (self s') = execution_history (self s) ++ cs).
Proof.
  induction fuel as [| fuel IH]; intros i s; simpl; mstep; mstep; simpl.
  - destruct (i <? max_iterations (self s)).
    + mstep. exists []. now rewrite app_nil_r.
    + mstep. exists []. now rewrite app_nil_r.
  - destruct (i <? max_iterations (self s)).
    + eapply post_bind, post_mono; [apply loop_body_spec |].
      intros r s1 l1 (_ & _ & _ & _ & _ & _ & cs & Hh & _).
      destruct r as [[|] | e].
      * eapply post_mono; [apply IH |]. intros _ s2 _ [cs' Hh'].
        exists (cs ++ cs'). now rewrite Hh', Hh, app_assoc.
      * mstep. now exists cs.
      * now exists cs.
    + mstep. exists []. now rewrite app_nil_r.
Qed.

End History.

(** ** Final-result generation *)

Section FinalResult.
Context {World : Type} (env : Env World) {cls : AgentClass World}.
Implicit Types (s : St World).

(** C4. With [max_iterations = 0] the loop body never runs: no Plan,
    Decide-Action or Reflect call is made, no tool is executed and the
    history stays empty.  The run goes from [goal_start] straight to
    final-result generation, which is given the empty history and reports
    0 iterations; it returns unless the opening of the trace or
    final-result generation itself fails. *)
Theorem zero_iterations goal s :
  max_iterations (self s) = 0 ->
  let o := process env goal s in
  let l := log_of o in
  execution_history (self (state_of o)) = [] /\
  calls "plan" l = 0%nat /\ calls "decide" l = 0%nat /\
  calls "reflect" l = 0%nat /\ tool_runs l = [] /\
  (failures l = [] -> exists v, result_of o = Ok v) /\
  forall v,
    result_of o = Ok v ->
    statuses l = ["goal_start"; "goal_completed"] /\
    exists achieved,
      is_goal_achieved_method goal [] = Ok achieved /\
      emitted "goal_completed" l = [completion_payload goal achieved 0 v] /\
      (output_schema (self s) = None ->
       llm_calls l = [] /\
       v = PDict [("goal", PStr goal); ("achieved", achieved);
                  ("iterations", PInt 0); ("execution_history", PList [])]).
Proof.
  intros HN o l.
  pose proof (process_facts env goal s) as
    (_ & _ & _ & _ & Ht & _ & Hh & Hpl & Hd & Hrf & _).
  fold o in Ht, Hh, Hpl, Hd, Hrf. fold l in Ht, Hpl, Hd, Hrf.
  rewrite HN in *.
  assert (Hnil : execution_history (self (state_of o)) = []).
  { destruct (execution_history (self (state_of o))); [reflexivity |].
    simpl in Hh. lia. }
  split; [exact Hnil |].
  split; [lia |]. split; [lia |]. split; [lia |].
  split.
  { destruct (tool_runs l); [reflexivity | simpl in Ht; lia]. }
  split; [apply process_returns |].
  intros v Hv.
  destruct (process_ok_finalizing env goal s v Hv) as (brk & j & Hfin).
  fold o in Hfin. fold l in Hfin. rewrite Hnil in Hfin.
  destruct Hfin as (fc & fs & Hl & Hp & Hs & Hj & Hb & Hnone & Hfc & Hfs
                    & -> & Hsome & achieved & Hach & Hem & Hdef).
  simpl in *. destruct brk; [lia |]. simpl in *. subst j.
  split; [exact Hs |].
  exists achieved. repeat split; auto.
  rewrite Hl. now apply Hnone.
Qed.

(** C6. Without an output schema, what [process] returns is the
    dictionary with the keys [goal], [achieved], [iterations],
    [execution_history], in this order: the goal it was given, the value
    of the goal predicate on the final history, the number of recorded
    cycles, and the recorded history itself.  No model call is made to
    build it: the only model calls of the run are the Plan, Decide-Action
    and Reflect calls of the loop, and [_generate_final_result] itself
    calls nothing but the goal predicate. *)
Theorem default_final_result goal s :
  output_schema (self s) = None ->
  let o := process env goal s in
  let h := execution_history (self (state_of o)) in
  (forall v,
     result_of o = Ok v ->
     exists achieved,
       is_goal_achieved_method goal h = Ok achieved /\
       v = PDict [("goal", PStr goal);
                  ("achieved", achieved);
                  ("iterations", PInt (Z.of_nat (length h)));
                  ("execution_history", PList h)] /\
       calls "generate_final_result" (log_of o) = 0%nat /\
       forall name, In name (llm_calls (log_of o)) -> In name cycle_calls) /\
  (forall hist parent_span_id,
     log_of (_generate_final_result env goal hist parent_span_id s)
     = [EvPredicate goal hist (is_goal_achieved_method goal hist)] /\
     state_of (_generate_final_result env goal hist parent_span_id s) = s).
Proof.
  intros Hnone o h. split.
  - intros v Hv.
    destruct (process_ok_finalizing env goal s v Hv) as (brk & j & Hfin).
    fold o in Hfin. fold h in Hfin.
    destruct Hfin as (fc & fs & Hl & _ & _ & _ & _ & Hfc0 & Hfc & _
                      & _ & _ & achieved & Hach & _ & Hdef).
    specialize (Hfc0 Hnone). subst fc.
    exists achieved. split; [exact Hach |]. split; [now apply Hdef |].
    destruct (calls_of_run _ (length h) brk [] Hl (or_introl eq_refl))
      as (_ & _ & _ & Hin).
    split.
    + unfold calls. rewrite Hl, !filter_app, filter_times, !length_app,
        length_times. destruct brk; simpl; lia.
    + intros name Hname. destruct (Hin name Hname) as [H | []]. exact H.
  - intros hist parent_span_id.
    unfold _generate_final_result, bind, get_self, call_is_goal_achieved,
      ret, log_of, state_of. simpl. rewrite Hnone.
    destruct (is_goal_achieved_method goal hist); simpl; auto.
Qed.

(** C9. Without an output schema, in a run that returns, the
    [goal_completed] event carries the loop counter under [iterations]
    while the returned dictionary carries the number of recorded cycles.
    If a Plan reported [goal_achieved] (the loop stopped early, on
    iteration [k >= 1]), the event says [k], which is the number of Plan
    calls, and the result says [k - 1].  Otherwise the loop ran out of
    iterations and the two numbers are equal. *)
Theorem iterations_reported_twice goal s v :
  output_schema (self s) = None ->
  let o := process env goal s in
  let l := log_of o in
  let h := execution_history (self (state_of o)) in
  result_of o = Ok v ->
  exists payload k,
    emitted "goal_completed" l = [payload] /\
    dict_get "iterations"
      (match payload with PDict d => d | _ => [] end) = Some (PInt k) /\
    dict_get "final_result"
      (match payload with PDict d => d | _ => [] end) = Some v /\
    dict_get "iterations" (match v with PDict d => d | _ => [] end)
    = Some (PInt (Z.of_nat (length h))) /\
    if existsb (fun b => b) (plan_flags env l)
    then 1 <= k /\ k = Z.of_nat (calls "plan" l) /\
         Z.of_nat (length h) = k - 1
    else k = Z.of_nat (length h) /\ k = Z.max 0 (max_iterations (self s)).
Proof.
  intros Hnone o l h Hv.
  destruct (process_ok_finalizing env goal s v Hv) as (brk & j & Hfin).
  fold o in Hfin. fold h in Hfin. fold l in Hfin.
  destruct Hfin as (fc & fs & Hl & Hp & _ & Hj & Hb & _ & Hfc & _
                    & _ & _ & achieved & Hach & Hem & Hdef).
  exists (completion_payload goal achieved j v), j.
  split; [exact Hem |]. split; [reflexivity |]. split; [reflexivity |].
  split; [rewrite (Hdef Hnone); reflexivity |].
  rewrite Hp, existsb_flags.
  destruct (calls_of_run l (length h) brk fc Hl Hfc) as (Hcp & _).
  destruct brk; lia.
Qed.
End FinalResult.

(** ** [process] in two phases *)

Section Split.
Context {World : Type}.

Lemma eqm_refl {A} (m : M World A) : eqm m m.
Proof. intros s. reflexivity. Qed.

Lemma eqm_sym {A} (m1 m2 : M World A) : eqm m1 m2 -> eqm m2 m1.
Proof. intros H s. now rewrite H. Qed.

Lemma eqm_trans {A} (m1 m2 m3 : M World A) :
  eqm m1 m2 -> eqm m2 m3 -> eqm m1 m3.
Proof. intros H1 H2 s. now rewrite H1, H2. Qed.

Lemma eqm_bind {A B} (m : M World A) (f g : A -> M World B) :
  (forall a, eqm (f a) (g a)) -> eqm (bind m f) (bind m g).
Proof.
  intros H s. unfold bind. destruct (m s) as [[[a | e] s1] l1]; auto.
  now rewrite H.
Qed.

Lemma eqm_assoc {A B C} (m : M World A) (f : A -> M World B)
  (g : B -> M World C) :
  eqm (bind (bind m f) g) (bind m (fun a => bind (f a) g)).
Proof.
  intros s. unfold bind. destruct (m s) as [[[a | e] s1] l1]; auto.
  destruct (f a s1) as [[[b | e] s2] l2]; auto.
  destruct (g b s2) as [[r s3] l3]. now rewrite app_assoc.
Qed.

Lemma eqm_ret_bind {A B} (a : A) (f : A -> M World B) :
  eqm (bind (ret a) f) (f a).
Proof.
  intros s. unfold bind, ret. now destruct (f a s) as [[r s1] l1].
Qed.
End Split.

Ltac split_step :=
  eapply eqm_trans; [apply eqm_assoc |]; apply eqm_bind; intros ?.

Section SplitProcess.
Context {World : Type} (env : Env World) {cls : AgentClass World}.

Lemma process_split goal :
  eqm (process env goal)
      (bind (run_loop env goal)
            (fun p => finish env goal (fst p) (snd p))).
Proof.
  apply eqm_sym. unfold run_loop, process.
  do 6 split_step.
  eapply eqm_trans; [apply eqm_ret_bind |]. apply eqm_refl.
Qed.
End SplitProcess.

(** ** The goal predicate *)

Lemma is_goal_achieved_last goal h i plan action result reflection ts :
  is_goal_achieved goal
    (h ++ [make_cycle i plan action result reflection ts])
  = Ok (PBool (Reflection.action_successful reflection)).
Proof.
  unfold is_goal_achieved.
  destruct (h ++ [make_cycle i plan action result reflection ts]) eqn:E.
  - now destruct h.
  - rewrite <- E, last_last. reflexivity.
Qed.

Ltac finish_leaf :=
  unfold calls; simpl; repeat split; auto; try tauto;
  try (let d := fresh "d" in intros d [<- | []]; reflexivity).

Section GoalPredicate.
Context {World : Type} (env : Env World).
Implicit Types (s : St World).

Lemma finish_spec {cls : AgentClass World} goal trace_id iteration s :
  post (finish env goal trace_id iteration) s
       (fun r s' l =>
          self s' = self s /\ plan_flags env l = [] /\
          calls "plan" l = 0%nat /\ calls "decide" l = 0%nat /\
          calls "reflect" l = 0%nat /\ tool_runs l = [] /\
          forall d, In d (emitted "goal_completed" l) ->
                    field "iterations" d = [PInt iteration]).
Proof.
  unfold finish, _generate_final_result, update_span, call_llm.
  mstep. mstep. cbn beta iota. mstep. mstep. mstep. cbn beta iota.
  destruct (output_schema (self s)) as [schema |]; mstep; mstep;
    destruct (is_goal_achieved_method goal (execution_history (self s)))
      eqn:Epred;
    cbn beta iota; try solve [finish_leaf].
  - mextern; [| finish_leaf].
    mstep. mstep. cbn beta iota. cbn [self world]. mstep. mstep.
    rewrite Epred. cbn beta iota. memit. mstep. mextern; [| finish_leaf].
    closing_message Epred finish_leaf.
  - mstep. mstep. mstep. cbn beta iota. cbn [self world]. mstep. mstep.
    rewrite Epred. cbn beta iota. memit. mstep. mextern; [| finish_leaf].
    closing_message Epred finish_leaf.
Qed.

(** What a run of [process] owes to its loop phase alone. *)
Lemma process_after_loop {cls : AgentClass World} goal s :
  let o := process env goal s in
  let o0 := run_loop env goal s in
  execution_history (self (state_of o))
  = execution_history (self (state_of o0)) /\
  plan_flags env (log_of o) = plan_flags env (log_of o0) /\
  calls "plan" (log_of o) = calls "plan" (log_of o0) /\
  calls "decide" (log_of o) = calls "decide" (log_of o0) /\
  calls "reflect" (log_of o) = calls "reflect" (log_of o0) /\
  tool_runs (log_of o) = tool_runs (log_of o0).
Proof.
  intros o o0. subst o. rewrite (process_split env goal s).
  unfold bind. fold o0.
  destruct o0 as [[[[trace_id iteration] | e] s0] l0] eqn:E0;
    unfold result_of, state_of, log_of; simpl; [| repeat split; auto].
  pose proof (finish_spec goal trace_id iteration s0) as H.
  unfold post, result_of, state_of, log_of in H.
  destruct (finish env goal trace_id iteration s0) as [[r s1] l1].
  simpl in *. destruct H as (Hs & Hp & H1 & H2 & H3 & Ht & Hem).
  autorewrite with log. rewrite Hs, Hp, H1, H2, H3, Ht, !app_nil_r.
  repeat split; auto.
Qed.

(** C5. The default goal predicate gives [False] on the empty history
    and, on a history whose last entry is a recorded cycle, the
    [action_successful] flag of that cycle's reflection: it is true
    exactly when the history is non-empty and the last reflection was
    successful.  Whatever predicate the agent's class supplies, it has no
    part in when the loop ends: two classes that differ in their
    predicates record the same history, see the same Plan flags, make the
    same number of Plan, Decide-Action and Reflect calls and run the same
    tools, and announce the same loop counter in [goal_completed].  The
    predicate shows in the reported values and there only: what a
    returning run announces as [achieved] in [goal_completed], and what
    the default result holds under [achieved], is the value of the
    class's predicate on the goal and the recorded history. *)
Theorem goal_predicate_reports_only (cls1 cls2 : AgentClass World)
  goal s h i plan action result reflection ts :
  is_goal_achieved goal [] = Ok (PBool false) /\
  is_goal_achieved goal
    (h ++ [make_cycle i plan action result reflection ts])
  = Ok (PBool (Reflection.action_successful reflection)) /\
  let o1 := @process _ env cls1 goal s in
  let o2 := @process _ env cls2 goal s in
  execution_history (self (state_of o1))
  = execution_history (self (state_of o2)) /\
  plan_flags env (log_of o1) = plan_flags env (log_of o2) /\
  calls "plan" (log_of o1) = calls "plan" (log_of o2) /\
  calls "decide" (log_of o1) = calls "decide" (log_of o2) /\
  calls "reflect" (log_of o1) = calls "reflect" (log_of o2) /\
  tool_runs (log_of o1) = tool_runs (log_of o2) /\
  forall v1 v2,
    result_of o1 = Ok v1 -> result_of o2 = Ok v2 ->
    exists iteration achieved1 achieved2,
      @is_goal_achieved_method _ cls1 goal
        (execution_history (self (state_of o1))) = Ok achieved1 /\
      @is_goal_achieved_method _ cls2 goal
        (execution_history (self (state_of o2))) = Ok achieved2 /\
      emitted "goal_completed" (log_of o1)
      = [PDict [("goal", PStr goal); ("achieved", achieved1);
                ("iterations", PInt iteration); ("final_result", v1)]] /\
      emitted "goal_completed" (log_of o2)
      = [PDict [("goal", PStr goal); ("achieved", achieved2);
                ("iterations", PInt iteration); ("final_result", v2)]] /\
      (output_schema (self s) = None ->
       dict_get "achieved" (match v1 with PDict d => d | _ => [] end)
       = Some achieved1 /\
       dict_get "achieved" (match v2 with PDict d => d | _ => [] end)
       = Some achieved2).
Proof.
  split; [reflexivity |]. split; [apply is_goal_achieved_last |].
  intros o1 o2.
  destruct (@process_after_loop cls1 goal s) as (Hh1 & Hp1 & Ha1 & Hb1 & Hc1 & Ht1).
  destruct (@process_after_loop cls2 goal s) as (Hh2 & Hp2 & Ha2 & Hb2 & Hc2 & Ht2).
  fold o1 in Hh1, Hp1, Ha1, Hb1, Hc1, Ht1.
  fold o2 in Hh2, Hp2, Ha2, Hb2, Hc2, Ht2.
  assert (Hh : execution_history (self (state_of o1))
               = execution_history (self (state_of o2))) by congruence.
  assert (Hp : plan_flags env (log_of o1) = plan_flags env (log_of o2))
    by congruence.
  repeat (split; [congruence |]).
  intros v1 v2 Hv1 Hv2.
  destruct (@process_ok_finalizing _ env cls1 goal s v1 Hv1)
    as (brk1 & j1 & fc1 & fs1 & _ & Hf1 & _ & Hj1 & _ & _ & _ & _ & _ & _
        & a1 & Hach1 & He1 & Hdef1).
  destruct (@process_ok_finalizing _ env cls2 goal s v2 Hv2)
    as (brk2 & j2 & fc2 & fs2 & _ & Hf2 & _ & Hj2 & _ & _ & _ & _ & _ & _
        & a2 & Hach2 & He2 & Hdef2).
  fold o1 in Hf1, Hj1, He1, Hach1, Hdef1.
  fold o2 in Hf2, Hj2, He2, Hach2, Hdef2.
  assert (Hbrk : brk1 = brk2).
  { rewrite <- (existsb_flags (length (execution_history (self (state_of o1)))) brk1),
      <- (existsb_flags (length (execution_history (self (state_of o2)))) brk2).
    now rewrite <- Hf1, <- Hf2, Hp. }
  assert (Hj : j2 = j1) by (rewrite Hj1, Hj2, Hh, Hbrk; reflexivity).
  exists j1, a1, a2.
  split; [exact Hach1 |]. split; [exact Hach2 |].
  split; [exact He1 |]. split; [rewrite <- Hj; exact He2 |].
  intros Hnone. rewrite (Hdef1 Hnone), (Hdef2 Hnone). split; reflexivity.
Qed.
End GoalPredicate.

(** ** Failures that do not end the run *)

Section Recovery.
Context {World : Type} (env : Env World) {cls : AgentClass World}.
Implicit Types (s : St World).

Lemma emit_status_raising event_type data s cb e w :
  callback (self s) = Some cb ->
  cb event_type data (world s) = (Raise e, w) ->
  _emit_status event_type data s
  = (Ok tt, {| self := self s; world := w |}, [EvEmit event_type data]).
Proof.
  intros Hcb Hr.
  unfold _emit_status, bind, tell, get_self, try_except, extern, ret.
  simpl. rewrite Hcb. simpl. now rewrite Hr.
Qed.

Lemma process_completes goal s :
  failures (log_of (process env goal s)) = [] ->
  exists v, result_of (process env goal s) = Ok v /\
    exists before,
      statuses (log_of (process env goal s)) = before ++ ["goal_completed"].
Proof.
  intros H. destruct (process_returns env goal s H) as [v Hv].
  exists v. split; [exact Hv |].
  destruct (process_ok_finalizing env goal s v Hv)
    as (brk & j & fc & fs & _ & _ & Hs & _ & _ & _ & _ & _ & -> & _).
  rewrite Hs. eexists. rewrite app_comm_cons, !app_assoc. reflexivity.
Qed.

End Recovery.

(** ** The theorems at work on the stub environment *)

(** No iterations allowed: straight from [goal_start] to
    [goal_completed]. *)
Lemma zero_iterations_witness :
  let o := process (Demo.env 0 "add") "3+4"
             (Demo.start (Demo.agent 0 None None [Demo.add])) in
  execution_history (self (state_of o)) = [] /\
  statuses (log_of o) = ["goal_start"; "goal_completed"].
Proof.
  intros o.
  destruct (zero_iterations (Demo.env 0 "add") "3+4"
              (Demo.start (Demo.agent 0 None None [Demo.add])) eq_refl)
    as (Hh & _ & _ & _ & _ & _ & H).
  split; [exact Hh |].
  assert (Hv : exists v, result_of o = Ok v)
    by (vm_compute; eexists; reflexivity).
  destruct Hv as [v Hv]. destruct (H v Hv) as [Hs _]. exact Hs.
Defined.

(** The scenario of the specification: one [add], then the plan reports
    the goal achieved; the default result is built without a model
    call. *)
Lemma default_final_result_witness :
  let o := process (Demo.env 1 "add") "3+4"
             (Demo.start (Demo.agent 10 None None [Demo.add])) in
  calls "generate_final_result" (log_of o) = 0%nat.
Proof.
  intros o.
  destruct (default_final_result (Demo.env 1 "add") "3+4"
              (Demo.start (Demo.agent 10 None None [Demo.add])) eq_refl)
    as [H _].
  assert (Hv : exists v, result_of o = Ok v)
    by (vm_compute; eexists; reflexivity).
  destruct Hv as [v Hv].
  destruct (H v Hv) as (achieved & _ & _ & Hc & _). exact Hc.
Defined.

(** Early stop on iteration 2: the event and the result carry a payload
    each. *)
Lemma iterations_reported_twice_witness :
  let o := process (Demo.env 1 "add") "3+4"
             (Demo.start (Demo.agent 10 None None [Demo.add])) in
  exists payload, emitted "goal_completed" (log_of o) = [payload].
Proof.
  intros o.
  assert (Hv : exists v, result_of o = Ok v)
    by (vm_compute; eexists; reflexivity).
  destruct Hv as [v Hv].
  destruct (iterations_reported_twice (Demo.env 1 "add") "3+4"
              (Demo.start (Demo.agent 10 None None [Demo.add])) v
              eq_refl Hv)
    as (payload & k & He & _).
  exists payload. exact He.
Defined.

(** A tool registered under the sentinel's name is not run. *)
Lemma direct_response_bypasses_registry_witness :
  _execute_action (Demo.action_for "direct_response")
    (Demo.start
       (Demo.agent 3 None None [Demo.broken "direct_response"]))
  = (Ok (PDict [("type", PStr "direct_response");
                ("result",
                 PStr "Task completed directly without tool usage");
                ("success", PBool true)]),
     Demo.start (Demo.agent 3 None None [Demo.broken "direct_response"]),
     []).
Proof.
  apply direct_response_bypasses_registry. reflexivity.
Defined.

(** Two tools named [add]: the first one registered is found. *)
Lemma tool_registry_operations_witness :
  get_tool "add"
    (Demo.agent 3 None None [Demo.broken "add"; Demo.add])
  = Some (Demo.broken "add").
Proof.
  destruct (tool_registry_operations
              (Demo.agent 3 None None [Demo.broken "add"; Demo.add])
              Demo.add "add")
    as (_ & _ & H & _).
  apply H. exists [], [Demo.add]. simpl. repeat split; auto.
Defined.

(** The default predicate and one that always says yes stop at the same
    iteration. *)
Lemma goal_predicate_reports_only_witness :
  let s := Demo.start (Demo.agent 10 None None [Demo.add]) in
  let o1 := @process _ (Demo.env 1 "mul") (BaseAgentClass Demo.World)
              "3*4" s in
  let o2 := @process _ (Demo.env 1 "mul") Demo.optimist "3*4" s in
  exists iteration achieved1 achieved2 v1 v2,
    emitted "goal_completed" (log_of o1)
    = [completion_payload "3*4" achieved1 iteration v1] /\
    emitted "goal_completed" (log_of o2)
    = [completion_payload "3*4" achieved2 iteration v2].
Proof.
  intros s o1 o2.
  destruct (goal_predicate_reports_only (Demo.env 1 "mul")
              (BaseAgentClass Demo.World) Demo.optimist "3*4" s
              [] 1 Demo.plan0 (Demo.action_for "mul") PNone
              (Demo.reflection_of true) 0%Q)
    as (_ & _ & _ & _ & _ & _ & _ & _ & H).
  assert (Hv1 : exists v, result_of o1 = Ok v)
    by (vm_compute; eexists; reflexivity).
  assert (Hv2 : exists v, result_of o2 = Ok v)
    by (vm_compute; eexists; reflexivity).
  destruct Hv1 as [v1 Hv1], Hv2 as [v2 Hv2].
  destruct (H v1 v2 Hv1 Hv2) as (iteration & a1 & a2 & _ & _ & H1 & H2 & _).
  exists iteration, a1, a2, v1, v2. split; [exact H1 | exact H2].
Defined.

(** ** The scenarios of the specification, run on the stub environment *)

(** Tools [add]; the model plans "compute 3+4", decides on [add] with
    [a = 3], [b = 4], the tool gives 7, the reflection marks success and
    the next plan reports the goal achieved. *)
Example scenario_add :
  let o := process (Demo.env 1 "add") "3+4"
             (Demo.start (Demo.agent 10 None None [Demo.add])) in
  match result_of o with
  | Ok v => field "achieved" v ++ field "iterations" v
  | Raise _ => []
  end = [PBool true; PInt 1] /\
  flat_map (field "result") (executed_results (log_of o)) = [PInt 7] /\
  llm_calls (log_of o) = ["plan"; "decide"; "reflect"; "plan"].
Proof. vm_compute. repeat split. Qed.

(** The model asks for [multiply], which is not registered: each
    iteration produces the error result, the Reflect call gets it, and
    the run ends normally when the iterations are used up. *)
Example scenario_missing_tool :
  let o := process (Demo.env 9 "multiply") "3*4"
             (Demo.start (Demo.agent 2 None None [Demo.add])) in
  let error :=
    PDict [("type", PStr "error");
           ("result", PStr "Tool 'multiply' not found");
           ("success", PBool false)] in
  reflected_results (log_of o) = [error; error] /\
  match result_of o with
  | Ok v => field "achieved" v ++ field "iterations" v
  | Raise _ => []
  end = [PBool false; PInt 2] /\
  emitted "goal_completed" (log_of o)
  = match result_of o with
    | Ok v => [completion_payload "3*4" (PBool false) 2 v]
    | Raise _ => []
    end.
Proof. vm_compute. repeat split. Qed.

(** The first plan already reports the goal achieved: one Plan call, no
    cycle; the event counts 1 iteration, the result 0. *)
Example scenario_achieved_at_once :
  let o := process (Demo.env 0 "add") "3+4"
             (Demo.start (Demo.agent 10 None None [Demo.add])) in
  llm_calls (log_of o) = ["plan"] /\
  execution_history (self (state_of o)) = [] /\
  flat_map (field "iterations") (emitted "goal_completed" (log_of o))
  = [PInt 1] /\
  match result_of o with
  | Ok v => field "iterations" v
  | Raise _ => []
  end = [PInt 0].
Proof. vm_compute. repeat split. Qed.

(** A tool that raises and an observer that raises on every event: the
    run still returns. *)
Example scenario_everything_raises :
  let o := process (Demo.env 9 "add") "3+4"
             (Demo.start
                (Demo.agent 1 None (Some Demo.raising_observer)
                   [Demo.broken "add"])) in
  tool_runs (log_of o)
  = [("add", Raise {| exc_class := "RuntimeError"; exc_str := "boom" |})] /\
  flat_map (field "result") (reflected_results (log_of o))
  = [PStr "Error executing tool: boom"] /\
  statuses (log_of o)
  = ["goal_start"; "plan_created"; "action_decided"; "action_executed";
     "reflection_completed"; "goal_completed"] /\
  failures (log_of o) = [].
Proof. vm_compute. repeat split. Qed.

(** ** More on the tool registry *)

Lemma str_app_assoc (s1 s2 s3 : string) :
  ((s1 ++ s2) ++ s3 = s1 ++ (s2 ++ s3))%string.
Proof. induction s1 as [| c s1 IH]; simpl; [reflexivity | now rewrite IH]. Qed.

Lemma str_app_nil_r (s : string) : (s ++ "" = s)%string.
Proof. induction s as [| c s IH]; simpl; [reflexivity | now rewrite IH]. Qed.

Lemma concat_snoc (sep : string) (l : list string) (x : string) :
  String.concat sep (l ++ [x])
  = match l with
    | [] => x
    | _ :: _ => (String.concat sep l ++ sep ++ x)%string
    end.
Proof.
  induction l as [| y l IH]; [reflexivity |].
  destruct l as [| z l]; [reflexivity |].
  change (String.concat sep ((y :: z :: l) ++ [x]))
    with (y ++ sep ++ String.concat sep ((z :: l) ++ [x]))%string.
  rewrite IH.
  change (String.concat sep (y :: z :: l))
    with (y ++ sep ++ String.concat sep (z :: l))%string.
  now rewrite !str_app_assoc.
Qed.

Section RegistryMore.
Context {World : Type}.
Implicit Types (a : BaseAgent World) (t tool : Tool.t World).

Lemma find_tool_app n (ts1 ts2 : list (Tool.t World)) :
  find_tool n (ts1 ++ ts2)
  = match find_tool n ts1 with
    | Some t => Some t
    | None => find_tool n ts2
    end.
Proof.
  induction ts1 as [| t ts1 IH]; simpl; [reflexivity |].
  destruct (String.eqb (Tool.name t) n); [reflexivity | exact IH].
Qed.

(** X1. Looking a name up after [add_tool]: a tool already registered
    under that name is still the one found, so a newly added duplicate
    never shadows it; the new tool is found only when the name was free
    and is its own. *)
Theorem get_tool_after_add_tool a tool n :
  get_tool n (add_tool tool a)
  = match get_tool n a with
    | Some t => Some t
    | None => if String.eqb (Tool.name tool) n then Some tool else None
    end.
Proof.
  unfold get_tool, add_tool. simpl. rewrite find_tool_app. simpl.
  reflexivity.
Qed.

(** X2. [list_tools] and [get_tool] agree: a name is listed exactly when
    its lookup succeeds, and the tool a lookup gives carries the name
    asked for and is one of the registered tools. *)
Theorem list_tools_matches_get_tool a n :
  (In n (list_tools a) <-> exists t, get_tool n a = Some t) /\
  (forall t, get_tool n a = Some t -> Tool.name t = n /\ In t (tools a)).
Proof.
  split.
  - unfold list_tools, get_tool. split.
    + intros Hin. destruct (find_tool n (tools a)) as [t |] eqn:E;
        [now exists t |].
      exfalso. apply in_map_iff in Hin. destruct Hin as (t & Hn & Hin).
      pose proof (proj1 (find_tool_none n (tools a)) E t Hin). contradiction.
    + intros [t Ht]. apply find_tool_some in Ht.
      destruct Ht as (before & after & Hts & Hn & _).
      apply in_map_iff. exists t. split; [exact Hn |].
      rewrite Hts. apply in_or_app. right. now left.
  - intros t Ht. apply find_tool_some in Ht.
    destruct Ht as (before & after & Hts & Hn & _). split; [exact Hn |].
    rewrite Hts. apply in_or_app. right. now left.
Qed.

Lemma filter_name_twice n m (ts : list (Tool.t World)) :
  filter (fun t => negb (String.eqb (Tool.name t) n))
    (filter (fun t => negb (String.eqb (Tool.name t) m)) ts)
  = filter (fun t => negb (String.eqb (Tool.name t) m))
      (filter (fun t => negb (String.eqb (Tool.name t) n)) ts).
Proof.
  induction ts as [| t ts IH]; [reflexivity |]. simpl.
  destruct (String.eqb (Tool.name t) m) eqn:Em,
           (String.eqb (Tool.name t) n) eqn:En; simpl;
    rewrite ?Em, ?En; simpl; now rewrite IH.
Qed.

Lemma filter_name_idem n (ts : list (Tool.t World)) :
  filter (fun t => negb (String.eqb (Tool.name t) n))
    (filter (fun t => negb (String.eqb (Tool.name t) n)) ts)
  = filter (fun t => negb (String.eqb (Tool.name t) n)) ts.
Proof.
  induction ts as [| t ts IH]; [reflexivity |]. simpl.
  destruct (String.eqb (Tool.name t) n) eqn:En; simpl;
    rewrite ?En; simpl; now rewrite IH.
Qed.

Lemma filter_name_absent n (ts : list (Tool.t World)) :
  ~ In n (map Tool.name ts) ->
  filter (fun t => negb (String.eqb (Tool.name t) n)) ts = ts.
Proof.
  induction ts as [| t ts IH]; intros H; [reflexivity |]. simpl in *.
  destruct (String.eqb (Tool.name t) n) eqn:En.
  - apply String.eqb_eq in En. exfalso. apply H. now left.
  - simpl. f_equal. apply IH. intros Hin. apply H. now right.
Qed.

(** X3. [remove_tool] composes as a deletion should: removing a name
    twice is removing it once, removals of two names commute, removing a
    name that is not registered changes nothing, and removing the name of
    a tool just added also takes the added tool away. *)
Theorem remove_tool_laws a tool n m :
  remove_tool n (remove_tool n a) = remove_tool n a /\
  remove_tool n (remove_tool m a) = remove_tool m (remove_tool n a) /\
  (~ In n (list_tools a) -> tools (remove_tool n a) = tools a) /\
  remove_tool (Tool.name tool) (add_tool tool a)
  = remove_tool (Tool.name tool) a.
Proof.
  unfold remove_tool, add_tool, set_tools, list_tools. simpl.
  repeat split.
  - f_equal. apply filter_name_idem.
  - f_equal. apply filter_name_twice.
  - apply filter_name_absent.
  - f_equal. rewrite filter_app. simpl.
    rewrite String.eqb_refl. simpl. apply app_nil_r.
Qed.

(** X4. [get_tools_summary] lists the names in registry order separated
    by a comma and a space: for an empty registry nothing follows the
    heading, and [add_tool] extends the summary by the new name, preceded
    by the separator unless it is the first. *)
Theorem get_tools_summary_add_tool a tool :
  (tools a = [] ->
   get_tools_summary a = ("Agent '" ++ name a ++ "' tools: ")%string) /\
  get_tools_summary (add_tool tool a)
  = (get_tools_summary a
     ++ match tools a with [] => "" | _ :: _ => ", " end
     ++ Tool.name tool)%string.
Proof.
  unfold get_tools_summary, list_tools, add_tool. simpl. split.
  - intros ->. simpl. rewrite ?str_app_nil_r. reflexivity.
  - rewrite map_app. simpl. rewrite concat_snoc.
    destruct (tools a) as [| t ts]; simpl.
    + now rewrite !str_app_assoc.
    + now rewrite !str_app_assoc.
Qed.
End RegistryMore.

(** ** Edge cases of the default goal predicate *)

(** X5. The default goal predicate looks at the last entry of the
    history only.  An entry without a [reflection] key, or whose
    reflection has no [action_successful] key, gives [False]; a stored
    [action_successful] is returned as it is; an entry that is not a
    dictionary, or whose [reflection] is not one, makes the predicate
    raise [AttributeError]. *)
Theorem is_goal_achieved_edge_cases goal (h : list pyval) (c : pyval)
  (d r : kwargs) (v : pyval) :
  is_goal_achieved goal (h ++ [c]) = is_goal_achieved goal [c] /\
  (dict_get "reflection" d = None ->
   is_goal_achieved goal (h ++ [PDict d]) = Ok (PBool false)) /\
  (dict_get "reflection" d = Some (PDict r) ->
   dict_get "action_successful" r = None ->
   is_goal_achieved goal (h ++ [PDict d]) = Ok (PBool false)) /\
  (dict_get "reflection" d = Some (PDict r) ->
   dict_get "action_successful" r = Some v ->
   is_goal_achieved goal (h ++ [PDict d]) = Ok v) /\
  ((forall d', c <> PDict d') ->
   exists e, is_goal_achieved goal (h ++ [c]) = Raise e /\
             exc_class e = "AttributeError") /\
  (dict_get "reflection" d = Some v -> (forall r', v <> PDict r') ->
   exists e, is_goal_achieved goal (h ++ [PDict d]) = Raise e /\
             exc_class e = "AttributeError").
Proof.
  assert (Hlast : forall x, is_goal_achieved goal (h ++ [x])
                            = is_goal_achieved goal [x]).
  { intros x. unfold is_goal_achieved.
    destruct (h ++ [x]) eqn:E; [now destruct h |].
    now rewrite <- E, last_last. }
  split; [apply Hlast |].
  split; [| split; [| split; [| split]]].
  - intros Hd. rewrite Hlast. simpl. now rewrite Hd.
  - intros Hd Hr. rewrite Hlast. simpl. rewrite Hd. simpl. now rewrite Hr.
  - intros Hd Hr. rewrite Hlast. simpl. rewrite Hd. simpl. now rewrite Hr.
  - intros Hc. rewrite Hlast. simpl.
    destruct c; simpl; eauto. exfalso. now apply (Hc d0).
  - intros Hd Hv. rewrite Hlast. simpl. rewrite Hd.
    destruct v; simpl; eauto. exfalso. now apply (Hv d0).
Qed.

(** A history whose last entry has lost its reflection. *)
Lemma is_goal_achieved_edge_cases_witness :
  is_goal_achieved "3+4" ([PNone] ++ [PDict [("iteration", PInt 2)]])
  = Ok (PBool false).
Proof.
  destruct (is_goal_achieved_edge_cases "3+4" [PNone] PNone
              [("iteration", PInt 2)] [] PNone)
    as (_ & H & _).
  apply H. reflexivity.
Defined.

(** ** Executing registered tools *)

Lemma dict_get_remove_keys k names (params : kwargs) :
  In k names -> dict_get k (remove_keys names params) = None.
Proof.
  intros Hin. unfold remove_keys.
  induction params as [| [k' v] params IH]; [reflexivity |]. simpl.
  destruct (existsb (String.eqb k') names) eqn:E; simpl; [exact IH |].
  destruct (String.eqb k' k) eqn:Ek; [| exact IH].
  apply String.eqb_eq in Ek. subst k'. exfalso.
  assert (existsb (String.eqb k) names = true); [| congruence].
  apply existsb_exists. exists k. split; [exact Hin | apply String.eqb_refl].
Qed.

Lemma math_operand_value k (params : kwargs) :
  k = "a" \/ k = "b" ->
  math_operand k params
  = match dict_get k params with
    | Some PNone | None => PFloat 0
    | Some v => v
    end.
Proof.
  intros Hk. unfold math_operand, named_or_none.
  assert (Hkw : dict_get k (remove_keys ["_parent_span_id"; "a"; "b"] params)
                = None).
  { apply dict_get_remove_keys. simpl. destruct Hk; auto. }
  destruct (dict_get k params) as [[] |]; try reflexivity; now rewrite Hkw.
Qed.

Section ToolExecution.
Context {World : Type}.
Implicit Types (s : St World) (action : Action.t).

Lemma execute_found_tool action s tool :
  Action.tool_name action <> "direct_response" ->
  get_tool (Action.tool_name action) (self s) = Some tool ->
  _execute_action action s
  = match Tool.execute tool (Action.tool_parameters action) (world s) with
    | (Ok v, w) =>
        (Ok (PDict [("type", PStr "tool_execution");
                    ("tool_name", PStr (Action.tool_name action));
                    ("parameters", PDict (Action.tool_parameters action));
                    ("result", v);
                    ("success", PBool true)]),
         {| self := self s; world := w |},
         [EvTool (Tool.name tool) (Action.tool_parameters action) (Ok v)])
    | (Raise e, w) =>
        (Ok (PDict [("type", PStr "error");
                    ("tool_name", PStr (Action.tool_name action));
                    ("parameters", PDict (Action.tool_parameters action));
                    ("result",
                     PStr ("Error executing tool: " ++ exc_str e)%string);
                    ("success", PBool false)]),
         {| self := self s; world := w |},
         [EvTool (Tool.name tool) (Action.tool_parameters action)
            (Raise e)])
    end.
Proof.
  intros Hn Hg. apply String.eqb_neq in Hn.
  unfold _execute_action. rewrite Hn.
  unfold bind, get_self, try_except, extern, ret. simpl. rewrite Hg.
  destruct (Tool.execute tool (Action.tool_parameters action) (world s))
    as [[v | e] w]; reflexivity.
Qed.

(** X6. When several tools are registered under the name an action asks
    for, the Execute step runs the first of them and only that one; if
    it returns [v] the result is the [tool_execution] dictionary with
    [result = v] and [success = True], and the world is the one that tool
    left. *)
Theorem execute_runs_first_registered action s before tool after v w :
  Action.tool_name action <> "direct_response" ->
  tools (self s) = before ++ tool :: after ->
  Tool.name tool = Action.tool_name action ->
  (forall t, In t before -> Tool.name t <> Action.tool_name action) ->
  Tool.execute tool (Action.tool_parameters action) (world s) = (Ok v, w) ->
  _execute_action action s
  = (Ok (PDict [("type", PStr "tool_execution");
                ("tool_name", PStr (Action.tool_name action));
                ("parameters", PDict (Action.tool_parameters action));
                ("result", v);
                ("success", PBool true)]),
     {| self := self s; world := w |},
     [EvTool (Tool.name tool) (Action.tool_parameters action) (Ok v)]).
Proof.
  intros Hn Hts Hname Hbefore Hx.
  assert (Hg : get_tool (Action.tool_name action) (self s) = Some tool).
  { apply find_tool_some. exists before, after. auto. }
  rewrite (execute_found_tool action s tool Hn Hg). now rewrite Hx.
Qed.

End ToolExecution.

Section MathToolFacts.
Context {World : Type} (ops : PyOps).
Implicit Types (s : St World) (action : Action.t).

(** X8. The arithmetic tools take a missing operand, or one passed as
    [None], to be [0.0]: the fallback lookup in the catch-all keywords
    can never find [a] or [b], which the named parameters have already
    taken.  Every other keyword is ignored and the world is left alone.
    [DivideTool] refuses a zero divisor before dividing. *)
Theorem math_tools_default_operands (params : kwargs) (w : World) :
  dict_get "self" params = None ->
  let operand k :=
    match dict_get k params with
    | Some PNone | None => PFloat 0
    | Some v => v
    end in
  Tool.execute (AddTool ops) params w
  = (py_add ops (operand "a") (operand "b"), w) /\
  Tool.execute (SubtractTool ops) params w
  = (py_sub ops (operand "a") (operand "b"), w) /\
  Tool.execute (MultiplyTool ops) params w
  = (py_mul ops (operand "a") (operand "b"), w) /\
  Tool.execute (DivideTool ops) params w
  = (if py_eq_zero (operand "b")
     then Raise {| exc_class := "ValueError";
                   exc_str := "Cannot divide by zero" |}
     else py_truediv ops (operand "a") (operand "b"), w).
Proof.
  intros Hself operand. simpl. unfold math_execute, call_collision, divide.
  rewrite Hself, !math_operand_value by auto.
  repeat split.
Qed.

End MathToolFacts.

Section TwitterFacts.
Context {World : Type}.
Context (composio_execute :
           string -> string -> kwargs -> World -> Res pyval * World).
Implicit Types (s : St World) (action : Action.t).

(** X10. A [TwitterTool] turns a failure of Composio into a returned
    dictionary with [success = False], so the Execute step sees no
    exception: it reports a [tool_execution] with [success = True] whose
    [result] is that dictionary.  The outer flag only says that the call
    returned; whether the operation worked is the inner flag. *)
Theorem twitter_failure_reported_as_success action s (t : TwitterTool) :
  Action.tool_name action <> "direct_response" ->
  get_tool (Action.tool_name action) (self s)
  = Some (twitter_tool composio_execute t) ->
  dict_get "self" (Action.tool_parameters action) = None ->
  exists inner w,
    _execute_action action s
    = (Ok (PDict [("type", PStr "tool_execution");
                  ("tool_name", PStr (Action.tool_name action));
                  ("parameters", PDict (Action.tool_parameters action));
                  ("result", PDict inner);
                  ("success", PBool true)]),
       {| self := self s; world := w |},
       [EvTool (tw_name t) (Action.tool_parameters action)
          (Ok (PDict inner))]) /\
    forall e w',
      composio_execute (composio_tool_name t) (user_id t)
        (remove_keys ["_parent_span_id"] (Action.tool_parameters action))
        (world s) = (Raise e, w') ->
      w = w' /\
      inner = [("success", PBool false);
               ("error",
                PStr ("Error executing " ++ composio_tool_name t
                      ++ ": " ++ exc_str e)%string);
               ("tool_name", PStr (tw_name t))].
Proof.
  intros Hn Hg Hself.
  rewrite (execute_found_tool action s _ Hn Hg).
  simpl. unfold TwitterTool_execute, call_collision. rewrite Hself.
  destruct (composio_execute (composio_tool_name t) (user_id t)
              (remove_keys ["_parent_span_id"] (Action.tool_parameters action))
              (world s)) as [[result | e] w0].
  - eexists. exists w0. split; [reflexivity |]. intros e w' H. discriminate.
  - eexists. exists w0. split; [reflexivity |].
    intros e' w' H. inversion H. auto.
Qed.
End TwitterFacts.

(** ** [normalize_url] *)

Lemma prefix_nil (s : string) : prefix "" s = true.
Proof. now destruct s. Qed.

Lemma prefix_cons_same c s1 s2 :
  prefix (String c s1) (String c s2) = prefix s1 s2.
Proof.
  change (prefix (String c s1) (String c s2))
    with (if Ascii.ascii_dec c c then prefix s1 s2 else false).
  now destruct (Ascii.ascii_dec c c).
Qed.

Lemma prefix_cons_other c c' s1 s2 :
  c <> c' -> prefix (String c s1) (String c' s2) = false.
Proof.
  intros H.
  change (prefix (String c s1) (String c' s2))
    with (if Ascii.ascii_dec c c' then prefix s1 s2 else false).
  now destruct (Ascii.ascii_dec c c').
Qed.

Lemma normalize_url_cons c rest :
  normalize_url (String c rest)
  = if prefix "//" (String c rest) then ("https:" ++ String c rest)%string
    else if prefix "/" (String c rest)
         then ("https://duckduckgo.com" ++ String c rest)%string
         else String c rest.
Proof. reflexivity. Qed.

Lemma normalize_url_cases (url : string) :
  (url = "" /\ normalize_url url = "") \/
  (exists rest, url = String "/" (String "/" rest) /\
                normalize_url url = ("https:" ++ url)%string) \/
  (exists rest, url = String "/" rest /\
                normalize_url url = ("https://duckduckgo.com" ++ url)%string) \/
  (exists c rest, url = String c rest /\ c <> "/"%char /\
                  normalize_url url = url).
Proof.
  destruct url as [| c rest]; [left; auto |]. right.
  rewrite normalize_url_cons.
  destruct (Ascii.ascii_dec c "/") as [-> | Hc].
  - rewrite !prefix_cons_same, prefix_nil.
    destruct rest as [| c' rest'].
    + right. left. exists "". auto.
    + destruct (Ascii.ascii_dec c' "/") as [-> | Hc'].
      * left. exists rest'. rewrite prefix_cons_same, prefix_nil. auto.
      * right. left. exists (String c' rest').
        rewrite prefix_cons_other by congruence. auto.
  - right. right. exists c, rest.
    rewrite !prefix_cons_other by congruence. auto.
Qed.

(** X11. [normalize_url] leaves the empty string and every URL that does
    not start with a slash as they are, and otherwise only puts a prefix
    in front.  What it returns never starts with a slash, so normalizing
    twice is the same as normalizing once. *)
Theorem normalize_url_idempotent (url : string) :
  normalize_url (normalize_url url) = normalize_url url /\
  prefix "/" (normalize_url url) = false /\
  (exists p, normalize_url url = (p ++ url)%string) /\
  (prefix "/" url = false -> normalize_url url = url).
Proof.
  destruct (normalize_url_cases url)
    as [[-> H] | [(rest & -> & H) | [(rest & -> & H) | (c & rest & -> & Hc & H)]]];
    rewrite H.
  - repeat split; auto. now exists "".
  - repeat split; auto.
    + now exists "https:".
    + rewrite prefix_cons_same, prefix_nil. discriminate.
  - repeat split; auto.
    + now exists "https://duckduckgo.com".
    + rewrite prefix_cons_same, prefix_nil. discriminate.
  - rewrite H. repeat split; auto.
    + apply prefix_cons_other. congruence.
    + now exists "".
Qed.

(** ** Runs follow the grammar *)

Section TraceBody.
Context {World : Type} (env : Env World) {cls : AgentClass World}.
Implicit Types (s : St World).

Lemma execute_action_trace action s :
  post (_execute_action action) s
       (fun r s' l =>
          exists v w, r = Ok v /\ s' = {| self := self s; world := w |} /\
                      executes (self s) action (world s) w v l).
Proof.
  unfold _execute_action.
  destruct (String.eqb (Action.tool_name action) "direct_response") eqn:E.
  - apply String.eqb_eq in E. mstep. destruct s.
    eexists. eexists. repeat split. now constructor.
  - apply String.eqb_neq in E. mstep. mstep. simpl.
    destruct (get_tool (Action.tool_name action) (self s)) as [tool |] eqn:G.
    + mstep. mstep. apply post_extern. intros [v | e] w Hx.
      * mstep. simpl. eexists. eexists. repeat split.
        now apply (ex_returned _ _ _ tool).
      * simpl. mstep. simpl. eexists. eexists. repeat split.
        now apply (ex_raised _ _ _ tool).
    + mstep. destruct s. eexists. eexists. repeat split.
      now apply ex_missing.
Qed.

Lemma iteration_log goal trace_id i (a a' : BaseAgent World) l l' r :
  iteration env goal trace_id i a l r a' -> l' = l ->
  iteration env goal trace_id i a l' r a'.
Proof. now intros H ->. Qed.
End TraceBody.

Ltac trace_leaf rule :=
  cbn [self world];
  eapply iteration_log;
  [ eapply rule; eassumption
  | cbn [app planned decided reflected]; rewrite <- ?app_assoc;
    reflexivity ].

Section TraceLoop.
Context {World : Type} (env : Env World) {cls : AgentClass World}.
Implicit Types (s : St World).

Lemma loop_body_trace goal trace_id i s :
  post (loop_body env goal trace_id i) s
       (fun r s' l => iteration env goal trace_id i (self s) l r (self s')).
Proof.
  unfold loop_body, create_span, _create_plan, call_llm.
  mstep. mextern; [| trace_leaf (@it_span_raised World env)].
  mstep. mstep. mstep. cbn beta iota. mstep. mextern;
    [| trace_leaf (@it_plan_raised World env)].
  mstep. destruct (Plan_new env v0) as [plan | e] eqn:Eplan; cbn beta iota;
    [| trace_leaf (@it_plan_invalid World env)].
  memit.
  destruct (Plan.goal_achieved plan) eqn:Eachieved.
  { mstep. trace_leaf (@it_break World env). }
  unfold _decide_action, _reflect_on_result, update_span, call_llm.
  mstep. mstep. mstep. cbn beta iota. mstep. mextern;
    [| trace_leaf (@it_decide_raised World env)].
  mstep. destruct (Action_new env v1) as [action | e] eqn:Eaction;
    cbn beta iota; [| trace_leaf (@it_decide_invalid World env)].
  memit.
  eapply post_bind, post_mono; [apply execute_action_trace |].
  intros ? ? tl (result & wx & -> & -> & Hex); cbn beta iota.
  cbn [self world] in Hex.
  memit.
  mstep. mstep. mstep. cbn beta iota. mstep. mextern;
    [| trace_leaf (@it_reflect_raised World env)].
  mstep. destruct (Reflection_new env v2) as [reflection | e] eqn:Ereflection;
    cbn beta iota; [| trace_leaf (@it_reflect_invalid World env)].
  memit. mstep. mstep. mstep. mstep. cbn beta iota. mstep. mextern.
  - mstep. mstep. cbn beta iota. mstep. destruct v3.
    trace_leaf (@it_continue World env).
  - trace_leaf (@it_update_raised World env).
Qed.

Lemma while_loop_trace fuel goal trace_id : forall i s,
  max_iterations (self s) - i <= Z.of_nat fuel ->
  post (while_loop env fuel goal trace_id i) s
       (fun r s' l => looping env goal trace_id i (self s) l r (self s')).
Proof.
  induction fuel as [| fuel IH]; intros i s Hfuel; simpl; mstep; mstep; simpl.
  - destruct (i <? max_iterations (self s)) eqn:Hlt.
    + apply Z.ltb_lt in Hlt. lia.
    + apply Z.ltb_ge in Hlt. mstep. now apply lp_done.
  - destruct (i <? max_iterations (self s)) eqn:Hlt.
    + apply Z.ltb_lt in Hlt.
      assert (Hbody := loop_body_spec env goal trace_id i s).
      assert (Htrace := loop_body_trace goal trace_id (i + 1) s).
      unfold post in Hbody, Htrace |- *. unfold bind, result_of, state_of, log_of in *.
      destruct (loop_body env goal trace_id (i + 1) s) as [[[[|] | e] s1] l1];
        simpl in *.
      * assert (HN : max_iterations (self s1) = max_iterations (self s))
          by (apply config_max_iterations, Hbody).
        assert (Hrec := IH (i + 1) s1 ltac:(lia)).
        unfold post, result_of, state_of, log_of in Hrec.
        destruct (while_loop env fuel goal trace_id (i + 1) s1)
          as [[r2 s2] l2]; simpl in *.
        now apply lp_continue with (self s1).
      * rewrite app_nil_r. now apply lp_break.
      * now apply lp_raised.
    + apply Z.ltb_ge in Hlt. mstep. now apply lp_done.
Qed.
End TraceLoop.

Section TraceProcess.
Context {World : Type} (env : Env World) {cls : AgentClass World}.
Implicit Types (s : St World).

Lemma run_loop_trace goal s :
  post (run_loop env goal) s
       (fun r s' l => running env goal (self s) l r (self s')).
Proof.
  unfold run_loop, start_trace, create_span.
  mstep. mstep. mstep. mstep. mstep. mstep. cbn beta iota. cbn [self world].
  mstep. mextern; [| exact (rn_trace_raised env goal (self s) e)].
  memit. mstep.
  eapply post_mono; [apply while_loop_trace; simpl; lia |].
  intros [j | e] s1 l1 Hloop; cbn [self world] in Hloop.
  - mstep. rewrite app_nil_r.
    exact (rn_loop_ended env goal (self s) v l1 j (self s1) Hloop).
  - exact (rn_loop_raised env goal (self s) v l1 e (self s1) Hloop).
Qed.

Lemma generate_final_result_trace goal h trace_id s :
  post (_generate_final_result env goal h trace_id) s
       (fun r s' l =>
          (exists w, s' = {| self := self s; world := w |}) /\
          generates goal h trace_id (self s) l r).
Proof.
  unfold _generate_final_result, call_llm. mstep. mstep. cbn beta iota.
  destruct (output_schema (self s)) as [schema |] eqn:Eschema; mstep; mstep;
    destruct (is_goal_achieved_method goal h) as [achieved | e] eqn:Epred;
    cbn beta iota.
  - apply post_extern. intros r w _. split; [eauto |].
    now apply gen_schema.
  - split; [exists (world s); now destruct s |].
    now apply gen_predicate_raised.
  - mstep. split; [exists (world s); now destruct s |].
    now apply gen_default.
  - split; [exists (world s); now destruct s |].
    now apply gen_predicate_raised.
Qed.

Lemma generates_achieved goal h trace_id (a : BaseAgent World) l v :
  generates goal h trace_id a l (Ok v) ->
  exists achieved, is_goal_achieved_method goal h = Ok achieved.
Proof. intros H. inversion H; subst; eauto. Qed.

Lemma finishing_log goal trace_id j (a : BaseAgent World) l l' r :
  finishing env goal trace_id j a l r -> l' = l ->
  finishing env goal trace_id j a l' r.
Proof. now intros H ->. Qed.

Lemma finish_trace goal trace_id j s :
  post (finish env goal trace_id j) s
       (fun r s' l =>
          self s' = self s /\ finishing env goal trace_id j (self s) l r).
Proof.
  unfold finish, update_span. mstep. mstep. cbn beta iota.
  eapply post_bind, post_mono; [apply generate_final_result_trace |].
  intros [v | e] s1 l1 ([w ->] & Hgen); cbn beta iota;
    [| split; [reflexivity | now apply fin_generate_raised]].
  destruct (generates_achieved _ _ _ _ _ _ Hgen) as [achieved Epred].
  mstep. mstep. cbn beta iota. cbn [self world]. mstep. mstep.
  rewrite Epred. cbn beta iota. memit. mstep. mextern.
  - destruct v0. mstep. mstep. mstep. cbn beta iota. cbn [self world].
    destruct (verbose (self s)) eqn:Ev;
      [destruct (has_key "achieved" v) eqn:Eh |].
    + mstep. mstep. split; [reflexivity |].
      eapply finishing_log; [exact (fin_returned env goal trace_id j _ _ _ _ Hgen Epred) |].
      unfold closing_log. rewrite Ev, Eh. cbn [app].
      now rewrite ?app_nil_r.
    + mstep. mstep. rewrite Epred. cbn beta iota. mstep. mstep.
      split; [reflexivity |].
      eapply finishing_log; [exact (fin_returned env goal trace_id j _ _ _ _ Hgen Epred) |].
      unfold closing_log. rewrite Ev, Eh. cbn [app].
      now rewrite ?app_nil_r.
    + mstep. mstep. split; [reflexivity |].
      eapply finishing_log; [exact (fin_returned env goal trace_id j _ _ _ _ Hgen Epred) |].
      unfold closing_log. rewrite Ev. cbn [app].
      now rewrite ?app_nil_r.
  - split; [reflexivity |].
    exact (fin_update_raised env goal trace_id j _ _ _ _ e Hgen Epred).
Qed.

(** Every run of [process] follows the grammar. *)
Lemma process_trace goal s :
  processing env goal (self s)
    (log_of (process env goal s)) (result_of (process env goal s))
    (self (state_of (process env goal s))).
Proof.
  rewrite (process_split env goal s).
  pose proof (run_loop_trace goal s) as Hrun.
  unfold post, result_of, state_of, log_of in Hrun |- *. unfold bind.
  destruct (run_loop env goal s) as [[[[trace_id j] | e] s1] l1];
    simpl in *; [| now apply pr_aborted].
  pose proof (finish_trace goal trace_id j s1) as Hfin.
  unfold post, result_of, state_of, log_of in Hfin.
  destruct (finish env goal trace_id j s1) as [[r s2] l2]. simpl in *.
  destruct Hfin as [Hs Hfin]. rewrite Hs.
  now apply pr_finished with trace_id j.
Qed.
End TraceProcess.

(** ** Reading the grammar *)

Section TraceFrame.
Context {World : Type} (env : Env World).
Implicit Types (a : BaseAgent World).

(** The cycle an iteration may have appended. *)
Lemma iteration_frame goal trace_id i a l r a' :
  iteration env goal trace_id i a l r a' ->
  config a' = config a /\ current_goal a' = current_goal a /\
  exists cs,
    execution_history a' = execution_history a ++ cs /\
    match r with
    | Ok Break => cs = [] /\ a' = a
    | Ok Continue =>
        exists plan action result reflection timestamp,
          cs = [make_cycle i plan action result reflection timestamp] /\
          Plan.goal_achieved plan = false /\
          current_plan a' = Some plan
    | Raise _ =>
        cs = [] \/
        exists plan action result reflection timestamp,
          cs = [make_cycle i plan action result reflection timestamp] /\
          Plan.goal_achieved plan = false
    end.
Proof.
  intros H. inversion H; subst; simpl;
    (split; [reflexivity |]); (split; [reflexivity |]);
    try (exists []; rewrite app_nil_r; split; [reflexivity |]; auto; fail).
  - eexists. split; [reflexivity |]. right. eauto 10.
  - eexists. split; [reflexivity |]. eauto 10.
Qed.

Lemma looping_frame goal trace_id i a l r a' :
  looping env goal trace_id i a l r a' ->
  config a' = config a /\ current_goal a' = current_goal a.
Proof.
  induction 1 as [i a Hi | i a l a' Hi Hit | i a l e a' Hi Hit
                  | i a l1 a1 l2 r a' Hi Hit Hloop IH].
  - auto.
  - apply iteration_frame in Hit. destruct Hit as (Hc & Hg & _). auto.
  - apply iteration_frame in Hit. destruct Hit as (Hc & Hg & _). auto.
  - apply iteration_frame in Hit. destruct Hit as (Hc & Hg & _).
    destruct IH as [Hc' Hg']. split; congruence.
Qed.
End TraceFrame.

(** ** The lifecycle of a run *)

Lemma lifecycle_run_app p x y :
  lifecycle_run p (x ++ y)
  = match lifecycle_run p x with
    | Some q => lifecycle_run q y
    | None => None
    end.
Proof.
  revert p. induction x as [| t x IH]; intros p; simpl; [reflexivity |].
  destruct (lifecycle_step p t); [apply IH | reflexivity].
Qed.

Lemma executes_log {World} (a : BaseAgent World) action w w' result tl :
  executes a action w w' result tl ->
  tl = [] \/ exists n p r, tl = [EvTool n p r].
Proof. intros H. inversion H; subst; eauto 6. Qed.

Ltac iteration_cases H :=
  inversion H; subst;
  repeat match goal with
         | Hex : executes _ _ _ _ _ _ |- _ =>
             destruct (executes_log _ _ _ _ _ _ Hex)
               as [-> | (? & ? & ? & ->)];
             clear Hex
         end.

Section Lifecycle.
Context {World : Type} (env : Env World) {cls : AgentClass World}.
Implicit Types (a : BaseAgent World).

Lemma iteration_lifecycle goal trace_id i a l r a' :
  iteration env goal trace_id i a l r a' ->
  exists q,
    lifecycle_run Planning (statuses l) = Some q /\
    match r with
    | Ok Continue => q = Planning
    | Ok Break => q = Planned
    | Raise _ => True
    end.
Proof. intros H. iteration_cases H; simpl; eauto. Qed.

Lemma looping_lifecycle goal trace_id i a l r a' :
  looping env goal trace_id i a l r a' ->
  exists q,
    lifecycle_run Planning (statuses l) = Some q /\
    match r with
    | Ok _ => q = Planning \/ q = Planned
    | Raise _ => True
    end.
Proof.
  induction 1 as [i a Hi | i a l a' Hi Hit | i a l e a' Hi Hit
                  | i a l1 a1 l2 r a' Hi Hit Hloop IH].
  - exists Planning. simpl. auto.
  - destruct (iteration_lifecycle _ _ _ _ _ _ _ Hit) as (q & Hq & ->). eauto.
  - destruct (iteration_lifecycle _ _ _ _ _ _ _ Hit) as (q & Hq & _). eauto.
  - destruct (iteration_lifecycle _ _ _ _ _ _ _ Hit) as (q & Hq & ->).
    destruct IH as (q' & Hq' & Hr).
    exists q'. rewrite statuses_app, lifecycle_run_app, Hq. auto.
Qed.

Lemma generates_statuses goal h trace_id a l r :
  generates goal h trace_id a l r -> statuses l = [].
Proof. intros H. inversion H; reflexivity. Qed.

Lemma closing_statuses goal a achieved v :
  statuses (closing_log goal a achieved v) = [].
Proof.
  unfold closing_log. destruct (verbose a); [| reflexivity].
  destruct (has_key "achieved" v); reflexivity.
Qed.

Lemma finishing_statuses goal trace_id j a l r :
  finishing env goal trace_id j a l r ->
  match r with
  | Ok _ => statuses l = ["goal_completed"]
  | Raise _ => statuses l = [] \/ statuses l = ["goal_completed"]
  end.
Proof.
  intros H. inversion H; subst.
  - left. eapply generates_statuses. eassumption.
  - right. rewrite statuses_app. erewrite generates_statuses by eassumption.
    reflexivity.
  - rewrite !statuses_app, closing_statuses.
    erewrite generates_statuses by eassumption. reflexivity.
Qed.

Lemma processing_lifecycle goal a l r a' :
  processing env goal a l r a' ->
  match r with
  | Ok _ => lifecycle_run Idle (statuses l) = Some Done
  | Raise _ => lifecycle_run Idle (statuses l) <> None
  end.
Proof.
  intros H.
  inversion H as [l0 e a0 Hrun | l1 trace_id j a0 l2 r0 Hrun Hfin]; subst.
  - inversion Hrun as [e' | trace_id l' e' a'' Hloop |]; subst.
    + simpl. discriminate.
    + destruct (looping_lifecycle _ _ _ _ _ _ _ Hloop) as (q & Hq & _).
      simpl. rewrite Hq. discriminate.
  - rewrite statuses_app, lifecycle_run_app.
    inversion Hrun as [| | trace_id' l' j' a'' Hloop]; subst.
    destruct (looping_lifecycle _ _ _ _ _ _ _ Hloop) as (q & Hq & Hcase).
    simpl. rewrite Hq.
    pose proof (finishing_statuses _ _ _ _ _ _ Hfin) as Hs.
    destruct r as [v | e].
    + rewrite Hs. destruct Hcase as [-> | ->]; reflexivity.
    + destruct Hs as [-> | ->]; destruct Hcase as [-> | ->];
        simpl; discriminate.
Qed.

(** X12. The events a run passes to [_emit_status] follow the lifecycle
    [goal_start], then per iteration [plan_created], [action_decided],
    [action_executed], [reflection_completed], and [goal_completed] only
    after a [plan_created] or between iterations.  This holds for every
    run, also one cut short by a failure; a run that returns has reached
    the end of the lifecycle, and no event type outside these six is ever
    emitted. *)
Theorem process_follows_lifecycle goal (s : St World) :
  let o := process env goal s in
  match result_of o with
  | Ok _ => lifecycle_run Idle (statuses (log_of o)) = Some Done
  | Raise _ => lifecycle_run Idle (statuses (log_of o)) <> None
  end.
Proof. intros o. exact (processing_lifecycle _ _ _ _ _ (process_trace env goal s)). Qed.
End Lifecycle.

(** ** What the Plan call is shown *)

Lemma inputs_app n l1 l2 : inputs n (l1 ++ l2) = inputs n l1 ++ inputs n l2.
Proof. apply flat_map_app. Qed.

Lemma plan_histories_app l1 l2 :
  plan_histories (l1 ++ l2) = plan_histories l1 ++ plan_histories l2.
Proof. unfold plan_histories. rewrite inputs_app. apply flat_map_app. Qed.

Lemma firstn_length_app {A} (h cs : list A) : firstn (length h) (h ++ cs) = h.
Proof. induction h as [| x h IH]; simpl; [reflexivity | now rewrite IH]. Qed.

Section PlanWindow.
Context {World : Type} (env : Env World) {cls : AgentClass World}.
Implicit Types (a : BaseAgent World).

Lemma iteration_plan_window goal trace_id i a l r a' :
  iteration env goal trace_id i a l r a' ->
  (plan_histories l = [] /\ calls "plan" l = 0%nat \/
   plan_histories l = [PList (lastn 3 (execution_history a))] /\
   calls "plan" l = 1%nat) /\
  match r with
  | Ok _ => calls "plan" l = 1%nat
  | Raise _ => True
  end.
Proof. intros H. iteration_cases H; cbn; auto. Qed.

Lemma looping_plan_window goal trace_id i a l r a' :
  looping env goal trace_id i a l r a' ->
  exists cs,
    execution_history a' = execution_history a ++ cs /\
    plan_histories l
    = map (window_at (execution_history a'))
        (seq (length (execution_history a)) (calls "plan" l)).
Proof.
  assert (Hone : forall i a l r a',
             iteration env goal trace_id i a l r a' ->
             exists cs,
               execution_history a' = execution_history a ++ cs /\
               plan_histories l
               = map (window_at (execution_history a'))
                   (seq (length (execution_history a)) (calls "plan" l))).
  { intros j b l0 r0 b' Hit.
    destruct (iteration_frame _ _ _ _ _ _ _ _ Hit) as (_ & _ & cs & Hh & _).
    exists cs. split; [exact Hh |].
    destruct (iteration_plan_window _ _ _ _ _ _ _ Hit)
      as [[[-> ->] | [-> ->]] _]; simpl; [reflexivity |].
    unfold window_at. now rewrite Hh, firstn_length_app. }
  induction 1 as [i a Hi | i a l a' Hi Hit | i a l e a' Hi Hit
                  | i a l1 a1 l2 r a' Hi Hit Hloop IH].
  - exists []. rewrite app_nil_r. auto.
  - eauto.
  - eauto.
  - destruct (iteration_frame _ _ _ _ _ _ _ _ Hit)
      as (_ & _ & cs1 & Hh1 & plan & action & result & reflection
          & timestamp & -> & _).
    destruct (iteration_plan_window _ _ _ _ _ _ _ Hit) as [Hw Hc].
    destruct Hw as [[_ Hz] | [Hw _]]; [congruence |].
    destruct IH as (cs2 & Hh2 & Hp2).
    exists ((make_cycle (i + 1) plan action result reflection timestamp)
              :: cs2).
    split; [rewrite Hh2, Hh1, <- app_assoc; reflexivity |].
    rewrite plan_histories_app, calls_app, Hw, Hc, Hp2, Hh1.
    rewrite length_app. simpl length.
    replace (length (execution_history a) + 1)%nat
      with (S (length (execution_history a))) by lia.
    simpl. f_equal. unfold window_at.
    now rewrite Hh2, Hh1, <- app_assoc, firstn_length_app.
Qed.

Lemma generates_no_plan goal h trace_id a l r :
  generates goal h trace_id a l r ->
  plan_histories l = [] /\ calls "plan" l = 0%nat.
Proof. intros H. inversion H; subst; cbn; auto. Qed.

Lemma closing_no_plan goal a achieved v :
  plan_histories (closing_log goal a achieved v) = [] /\
  calls "plan" (closing_log goal a achieved v) = 0%nat.
Proof.
  unfold closing_log. destruct (verbose a); [| auto].
  destruct (has_key "achieved" v); auto.
Qed.

Lemma finishing_no_plan goal trace_id j a l r :
  finishing env goal trace_id j a l r ->
  plan_histories l = [] /\ calls "plan" l = 0%nat.
Proof.
  intros H. inversion H as [l0 e Hg | l0 v achieved e Hg Hp
                            | l0 v achieved Hg Hp]; subst;
    destruct (generates_no_plan _ _ _ _ _ _ Hg) as [Hh Hc].
  - auto.
  - rewrite plan_histories_app, calls_app, Hh, Hc. auto.
  - destruct (closing_no_plan goal a achieved v) as [Hh' Hc'].
    rewrite !plan_histories_app, !calls_app, Hh, Hc, Hh', Hc'. auto.
Qed.

Lemma processing_plan_window goal a l r a' :
  processing env goal a l r a' ->
  plan_histories l
  = map (window_at (execution_history a')) (seq 0 (calls "plan" l)).
Proof.
  assert (Hrun : forall trace_id l0 r0,
             looping env goal trace_id 0 (reset_for goal a) l0 r0 a' ->
             plan_histories
               (ev_trace goal a (Ok trace_id) :: ev_goal_start goal a :: l0)
             = map (window_at (execution_history a'))
                 (seq 0 (calls "plan"
                    (ev_trace goal a (Ok trace_id)
                       :: ev_goal_start goal a :: l0)))).
  { intros trace_id l0 r0 Hloop.
    destruct (looping_plan_window _ _ _ _ _ _ _ Hloop) as (cs & _ & Hp).
    exact Hp. }
  intros H.
  inversion H as [l0 e a0 Hr | l1 trace_id j a0 l2 r0 Hr Hfin]; subst.
  - inversion Hr; subst; [reflexivity | eauto].
  - destruct (finishing_no_plan _ _ _ _ _ _ Hfin) as [Hh Hc].
    rewrite plan_histories_app, calls_app, Hh, Hc, app_nil_r, Nat.add_0_r.
    inversion Hr; subst. eauto.
Qed.

(** X13. Every Plan call of a run is shown the last three cycles recorded
    before it, and all of them when there are fewer: the [k]-th call
    (counting from 0) sees [history[:k][-3:]] of the history the run
    leaves behind.  In particular the first call of every run sees an
    empty history, whatever an earlier run recorded. *)
Theorem plan_sees_last_three_cycles goal (s : St World) :
  let o := process env goal s in
  plan_histories (log_of o)
  = map (fun k =>
           PList (lastn 3
                    (firstn k (execution_history (self (state_of o))))))
      (seq 0 (calls "plan" (log_of o))).
Proof.
  intros o. exact (processing_plan_window _ _ _ _ _ (process_trace env goal s)).
Qed.
End PlanWindow.

(** ** Spans *)

Section Tracing.
Context {World : Type} (env : Env World) {cls : AgentClass World}.
Implicit Types (a : BaseAgent World).

Lemma iteration_traced goal trace_id i a l r a' :
  iteration env goal trace_id i a l r a' ->
  forall current rest,
    (forall c, traced trace_id c rest) ->
    traced trace_id current (l ++ rest).
Proof. intros H current rest Hrest. iteration_cases H; cbn; auto 20. Qed.

Lemma looping_traced goal trace_id i a l r a' :
  looping env goal trace_id i a l r a' ->
  forall current rest,
    (forall c, traced trace_id c rest) ->
    traced trace_id current (l ++ rest).
Proof.
  induction 1 as [i a Hi | i a l a' Hi Hit | i a l e a' Hi Hit
                  | i a l1 a1 l2 r a' Hi Hit Hloop IH];
    intros current rest Hrest.
  - apply Hrest.
  - eapply iteration_traced; eassumption.
  - eapply iteration_traced; eassumption.
  - rewrite <- app_assoc. eapply iteration_traced; [eassumption |].
    intros c. now apply IH.
Qed.

Lemma finishing_traced goal trace_id j a l r :
  finishing env goal trace_id j a l r ->
  forall current, traced trace_id current l.
Proof.
  intros H current.
  inversion H as [l0 e Hg | l0 v achieved e Hg Hp
                  | l0 v achieved Hg Hp]; subst;
    inversion Hg; subst; cbn; auto;
    unfold closing_log; destruct (verbose a); cbn; auto;
    destruct (has_key "achieved" _); cbn; auto.
Qed.

Lemma processing_traced goal a l r a' :
  processing env goal a l r a' ->
  match l with
  | EvSpanCreate _ _ None (Ok trace_id) :: rest => traced trace_id None rest
  | [EvSpanCreate _ _ None (Raise e)] => r = Raise e
  | _ => False
  end.
Proof.
  intros H.
  inversion H as [l0 e a0 Hr | l1 trace_id j a0 l2 r0 Hr Hfin]; subst.
  - inversion Hr as [| trace_id l1 e1 a1 Hloop |]; subst; cbn; [reflexivity |].
    rewrite <- (app_nil_r l1).
    eapply looping_traced; [eassumption | intros c; exact I].
  - inversion Hr as [| | trace_id1 l0 j1 a1 Hloop]; subst. cbn.
    eapply looping_traced; [eassumption |].
    intros c. eapply finishing_traced. eassumption.
Qed.

(** X14. The first thing [process] does outside the agent is to open the
    trace, a span without parent; when that fails the run raises the
    failure and does nothing else.  Below the trace, every iteration span
    is a child of the trace, the Plan, Decide-Action and Reflect calls are
    children of the span of the iteration under way, the call for the
    final result is a child of the trace itself, and the only spans
    updated are that of the iteration under way and the trace. *)
Theorem process_span_discipline goal (s : St World) :
  let o := process env goal s in
  match log_of o with
  | EvSpanCreate _ _ None (Ok trace_id) :: rest => traced trace_id None rest
  | [EvSpanCreate _ _ None (Raise e)] => result_of o = Raise e
  | _ => False
  end.
Proof.
  intros o. exact (processing_traced _ _ _ _ _ (process_trace env goal s)).
Qed.
End Tracing.

(** ** The attribute [current_plan] *)

Section CurrentPlan.
Context {World : Type} (env : Env World) {cls : AgentClass World}.
Implicit Types (a : BaseAgent World).

Lemma looping_current_plan goal trace_id i a l r a' :
  looping env goal trace_id i a l r a' ->
  match r with
  | Ok _ =>
      exists cs,
        execution_history a' = execution_history a ++ cs /\
        plan_follows (current_plan a) cs a'
  | Raise _ => True
  end.
Proof.
  induction 1 as [i a Hi | i a l a' Hi Hit | i a l e a' Hi Hit
                  | i a l1 a1 l2 r a' Hi Hit Hloop IH].
  - exists []. rewrite app_nil_r. split; reflexivity.
  - destruct (iteration_frame _ _ _ _ _ _ _ _ Hit)
      as (_ & _ & cs & Hh & -> & ->).
    exists []. split; [exact Hh | reflexivity].
  - exact I.
  - destruct r as [j | e]; [| exact I].
    destruct (iteration_frame _ _ _ _ _ _ _ _ Hit)
      as (_ & _ & cs1 & Hh1 & plan & action & result & reflection
          & timestamp & -> & Hflag & Hplan).
    destruct IH as (cs2 & Hh2 & Hfollows).
    exists (make_cycle (i + 1) plan action result reflection timestamp
              :: cs2).
    split; [rewrite Hh2, Hh1, <- app_assoc; reflexivity |].
    unfold plan_follows in *. simpl rev.
    destruct (rev cs2) as [| c t]; simpl.
    + exists plan. split; [congruence |]. split; [reflexivity | exact Hflag].
    + exact Hfollows.
Qed.

Lemma processing_current_plan goal a l r a' :
  processing env goal a l r a' ->
  match r with
  | Ok _ => plan_follows (current_plan a) (execution_history a') a'
  | Raise _ => True
  end.
Proof.
  intros H.
  inversion H as [l0 e a0 Hr | l1 trace_id j a0 l2 r0 Hr Hfin]; subst;
    [exact I |].
  destruct r as [v | e]; [| exact I].
  inversion Hr as [| | trace_id1 l0 j1 a1 Hloop]; subst.
  apply looping_current_plan in Hloop. destruct Hloop as (cs & Hh & Hf).
  simpl in Hh. now rewrite Hh.
Qed.

(** X15. [process] resets the goal and the history but never
    [current_plan].  After a run that returns, [current_plan] is the plan
    of the last recorded cycle, a plan that did not report the goal
    achieved; the plan that ended the loop early is never stored.  After a
    run that recorded no cycle it is still what it was before the run,
    possibly the plan of an earlier goal. *)
Theorem current_plan_after_process goal (s : St World) :
  let o := process env goal s in
  let a' := self (state_of o) in
  match result_of o with
  | Ok _ =>
      match rev (execution_history a') with
      | [] => current_plan a' = current_plan (self s)
      | cycle :: _ =>
          exists plan,
            current_plan a' = Some plan /\
            field "plan" cycle = [Plan.dict plan] /\
            Plan.goal_achieved plan = false
      end
  | Raise _ => True
  end.
Proof.
  intros o a'.
  exact (processing_current_plan _ _ _ _ _ (process_trace env goal s)).
Qed.
End CurrentPlan.

(** ** The history against the events *)

Lemma event_fields_app t k l1 l2 :
  event_fields t k (l1 ++ l2) = event_fields t k l1 ++ event_fields t k l2.
Proof. unfold event_fields. rewrite emitted_app. apply flat_map_app. Qed.

Lemma recorded_app k h1 h2 :
  recorded k (h1 ++ h2) = recorded k h1 ++ recorded k h2.
Proof. apply flat_map_app. Qed.

Lemma announced_app t ke kc h1 l1 h2 l2 rest :
  announced t ke kc h1 l1 [] ->
  announced t ke kc h2 l2 rest ->
  announced t ke kc (h1 ++ h2) (l1 ++ l2) rest.
Proof.
  intros [H1 _] [H2 Hlen]. split; [| exact Hlen].
  rewrite event_fields_app, recorded_app, H1, H2, app_nil_r.
  now rewrite app_assoc.
Qed.

Lemma announced_nil t ke kc : announced t ke kc [] [] [].
Proof. split; [reflexivity | simpl; lia]. Qed.

Section HistoryEvents.
Context {World : Type} (env : Env World) {cls : AgentClass World}.
Implicit Types (a : BaseAgent World).

Ltac announce :=
  repeat match goal with
         | |- _ /\ _ => split
         | |- exists _, _ => eexists
         | |- announced _ _ _ _ _ _ => split; [reflexivity | simpl; lia]
         | |- _ -> _ =>
             let Hc := fresh in
             intros Hc; first [reflexivity | discriminate Hc]
         end.

Lemma iteration_announced goal trace_id i a l r a' :
  iteration env goal trace_id i a l r a' ->
  exists cs,
    execution_history a' = execution_history a ++ cs /\
    match r with
    | Ok Continue =>
        announced "reflection_completed" "reflection" "reflection" cs l [] /\
        announced "plan_created" "plan" "plan" cs l [] /\
        announced "action_decided" "action" "action" cs l [] /\
        announced "action_executed" "result" "action_result" cs l []
    | Ok Break => history_announced cs l true
    | Raise _ => history_announced cs l false
    end.
Proof.
  intros H. unfold history_announced.
  iteration_cases H;
    first [ exists []; split; [symmetry; apply app_nil_r |]
          | eexists; split; [reflexivity |] ];
    announce.
Qed.

Lemma history_announced_app cs1 l1 cs2 l2 closed :
  announced "reflection_completed" "reflection" "reflection" cs1 l1 [] ->
  announced "plan_created" "plan" "plan" cs1 l1 [] ->
  announced "action_decided" "action" "action" cs1 l1 [] ->
  announced "action_executed" "result" "action_result" cs1 l1 [] ->
  history_announced cs2 l2 closed ->
  history_announced (cs1 ++ cs2) (l1 ++ l2) closed.
Proof.
  intros Hr Hp Ha Hx (Hr2 & (rp & Hp2) & (ra & Ha2 & Hca) & (rx & Hx2 & Hcx)).
  split; [now apply announced_app |].
  split; [exists rp; now apply announced_app |].
  split; [exists ra | exists rx]; (split; [now apply announced_app | auto]).
Qed.

Lemma looping_announced goal trace_id i a l r a' :
  looping env goal trace_id i a l r a' ->
  exists cs,
    execution_history a' = execution_history a ++ cs /\
    history_announced cs l (match r with Ok _ => true | Raise _ => false end).
Proof.
  induction 1 as [i a Hi | i a l a' Hi Hit | i a l e a' Hi Hit
                  | i a l1 a1 l2 r a' Hi Hit Hloop IH].
  - exists []. split; [symmetry; apply app_nil_r |].
    unfold history_announced. announce.
  - exact (iteration_announced _ _ _ _ _ _ _ Hit).
  - exact (iteration_announced _ _ _ _ _ _ _ Hit).
  - destruct (iteration_announced _ _ _ _ _ _ _ Hit)
      as (cs1 & Hh1 & Hr & Hp & Ha & Hx).
    destruct IH as (cs2 & Hh2 & Hall).
    exists (cs1 ++ cs2).
    split; [rewrite Hh2, Hh1, app_assoc; reflexivity |].
    now apply history_announced_app.
Qed.

Lemma generates_emits_nothing goal h trace_id a l r t :
  generates goal h trace_id a l r -> emitted t l = [].
Proof. intros H. inversion H; reflexivity. Qed.

Lemma closing_emits_nothing goal a achieved v t :
  emitted t (closing_log goal a achieved v) = [].
Proof.
  unfold closing_log. destruct (verbose a); [| reflexivity].
  destruct (has_key "achieved" v); reflexivity.
Qed.

Lemma emitted_cons t ev l : emitted t (ev :: l) = emitted t [ev] ++ emitted t l.
Proof. exact (emitted_app t [ev] l). Qed.

Lemma emitted_emit t t' d :
  emitted t [EvEmit t' d] = if String.eqb t' t then [d] else [].
Proof. unfold emitted. simpl. apply app_nil_r. Qed.

Lemma finishing_emits goal trace_id j a l r t :
  finishing env goal trace_id j a l r ->
  t <> "goal_completed" -> emitted t l = [].
Proof.
  intros H Ht. apply String.eqb_neq in Ht. rewrite String.eqb_sym in Ht.
  inversion H as [l0 e Hg | l0 v achieved e Hg Hp
                  | l0 v achieved Hg Hp]; subst;
    rewrite ?emitted_app, ?closing_emits_nothing,
      (generates_emits_nothing _ _ _ _ _ _ t Hg);
    [reflexivity | |];
    rewrite (emitted_cons t (EvPredicate _ _ _)),
      (emitted_cons t (EvEmit _ _)), emitted_emit, Ht; reflexivity.
Qed.

Lemma announced_frame t ke kc h pre l post rest :
  emitted t pre = [] -> emitted t post = [] ->
  announced t ke kc h l rest ->
  announced t ke kc h (pre ++ l ++ post) rest.
Proof.
  intros Hpre Hpost [H Hlen]. split; [| exact Hlen].
  rewrite <- H. unfold event_fields.
  now rewrite !emitted_app, Hpre, Hpost, app_nil_r.
Qed.

Lemma history_announced_frame h pre l post closed :
  (forall t, In t cycle_statuses -> emitted t pre = []) ->
  (forall t, In t cycle_statuses -> emitted t post = []) ->
  history_announced h l closed ->
  history_announced h (pre ++ l ++ post) closed.
Proof.
  intros Hpre Hpost (Hr & (rp & Hp) & (ra & Ha & Hca) & (rx & Hx & Hcx)).
  unfold cycle_statuses in *.
  split; [apply announced_frame; simpl in *; auto 10 |].
  split; [exists rp; apply announced_frame; simpl in *; auto 10 |].
  split; [exists ra | exists rx];
    (split; [apply announced_frame; simpl in *; auto 10 | auto]).
Qed.

Lemma processing_announced goal a l r a' :
  processing env goal a l r a' ->
  history_announced (execution_history a') l
    (match r with Ok _ => true | Raise _ => false end).
Proof.
  assert (Hstart : forall trace_id t,
             In t cycle_statuses ->
             emitted t [ev_trace goal a (Ok trace_id); ev_goal_start goal a]
             = []).
  { intros trace_id t Ht. unfold cycle_statuses in Ht. simpl in Ht.
    destruct Ht as [<- | [<- | [<- | [<- | []]]]]; reflexivity. }
  assert (Hloop : forall trace_id l0 r0 post,
             looping env goal trace_id 0 (reset_for goal a) l0 r0 a' ->
             (forall t, In t cycle_statuses -> emitted t post = []) ->
             history_announced (execution_history a')
               ((ev_trace goal a (Ok trace_id) :: ev_goal_start goal a :: l0)
                ++ post)
               (match r0 with Ok _ => true | Raise _ => false end)).
  { intros trace_id l0 r0 post Hl Hpost.
    destruct (looping_announced _ _ _ _ _ _ _ Hl) as (cs & Hh & Hall).
    simpl in Hh. rewrite Hh.
    exact (history_announced_frame cs
             [ev_trace goal a (Ok trace_id); ev_goal_start goal a]
             l0 post _ (Hstart trace_id) Hpost Hall). }
  intros H.
  inversion H as [l0 e a0 Hr | l1 trace_id j a0 l2 r0 Hr Hfin]; subst.
  - inversion Hr as [| trace_id l1 e1 a1 Hl |]; subst.
    + unfold history_announced. simpl. announce.
    + rewrite <- (app_nil_r (_ :: _ :: l1)).
      exact (Hloop trace_id l1 (Raise e) [] Hl (fun _ _ => eq_refl)).
  - inversion Hr as [| | trace_id1 l0 j1 a1 Hl]; subst.
    assert (Hpost : forall t, In t cycle_statuses -> emitted t l2 = []).
    { intros t Ht. eapply finishing_emits; [eassumption |].
      unfold cycle_statuses in Ht. simpl in Ht.
      destruct Ht as [<- | [<- | [<- | [<- | []]]]]; discriminate. }
    pose proof (Hloop trace_id l0 (Ok j) l2 Hl Hpost) as Hall.
    destruct r as [v | e]; [exact Hall |].
    destruct Hall as (Hr' & Hp & (ra & Ha & _) & (rx & Hx & _)).
    split; [exact Hr' |]. split; [exact Hp |].
    split; [exists ra | exists rx]; (split; [assumption | discriminate]).
Qed.

(** X16. What a run records is what it announced.  The reflections in the
    history are exactly those of the [reflection_completed] events, in
    every run.  The plans, actions and action results in the history are
    those of the [plan_created], [action_decided] and [action_executed]
    events, in order; the events may carry one value more than the
    history, that of an iteration that did not complete, and for the
    actions and their results only in a run that raises.  So a cycle is
    recorded for every reflection announced, also when the update of the
    iteration span fails right after. *)
Theorem history_matches_events goal (s : St World) :
  let o := process env goal s in
  history_announced (execution_history (self (state_of o))) (log_of o)
    (match result_of o with Ok _ => true | Raise _ => false end).
Proof.
  intros o. exact (processing_announced _ _ _ _ _ (process_trace env goal s)).
Qed.
End HistoryEvents.

(** ** The final result under an output schema *)

Lemma final_calls_app l1 l2 :
  final_calls (l1 ++ l2) = final_calls l1 ++ final_calls l2.
Proof. apply filter_app. Qed.

Section FinalCall.
Context {World : Type} (env : Env World) {cls : AgentClass World}.
Implicit Types (a : BaseAgent World).

Lemma iteration_no_final goal trace_id i a l r a' :
  iteration env goal trace_id i a l r a' ->
  final_calls l = [] /\ emitted "goal_completed" l = [].
Proof. intros H. iteration_cases H; cbn; auto. Qed.

Lemma looping_no_final goal trace_id i a l r a' :
  looping env goal trace_id i a l r a' ->
  final_calls l = [] /\ emitted "goal_completed" l = [].
Proof.
  induction 1 as [i a Hi | i a l a' Hi Hit | i a l e a' Hi Hit
                  | i a l1 a1 l2 r a' Hi Hit Hloop IH].
  - auto.
  - eapply iteration_no_final; eassumption.
  - eapply iteration_no_final; eassumption.
  - destruct (iteration_no_final _ _ _ _ _ _ _ Hit) as [H1 H2].
    destruct IH as [H3 H4].
    now rewrite final_calls_app, emitted_app, H1, H2, H3, H4.
Qed.

Lemma closing_no_final goal a achieved v :
  final_calls (closing_log goal a achieved v) = [].
Proof.
  unfold closing_log. destruct (verbose a); [| reflexivity].
  destruct (has_key "achieved" v); reflexivity.
Qed.

Ltac final_shape :=
  right; eexists _, _, _;
  split; [eassumption |];
  split; [| split; [reflexivity |]]; [assumption |]; cbn.

Lemma finishing_final_call goal trace_id j a l r :
  finishing env goal trace_id j a l r ->
  (final_calls l = [] /\ (forall v, r = Ok v -> output_schema a = None)) \/
  exists schema achieved r0,
    output_schema a = Some schema /\
    is_goal_achieved_method goal (execution_history a) = Ok achieved /\
    final_calls l
    = [EvCall "generate_final_result"
         (final_context goal (execution_history a) a achieved)
         schema trace_id r0] /\
    match r0 with
    | Ok v => forall v', r = Ok v' -> v' = v
    | Raise e => r = Raise e /\ emitted "goal_completed" l = []
    end.
Proof.
  intros H.
  inversion H as [l0 e Hg | l0 v achieved e Hg Hp
                  | l0 v achieved Hg Hp]; subst;
    inversion Hg; subst;
    rewrite ?final_calls_app, ?closing_no_final, ?app_nil_r.
  - left. split; [reflexivity | discriminate].
  - final_shape. auto.
  - left. split; [reflexivity | discriminate].
  - final_shape. discriminate.
  - left. split; [reflexivity | auto].
  - final_shape. intros v' Hv. now inversion Hv.
Qed.

Lemma processing_final_call goal a l r a' :
  processing env goal a l r a' ->
  (final_calls l = [] /\ (forall v, r = Ok v -> output_schema a' = None)) \/
  exists trace_id schema achieved r0,
    hd_error l = Some (ev_trace goal a (Ok trace_id)) /\
    output_schema a' = Some schema /\
    is_goal_achieved_method goal (execution_history a') = Ok achieved /\
    final_calls l
    = [EvCall "generate_final_result"
         (final_context goal (execution_history a') a' achieved)
         schema trace_id r0] /\
    match r0 with
    | Ok v => forall v', r = Ok v' -> v' = v
    | Raise e => r = Raise e /\ emitted "goal_completed" l = []
    end.
Proof.
  intros H.
  inversion H as [l0 e a0 Hr | l1 trace_id j a0 l2 r0 Hr Hfin]; subst.
  - left. split; [| discriminate].
    inversion Hr as [| trace_id l1 e1 a1 Hl |]; subst; [reflexivity |].
    destruct (looping_no_final _ _ _ _ _ _ _ Hl) as [Hf _]. exact Hf.
  - inversion Hr as [| | trace_id1 l0 j1 a1 Hl]; subst.
    destruct (looping_no_final _ _ _ _ _ _ _ Hl) as [Hf He].
    assert (Hcalls : final_calls
                       ((ev_trace goal a (Ok trace_id)
                           :: ev_goal_start goal a :: l0) ++ l2)
                     = final_calls l2).
    { rewrite final_calls_app.
      change (final_calls (ev_trace goal a (Ok trace_id)
                             :: ev_goal_start goal a :: l0))
        with (final_calls l0).
      now rewrite Hf. }
    assert (Hdone : emitted "goal_completed"
                      ((ev_trace goal a (Ok trace_id)
                          :: ev_goal_start goal a :: l0) ++ l2)
                    = emitted "goal_completed" l2).
    { rewrite emitted_app.
      change (emitted "goal_completed"
                (ev_trace goal a (Ok trace_id)
                   :: ev_goal_start goal a :: l0))
        with (emitted "goal_completed" l0).
      now rewrite He. }
    rewrite Hcalls, Hdone.
    destruct (finishing_final_call _ _ _ _ _ _ Hfin)
      as [Hnone | (schema & achieved & r0 & Hs & Hp & Hc & Hcase)].
    + left. exact Hnone.
    + right. exists trace_id, schema, achieved, r0. auto.
Qed.

(** X19. With an output schema, what [process] returns is the payload of
    the one [generate_final_result] call, as the model gave it.  The call
    is a child of the trace and is given the goal, the recorded history,
    the agent's description, the value of the goal predicate and the
    number of recorded cycles.  If a [generate_final_result] call fails,
    [process] raises its failure and no [goal_completed] event is
    emitted. *)
Theorem schema_final_result goal (s : St World) schema :
  output_schema (self s) = Some schema ->
  let o := process env goal s in
  let a' := self (state_of o) in
  let h := execution_history a' in
  (forall v,
     result_of o = Ok v ->
     exists achieved trace_id,
       is_goal_achieved_method goal h = Ok achieved /\
       hd_error (log_of o) = Some (ev_trace goal (self s) (Ok trace_id)) /\
       final_calls (log_of o)
       = [EvCall "generate_final_result"
            (PDict [("goal", PStr goal);
                    ("execution_history", PList h);
                    ("agent_description", PStr (description (self s)));
                    ("goal_achieved", achieved);
                    ("iterations", PInt (Z.of_nat (length h)))])
            schema trace_id (Ok v)]) /\
  (forall input schema' parent e,
     In (EvCall "generate_final_result" input schema' parent (Raise e))
       (log_of o) ->
     result_of o = Raise e /\ emitted "goal_completed" (log_of o) = []).
Proof.
  intros Hschema o a' h.
  destruct (process_facts env goal s) as (Hconfig & _).
  fold o in Hconfig. fold a' in Hconfig.
  assert (Hs : output_schema a' = Some schema).
  { unfold config in Hconfig. inversion Hconfig. congruence. }
  assert (Hd : description a' = description (self s)).
  { unfold config in Hconfig. now inversion Hconfig. }
  pose proof (processing_final_call _ _ _ _ _ (process_trace env goal s))
    as Hcase.
  fold o in Hcase. fold a' in Hcase. fold h in Hcase.
  split.
  - intros v Hv.
    destruct Hcase as [[_ Hnone] | (trace_id & schema' & achieved & r0
                                     & Hhd & Hs' & Hp & Hc & Hr0)].
    + specialize (Hnone v Hv). congruence.
    + exists achieved, trace_id. split; [exact Hp |]. split; [exact Hhd |].
      rewrite Hc. unfold final_context. rewrite Hd.
      destruct r0 as [v0 | e].
      * rewrite (Hr0 v Hv). congruence.
      * destruct Hr0 as [Hr0 _]. congruence.
  - intros input schema' parent e Hin.
    assert (Hin' : In (EvCall "generate_final_result" input schema' parent
                         (Raise e)) (final_calls (log_of o))).
    { apply filter_In. split; [exact Hin | reflexivity]. }
    destruct Hcase as [[Hnil _] | (trace_id & schema'' & achieved & r0
                                    & _ & _ & _ & Hc & Hr0)].
    + rewrite Hnil in Hin'. destruct Hin'.
    + rewrite Hc in Hin'. destruct Hin' as [Heq | []].
      inversion Heq; subst. exact Hr0.
Qed.
End FinalCall.

(** ** The iteration numbers in the events *)

Lemma event_iterations_app t l1 l2 :
  event_iterations t (l1 ++ l2)
  = event_iterations t l1 ++ event_iterations t l2.
Proof. unfold event_iterations. rewrite emitted_app. apply flat_map_app. Qed.

Lemma in_cycle_statuses (P : string -> Prop) :
  P "plan_created" -> P "action_decided" -> P "action_executed" ->
  P "reflection_completed" ->
  forall t, In t cycle_statuses -> P t.
Proof.
  intros H1 H2 H3 H4 t Ht. unfold cycle_statuses in Ht. simpl in Ht.
  destruct Ht as [<- | [<- | [<- | [<- | []]]]]; assumption.
Qed.

Section EventIterations.
Context {World : Type} (env : Env World) {cls : AgentClass World}.
Implicit Types (a : BaseAgent World).

Lemma iteration_event_numbers goal trace_id i a l r a' :
  iteration env goal trace_id i a l r a' ->
  forall t,
    In t cycle_statuses ->
    match r with
    | Ok Continue =>
        length (emitted t l) = 1%nat /\ event_iterations t l = [PInt i]
    | _ =>
        emitted t l = [] \/
        length (emitted t l) = 1%nat /\ event_iterations t l = [PInt i]
    end.
Proof.
  intros H.
  apply in_cycle_statuses; iteration_cases H; cbn; auto.
Qed.

Lemma numbers_from_one i t l :
  (emitted t l = [] \/
   length (emitted t l) = 1%nat /\ event_iterations t l = [PInt (i + 1)]) ->
  event_iterations t l
  = map (fun n => PInt (i + Z.of_nat n)) (seq 1 (length (emitted t l))).
Proof.
  intros [H | [Hlen H]].
  - unfold event_iterations. now rewrite H.
  - now rewrite Hlen, H.
Qed.

Lemma looping_event_numbers goal trace_id i a l r a' :
  looping env goal trace_id i a l r a' ->
  forall t,
    In t cycle_statuses ->
    event_iterations t l
    = map (fun n => PInt (i + Z.of_nat n)) (seq 1 (length (emitted t l))).
Proof.
  induction 1 as [i a Hi | i a l a' Hi Hit | i a l e a' Hi Hit
                  | i a l1 a1 l2 r a' Hi Hit Hloop IH];
    intros t Ht.
  - reflexivity.
  - apply numbers_from_one.
    exact (iteration_event_numbers _ _ _ _ _ _ _ Hit t Ht).
  - apply numbers_from_one.
    exact (iteration_event_numbers _ _ _ _ _ _ _ Hit t Ht).
  - destruct (iteration_event_numbers _ _ _ _ _ _ _ Hit t Ht) as [Hlen H1].
    rewrite event_iterations_app, emitted_app, length_app, Hlen, H1,
      (IH t Ht).
    simpl. f_equal.
    rewrite <- (seq_shift (length (emitted t l2)) 1), map_map.
    apply map_ext. intros n. f_equal. lia.
Qed.

Lemma processing_event_numbers goal a l r a' :
  processing env goal a l r a' ->
  forall t,
    In t cycle_statuses ->
    event_iterations t l
    = map (fun n => PInt (Z.of_nat n)) (seq 1 (length (emitted t l))).
Proof.
  intros H t Ht.
  assert (Hstart : forall trace_id l0,
             emitted t (ev_trace goal a (Ok trace_id)
                          :: ev_goal_start goal a :: l0)
             = emitted t l0).
  { intros trace_id l0. revert t Ht.
    apply in_cycle_statuses; reflexivity. }
  assert (Hloop : forall trace_id l0 r0,
             looping env goal trace_id 0 (reset_for goal a) l0 r0 a' ->
             event_iterations t l0
             = map (fun n => PInt (Z.of_nat n))
                 (seq 1 (length (emitted t l0)))).
  { intros trace_id l0 r0 Hl.
    exact (looping_event_numbers _ _ _ _ _ _ _ Hl t Ht). }
  inversion H as [l0 e a0 Hr | l1 trace_id j a0 l2 r0 Hr Hfin]; subst.
  - inversion Hr as [| trace_id l1 e1 a1 Hl |]; subst; [reflexivity |].
    unfold event_iterations. rewrite Hstart. eapply Hloop. eassumption.
  - inversion Hr as [| | trace_id1 l0 j1 a1 Hl]; subst.
    assert (Hpost : emitted t l2 = []).
    { eapply finishing_emits; [eassumption |].
      apply (in_cycle_statuses (fun t => t <> "goal_completed"));
        [discriminate .. | exact Ht]. }
    unfold event_iterations.
    rewrite emitted_app, Hpost, app_nil_r, Hstart.
    eapply Hloop. eassumption.
Qed.

(** X17. The events of an iteration carry the loop counter, which starts
    at 1: in every run, the [k]-th [plan_created] event carries
    [iteration = k], and so do the [k]-th [action_decided],
    [action_executed] and [reflection_completed] events. *)
Theorem events_number_iterations_from_one goal (s : St World) :
  let l := log_of (process env goal s) in
  Forall (fun t =>
            event_iterations t l
            = map (fun n => PInt (Z.of_nat n))
                (seq 1 (length (emitted t l))))
    cycle_statuses.
Proof.
  intros l. apply Forall_forall.
  exact (processing_event_numbers _ _ _ _ _ (process_trace env goal s)).
Qed.
End EventIterations.

(** ** What the model is told *)

Lemma informed_app {World} goal d (ts : list (Tool.t World)) l1 l2 :
  informed goal d ts l1 -> informed goal d ts l2 ->
  informed goal d ts (l1 ++ l2).
Proof.
  intros (H1 & H2 & H3) (H4 & H5 & H6). unfold informed.
  rewrite !inputs_app. repeat split; apply Forall_app; auto.
Qed.

Section ModelInputs.
Context {World : Type} (env : Env World) {cls : AgentClass World}.
Implicit Types (a : BaseAgent World).

Lemma iteration_informed goal trace_id i a l r a' :
  iteration env goal trace_id i a l r a' ->
  current_goal a = Some goal ->
  informed goal (description a) (tools a) l.
Proof.
  intros H Hgoal. unfold informed.
  iteration_cases H; cbn; repeat constructor;
    unfold reflect_context; rewrite Hgoal; reflexivity.
Qed.

Lemma looping_informed goal trace_id i a l r a' :
  looping env goal trace_id i a l r a' ->
  current_goal a = Some goal ->
  informed goal (description a) (tools a) l.
Proof.
  induction 1 as [i a Hi | i a l a' Hi Hit | i a l e a' Hi Hit
                  | i a l1 a1 l2 r a' Hi Hit Hloop IH];
    intros Hgoal.
  - repeat constructor.
  - eapply iteration_informed; eassumption.
  - eapply iteration_informed; eassumption.
  - destruct (iteration_frame _ _ _ _ _ _ _ _ Hit) as (Hc & Hg & _).
    apply informed_app; [eapply iteration_informed; eassumption |].
    assert (Hts : tools a1 = tools a)
      by (unfold config in Hc; now inversion Hc).
    assert (Hd : description a1 = description a)
      by (unfold config in Hc; now inversion Hc).
    rewrite <- Hts, <- Hd. apply IH. congruence.
Qed.

Lemma generates_informed goal h trace_id a l r d (ts : list (Tool.t World)) :
  generates goal h trace_id a l r -> informed goal d ts l.
Proof. intros H. inversion H; subst; repeat constructor. Qed.

Lemma finishing_informed goal trace_id j a l r d
  (ts : list (Tool.t World)) :
  finishing env goal trace_id j a l r -> informed goal d ts l.
Proof.
  intros H.
  inversion H as [l0 e Hg | l0 v achieved e Hg Hp
                  | l0 v achieved Hg Hp]; subst.
  - eapply generates_informed; eassumption.
  - apply informed_app; [eapply generates_informed; eassumption |].
    repeat constructor.
  - apply informed_app; [eapply generates_informed; eassumption |].
    apply informed_app; [repeat constructor |].
    unfold closing_log. destruct (verbose a); [| repeat constructor].
    destruct (has_key "achieved" v); repeat constructor.
Qed.

Lemma processing_informed goal a l r a' :
  processing env goal a l r a' ->
  informed goal (description a) (tools a) l.
Proof.
  assert (Hloop : forall trace_id l0 r0,
             looping env goal trace_id 0 (reset_for goal a) l0 r0 a' ->
             informed goal (description a) (tools a)
               (ev_trace goal a (Ok trace_id) :: ev_goal_start goal a :: l0)).
  { intros trace_id l0 r0 Hl.
    exact (looping_informed _ _ _ _ _ _ _ Hl eq_refl). }
  intros H.
  inversion H as [l0 e a0 Hr | l1 trace_id j a0 l2 r0 Hr Hfin]; subst.
  - inversion Hr as [| trace_id l1 e1 a1 Hl |]; subst;
      [repeat constructor | eauto].
  - inversion Hr as [| | trace_id1 l0 j1 a1 Hl]; subst.
    apply informed_app; [eauto |].
    eapply finishing_informed; eassumption.
Qed.

(** X20. In every Plan call of a run the model is given the goal of the
    run, the agent's description and, for each registered tool, its name
    and description, without its parameters.  In every Decide-Action call
    it is given the tools with their parameters.  In every Reflect call
    it is given the goal of the run, which [process] has stored in
    [current_goal].  The registry and the description are those the run
    started with. *)
Theorem model_is_told_goal_and_tools goal (s : St World) :
  informed goal (description (self s)) (tools (self s))
    (log_of (process env goal s)).
Proof. exact (processing_informed _ _ _ _ _ (process_trace env goal s)). Qed.
End ModelInputs.

(** ** Starting afresh *)

Section PlanBlind.
Context {World : Type}.
Implicit Types (a : BaseAgent World) (s : St World).

Lemma same_plan_fields a1 a2 :
  same_but_plan a1 a2 ->
  name a1 = name a2 /\ max_iterations a1 = max_iterations a2 /\
  output_schema a1 = output_schema a2 /\
  execution_history a1 = execution_history a2 /\
  current_goal a1 = current_goal a2 /\ tools a1 = tools a2 /\
  description a1 = description a2 /\ verbose a1 = verbose a2 /\
  callback a1 = callback a2.
Proof.
  intros H. unfold same_but_plan, set_current_plan in H. now inversion H.
Qed.

Lemma same_plan_update (f : BaseAgent World -> BaseAgent World) a1 a2 :
  (forall a, set_current_plan None (f a) = f (set_current_plan None a)) ->
  same_but_plan a1 a2 -> same_but_plan (f a1) (f a2).
Proof. unfold same_but_plan. intros Hf H. now rewrite !Hf, H. Qed.

Lemma plan_rel_ret {A} (x : A) : plan_rel (World := World) (ret x) (ret x).
Proof. intros s1 s2 H. repeat split; apply H. Qed.

Lemma plan_rel_lift {A} (r : Res A) :
  plan_rel (World := World) (lift r) (lift r).
Proof. intros s1 s2 H. repeat split; apply H. Qed.

Lemma plan_rel_validate {A} schema (new : pyval -> Res A) payload :
  plan_rel (World := World) (validate schema new payload)
    (validate schema new payload).
Proof. intros s1 s2 H. repeat split; apply H. Qed.

Lemma plan_rel_is_goal_achieved {cls : AgentClass World} goal h :
  plan_rel (World := World) (call_is_goal_achieved goal h)
    (call_is_goal_achieved goal h).
Proof. intros s1 s2 H. repeat split; apply H. Qed.

Lemma plan_rel_extern {A} (op : World -> Res A * World) ev :
  plan_rel (extern op ev) (extern op ev).
Proof.
  intros s1 s2 [Ha Hw]. unfold extern, result_of, state_of, log_of.
  rewrite Hw. destruct (op (world s2)) as [r w]. simpl.
  repeat split; auto.
Qed.

Lemma plan_rel_read_clock (clock : World -> Q * World) :
  plan_rel (read_clock clock) (read_clock clock).
Proof.
  intros s1 s2 [Ha Hw]. unfold read_clock, result_of, state_of, log_of.
  rewrite Hw. destruct (clock (world s2)) as [t w]. simpl.
  repeat split; auto.
Qed.

Lemma plan_rel_modify_self (f : BaseAgent World -> BaseAgent World) :
  (forall a, set_current_plan None (f a) = f (set_current_plan None a)) ->
  plan_rel (modify_self f) (modify_self f).
Proof.
  intros Hf s1 s2 [Ha Hw]. repeat split; simpl; auto.
  now apply same_plan_update.
Qed.

(** The one assignment to [current_plan]. *)
Lemma plan_rel_set_current_plan p :
  plan_rel (World := World) (modify_self (set_current_plan p))
    (modify_self (set_current_plan p)).
Proof. intros s1 s2 [Ha Hw]. repeat split; simpl; auto. Qed.

Lemma plan_rel_bind {A B} (m1 m2 : M World A) (f1 f2 : A -> M World B) :
  plan_rel m1 m2 -> (forall x, plan_rel (f1 x) (f2 x)) ->
  plan_rel (bind m1 f1) (bind m2 f2).
Proof.
  intros Hm Hf s1 s2 Hs. destruct (Hm s1 s2 Hs) as (Hr & Hl & Hs').
  unfold bind, result_of, state_of, log_of in *.
  destruct (m1 s1) as [[r1 t1] l1], (m2 s2) as [[r2 t2] l2].
  simpl in *. subst r2 l2. destruct r1 as [x | e]; simpl; [| auto].
  destruct (Hf x t1 t2 Hs') as (Hr2 & Hl2 & Hs2).
  unfold result_of, state_of, log_of in *.
  destruct (f1 x t1) as [[r3 t3] l3], (f2 x t2) as [[r4 t4] l4].
  simpl in *. subst. auto.
Qed.

Lemma plan_rel_get_self {A} (f1 f2 : BaseAgent World -> M World A) :
  (forall a1 a2, same_but_plan a1 a2 -> plan_rel (f1 a1) (f2 a2)) ->
  plan_rel (bind get_self f1) (bind get_self f2).
Proof.
  intros Hf s1 s2 Hs. pose proof Hs as [Ha _].
  destruct (Hf _ _ Ha s1 s2 Hs) as (Hr & Hl & Hs').
  unfold bind, get_self, result_of, state_of, log_of in *. simpl.
  destruct (f1 (self s1) s1) as [[r3 t3] l3],
           (f2 (self s2) s2) as [[r4 t4] l4].
  simpl in *. auto.
Qed.

Lemma plan_rel_emit_status event_type data :
  plan_rel (World := World) (_emit_status event_type data)
    (_emit_status event_type data).
Proof.
  intros [a1 w1] [a2 w2] [Ha Hw]. simpl in Ha, Hw. subst w1.
  destruct (same_plan_fields _ _ Ha) as (_ & _ & _ & _ & _ & _ & _ & _ & Hcb).
  unfold _emit_status, bind, tell, get_self, try_except, extern, ret,
    result_of, state_of, log_of, plan_srel. simpl. rewrite Hcb.
  destruct (callback a2) as [f |]; simpl; [| auto].
  destruct (f event_type data w2) as [[[] | e] u]; simpl; auto.
Qed.

Lemma plan_rel_execute_action (action : Action.t) :
  plan_rel (World := World) (_execute_action action)
    (_execute_action action).
Proof.
  unfold _execute_action.
  destruct (String.eqb (Action.tool_name action) "direct_response");
    [apply plan_rel_ret |].
  apply plan_rel_get_self. intros a1 a2 Ha.
  destruct (same_plan_fields _ _ Ha) as (_ & _ & _ & _ & _ & Ht & _).
  unfold get_tool. rewrite Ht.
  destruct (find_tool (Action.tool_name action) (tools a2)) as [tool |];
    [| apply plan_rel_ret].
  intros [b1 w1] [b2 w2] [Hs Hw]. simpl in Hs, Hw. subst w1.
  unfold try_except, bind, extern, ret, result_of, state_of, log_of,
    plan_srel.
  simpl.
  destruct (Tool.execute tool (Action.tool_parameters action) w2)
    as [[v | e] w]; simpl; auto.
Qed.
End PlanBlind.

Ltac plan_fields Ha :=
  let Hn := fresh "Hn" in let Hm := fresh "Hm" in let Ho := fresh "Ho" in
  let Hh := fresh "Hh" in let Hg := fresh "Hg" in let Ht := fresh "Ht" in
  let Hd := fresh "Hd" in let Hv := fresh "Hv" in
  destruct (same_plan_fields _ _ Ha)
    as (Hn & Hm & Ho & Hh & Hg & Ht & Hd & Hv & _);
  cbn beta; rewrite ?Hn, ?Hm, ?Ho, ?Hh, ?Hg, ?Ht, ?Hd, ?Hv.

Ltac plan_step :=
  first
    [ apply plan_rel_ret | apply plan_rel_lift | apply plan_rel_validate
    | apply plan_rel_is_goal_achieved | apply plan_rel_extern
    | apply plan_rel_read_clock
    | apply plan_rel_emit_status | apply plan_rel_execute_action
    | apply plan_rel_set_current_plan
    | apply plan_rel_modify_self; intros ?; reflexivity
    | apply plan_rel_get_self;
      let a1 := fresh "a" in let a2 := fresh "a" in let Ha := fresh "Ha" in
      intros a1 a2 Ha; plan_fields Ha
    | apply plan_rel_bind; [| intros ?] ].

Section FreshStart.
Context {World : Type} (env : Env World) {cls : AgentClass World}.

Lemma plan_rel_loop_body goal trace_id iteration :
  plan_rel (loop_body env goal trace_id iteration)
    (loop_body env goal trace_id iteration).
Proof.
  unfold loop_body, create_span, _create_plan, _decide_action,
    _reflect_on_result, update_span, call_llm.
  repeat plan_step.
  match goal with
  | |- context [Plan.goal_achieved ?p] => destruct (Plan.goal_achieved p)
  end; repeat plan_step.
Qed.

Lemma plan_rel_while_loop fuel goal trace_id : forall iteration,
  plan_rel (while_loop env fuel goal trace_id iteration)
    (while_loop env fuel goal trace_id iteration).
Proof.
  induction fuel as [| fuel IH]; intros iteration; simpl; plan_step.
  - match goal with
    | |- context [iteration <? ?n] => destruct (iteration <? n)
    end; plan_step.
  - match goal with
    | |- context [iteration <? ?n] => destruct (iteration <? n)
    end; [| plan_step].
    plan_step; [apply plan_rel_loop_body |].
    match goal with x : LoopCtl |- _ => destruct x end;
      [apply IH | plan_step].
Qed.

Lemma plan_rel_process goal : plan_rel (process env goal) (process env goal).
Proof.
  unfold process, start_trace, create_span, _generate_final_result,
    update_span, call_llm.
  repeat plan_step; try apply plan_rel_while_loop;
    repeat match goal with
           | |- context [output_schema ?a] => destruct (output_schema a)
           | |- context [verbose ?a] => destruct (verbose a)
           | |- context [has_key ?k ?v] => destruct (has_key k v)
           end;
    repeat plan_step.
Qed.

(** X18. A run does not depend on what an earlier run left in the agent.
    [process] overwrites [current_goal] and [execution_history] before it
    does anything else, and it never reads [current_plan]: whatever the
    three were, the run gives the same result, does the same things in
    the same order, leaves the world the same and records the same
    history. *)
Theorem process_forgets_earlier_runs goal (s : St World) (h : list pyval)
  (g : option string) (p : option Plan.t) :
  let before :=
    {| self :=
         set_current_plan p
           (set_execution_history h (set_current_goal g (self s)));
       world := world s |} in
  let o := process env goal s in
  let o' := process env goal before in
  result_of o' = result_of o /\ log_of o' = log_of o /\
  world (state_of o') = world (state_of o) /\
  execution_history (self (state_of o'))
  = execution_history (self (state_of o)) /\
  current_goal (self (state_of o')) = current_goal (self (state_of o)).
Proof.
  intros before o o'.
  assert (Hreset : process env goal
                     {| self := set_execution_history h
                                  (set_current_goal g (self s));
                        world := world s |}
                   = o) by reflexivity.
  destruct (plan_rel_process goal before
              {| self := set_execution_history h
                           (set_current_goal g (self s));
                 world := world s |})
    as (Hr & Hl & Ha & Hw); [split; reflexivity |].
  rewrite Hreset in Hr, Hl, Ha, Hw. fold o' in Hr, Hl, Ha, Hw.
  destruct (same_plan_fields _ _ Ha) as (_ & _ & _ & Hh & Hg & _).
  auto.
Qed.
End FreshStart.

(** ** How a run starts *)

Section RunStart.
Context {World : Type} (env : Env World) {cls : AgentClass World}.
Implicit Types (a : BaseAgent World).

Lemma iteration_no_goal_start goal trace_id i a l r a' :
  iteration env goal trace_id i a l r a' -> emitted "goal_start" l = [].
Proof. intros H. iteration_cases H; reflexivity. Qed.

Lemma looping_no_goal_start goal trace_id i a l r a' :
  looping env goal trace_id i a l r a' -> emitted "goal_start" l = [].
Proof.
  induction 1 as [i a Hi | i a l a' Hi Hit | i a l e a' Hi Hit
                  | i a l1 a1 l2 r a' Hi Hit Hloop IH].
  - reflexivity.
  - eapply iteration_no_goal_start; eassumption.
  - eapply iteration_no_goal_start; eassumption.
  - rewrite emitted_app, IH.
    now rewrite (iteration_no_goal_start _ _ _ _ _ _ _ Hit).
Qed.

Lemma processing_start goal a l r a' :
  processing env goal a l r a' ->
  exists opened,
    hd_error l = Some (ev_trace goal a opened) /\
    emitted "goal_start" l
    = match opened with
      | Ok _ => [PDict [("goal", PStr goal);
                        ("agent_name", PStr (name a));
                        ("available_tools", PList (map PStr (list_tools a)))]]
      | Raise _ => []
      end /\
    match opened with
    | Ok _ => True
    | Raise e => r = Raise e /\ l = [ev_trace goal a opened]
    end.
Proof.
  assert (Hnames : map (fun tool => PStr (Tool.name tool)) (tools a)
                   = map PStr (list_tools a)).
  { unfold list_tools. now rewrite map_map. }
  intros H.
  inversion H as [l0 e a0 Hr | l1 trace_id j a0 l2 r0 Hr Hfin]; subst.
  - inversion Hr as [| trace_id l1 e1 a1 Hl |]; subst.
    + exists (Raise e). auto.
    + exists (Ok trace_id). split; [reflexivity |]. split; [| exact I].
      change (emitted "goal_start"
                (ev_trace goal a (Ok trace_id) :: ev_goal_start goal a :: l1))
        with (PDict [("goal", PStr goal);
                     ("agent_name", PStr (name a));
                     ("available_tools",
                      PList (map (fun tool => PStr (Tool.name tool))
                               (tools a)))]
              :: emitted "goal_start" l1).
      now rewrite (looping_no_goal_start _ _ _ _ _ _ _ Hl), Hnames.
  - inversion Hr as [| | trace_id1 l0 j1 a1 Hl]; subst.
    exists (Ok trace_id). split; [reflexivity |]. split; [| exact I].
    rewrite emitted_app.
    rewrite (finishing_emits env _ _ _ _ _ _ "goal_start" Hfin)
      by discriminate.
    change (emitted "goal_start"
              (ev_trace goal a (Ok trace_id) :: ev_goal_start goal a :: l0))
      with (PDict [("goal", PStr goal);
                   ("agent_name", PStr (name a));
                   ("available_tools",
                    PList (map (fun tool => PStr (Tool.name tool))
                             (tools a)))]
            :: emitted "goal_start" l0).
    now rewrite (looping_no_goal_start _ _ _ _ _ _ _ Hl), Hnames, app_nil_r.
Qed.

(** X22. A run opens with the trace: a span without parent, named after
    the agent, whose input is the goal, or nothing when the goal is the
    empty string.  If opening it fails the run raises that failure having
    done nothing else.  Otherwise [goal_start] is emitted, once in the
    whole run, with the goal, the agent's name and the names of the
    registered tools as [list_tools] gives them. *)
Theorem process_opens_trace goal (s : St World) :
  let o := process env goal s in
  let a := self s in
  exists opened,
    hd_error (log_of o)
    = Some (EvSpanCreate (name a)
              (if String.eqb goal "" then None else Some goal) None opened) /\
    emitted "goal_start" (log_of o)
    = match opened with
      | Ok _ => [PDict [("goal", PStr goal);
                        ("agent_name", PStr (name a));
                        ("available_tools", PList (map PStr (list_tools a)))]]
      | Raise _ => []
      end /\
    match opened with
    | Ok _ => True
    | Raise e =>
        result_of o = Raise e /\
        log_of o = [EvSpanCreate (name a)
                      (if String.eqb goal "" then None else Some goal)
                      None opened]
    end.
Proof.
  intros o a. exact (processing_start _ _ _ _ _ (process_trace env goal s)).
Qed.
End RunStart.

(** ** A freshly constructed agent *)

Section Construction.
Context {World : Type} (env : Env World).

(** X21. [BaseAgent] constructed without tools and without a description
    takes both from its class: for [BaseAgent] itself, no tools and the
    description [AI agent named] followed by its name.  A tool list or a
    description that is passed is kept as it is, also when it is empty.
    An agent constructed without tools answers every action that names a
    tool with the [not found] error. *)
Theorem bare_agent_defaults (cls : AgentClass World) name max_iterations
  verbose output_schema callback (ts : list (Tool.t World)) d
  (action : Action.t) (w : World) :
  let bare :=
    __init__ (cls := BaseAgentClass World) name max_iterations verbose
      output_schema None None callback in
  let given :=
    __init__ (cls := cls) name max_iterations verbose output_schema
      (Some ts) (Some d) callback in
  tools bare = [] /\
  description bare = ("AI agent named " ++ name)%string /\
  get_tools_summary bare = ("Agent '" ++ name ++ "' tools: ")%string /\
  tools given = ts /\ description given = d /\
  execution_history given = [] /\ current_goal given = None /\
  current_plan given = None /\
  (Action.tool_name action <> "direct_response" ->
   _execute_action action {| self := bare; world := w |}
   = (Ok (PDict [("type", PStr "error");
                 ("result",
                  PStr ("Tool '" ++ Action.tool_name action
                        ++ "' not found")%string);
                 ("success", PBool false)]),
      {| self := bare; world := w |}, [])).
Proof.
  intros bare given.
  split; [reflexivity |]. split; [reflexivity |].
  split.
  { unfold get_tools_summary, list_tools. simpl. rewrite ?str_app_nil_r.
    reflexivity. }
  do 5 (split; [reflexivity |]).
  intros Hn. now apply execute_missing_tool.
Qed.
End Construction.

(** ** The status callbacks during a run *)

Lemma after_start_silent {Out} (print : string -> Out -> Out) format t d out :
  after_start (EvEmit t d) = true ->
  print_status print format t d out = (Ok tt, out) /\
  String.eqb t "goal_start" = false.
Proof.
  unfold after_start, cycle_statuses. intros H.
  apply existsb_exists in H. destruct H as (x & Hin & Hx).
  apply String.eqb_eq in Hx. subst x. simpl in Hin.
  destruct Hin as [<- | [<- | [<- | [<- | [<- | []]]]]]; split; reflexivity.
Qed.

Section PrintStatusRun.
Context {World : Type} (env : Env World) {cls : AgentClass World}.
Implicit Types (a : BaseAgent World).

Lemma iteration_after_start goal trace_id i a l r a' :
  iteration env goal trace_id i a l r a' -> forallb after_start l = true.
Proof. intros H. iteration_cases H; reflexivity. Qed.

Lemma looping_after_start goal trace_id i a l r a' :
  looping env goal trace_id i a l r a' -> forallb after_start l = true.
Proof.
  induction 1 as [i a Hi | i a l a' Hi Hit | i a l e a' Hi Hit
                  | i a l1 a1 l2 r a' Hi Hit Hloop IH].
  - reflexivity.
  - eapply iteration_after_start; eassumption.
  - eapply iteration_after_start; eassumption.
  - rewrite forallb_app, IH.
    now rewrite (iteration_after_start _ _ _ _ _ _ _ Hit).
Qed.

Lemma finishing_after_start goal trace_id j a l r :
  finishing env goal trace_id j a l r -> forallb after_start l = true.
Proof.
  intros H.
  inversion H as [l0 e Hg | l0 v achieved e Hg Hp
                  | l0 v achieved Hg Hp]; subst;
    inversion Hg; subst; try reflexivity;
    unfold closing_log; destruct (verbose a); try reflexivity;
    destruct (has_key "achieved" _); reflexivity.
Qed.

Lemma processing_status_events goal a l r a' :
  processing env goal a l r a' ->
  forall ev,
    In ev l -> ev = ev_goal_start goal a \/ after_start ev = true.
Proof.
  intros H ev Hin.
  inversion H as [l0 e a0 Hr | l1 trace_id j a0 l2 r0 Hr Hfin]; subst.
  - inversion Hr as [| trace_id l1 e1 a1 Hl |]; subst.
    + destruct Hin as [<- | []]. now right.
    + destruct Hin as [<- | [<- | Hin]]; [now right | now left |].
      right. apply looping_after_start in Hl.
      exact (proj1 (forallb_forall _ _) Hl ev Hin).
  - inversion Hr as [| | trace_id1 l0 j1 a1 Hl]; subst.
    apply in_app_or in Hin.
    destruct Hin as [[<- | [<- | Hin]] | Hin]; [now right | now left | |];
      right.
    + apply looping_after_start in Hl.
      exact (proj1 (forallb_forall _ _) Hl ev Hin).
    + apply finishing_after_start in Hfin.
      exact (proj1 (forallb_forall _ _) Hfin ev Hin).
Qed.

(** X23. Given any status update of a run, [print_status] of
    [math_agent.py] (and [print_email_status], which has the same body)
    returns without raising.  It prints two lines at [goal_start], the
    agent's name and the goal, and nothing at any other update: the
    [thought_created] events it also handles are never emitted by
    [process]. *)
Theorem print_status_during_a_run {Out} (print : string -> Out -> Out)
  format goal (s : St World) t d out :
  In (EvEmit t d) (log_of (process env goal s)) ->
  print_status print format t d out
  = (Ok tt,
     if String.eqb t "goal_start"
     then print ("Goal: " ++ goal)%string
            (print ("Agent: " ++ name (self s))%string out)
     else out).
Proof.
  intros Hin.
  destruct (processing_status_events _ _ _ _ _
              (process_trace env goal s) _ Hin) as [Heq | Hafter].
  - inversion Heq; subst. reflexivity.
  - destruct (after_start_silent print format t d out Hafter) as [-> ->].
    reflexivity.
Qed.
End PrintStatusRun.

(** ** What a run leaves of the agent *)

Section Configuration.
Context {World : Type} (env : Env World) {cls : AgentClass World}.

(** X24. [process] assigns to [current_goal], [execution_history] and
    [current_plan] and to nothing else: after a run, also one that
    raises, the agent has the name, iteration bound, verbosity, output
    schema, callback, tools and description it started with, and
    [current_goal] is the goal of the run. *)
Theorem process_keeps_configuration goal (s : St World) :
  let a := self s in
  let a' := self (state_of (process env goal s)) in
  name a' = name a /\ max_iterations a' = max_iterations a /\
  verbose a' = verbose a /\ output_schema a' = output_schema a /\
  callback a' = callback a /\ tools a' = tools a /\
  description a' = description a /\ current_goal a' = Some goal.
Proof.
  intros a a'.
  destruct (process_facts env goal s) as (Hconfig & Hgoal & _).
  fold a' in Hconfig, Hgoal. fold a in Hconfig.
  unfold config in Hconfig. inversion Hconfig. auto 10.
Qed.
End Configuration.

(** ** The body of an e-mail *)

Lemma str_app_nonempty (b x : string) : b <> "" -> (b ++ x)%string <> "".
Proof. destruct b; [congruence | discriminate]. Qed.

Section EmailBodyFacts.
Context (decode : pyval -> Res string) (py_strip : string -> string)
  (type_error_message : string -> pyval -> string).

Lemma add_data_extends body part body' :
  add_data decode type_error_message body part = Ok body' ->
  exists suffix, body' = (body ++ suffix)%string.
Proof.
  unfold add_data.
  destruct (py_item type_error_message part "body") as [b | e];
    [| discriminate].
  destruct (py_get b "data" (PStr "")) as [data | e]; [| discriminate].
  destruct (py_truthy data).
  - destruct (decode data) as [text | e]; [| discriminate].
    intros H. inversion H. now exists text.
  - intros H. inversion H. exists "". now rewrite str_app_nil_r.
Qed.

Lemma extract_part_extends body part body' :
  extract_part decode type_error_message body part = Ok body' ->
  exists suffix, body' = (body ++ suffix)%string.
Proof.
  unfold extract_part.
  destruct (py_item type_error_message part "mimeType") as [mime | e];
    [| discriminate].
  destruct (py_eq_str mime "text/plain"); [apply add_data_extends |].
  destruct (py_eq_str mime "text/html" && String.eqb body "");
    [apply add_data_extends |].
  intros H. inversion H. exists "". now rewrite str_app_nil_r.
Qed.

Lemma extract_part_skips_html body part :
  body <> "" -> is_html type_error_message part = true ->
  extract_part decode type_error_message body part = Ok body.
Proof.
  intros Hb Hh. unfold is_html, extract_part in *.
  destruct (py_item type_error_message part "mimeType") as [mime | e];
    [| discriminate].
  destruct mime; try discriminate. simpl in Hh |- *.
  apply String.eqb_eq in Hh. subst s. simpl.
  apply String.eqb_neq in Hb. now rewrite Hb.
Qed.

Lemma extract_part_keeps_nonempty body part body' :
  body <> "" ->
  extract_part decode type_error_message body part = Ok body' ->
  body' <> "".
Proof.
  intros Hb H. apply extract_part_extends in H. destruct H as [suffix ->].
  now apply str_app_nonempty.
Qed.

Lemma add_data_shift body part text :
  add_data decode type_error_message "" part = Ok text ->
  add_data decode type_error_message body part = Ok (body ++ text)%string.
Proof.
  unfold add_data.
  destruct (py_item type_error_message part "body") as [b | e];
    [| discriminate].
  destruct (py_get b "data" (PStr "")) as [data | e]; [| discriminate].
  destruct (py_truthy data).
  - destruct (decode data) as [t | e]; [| discriminate].
    intros H. inversion H. reflexivity.
  - intros H. inversion H. now rewrite str_app_nil_r.
Qed.

Lemma extract_part_plain body part :
  is_plain type_error_message part = true ->
  extract_part decode type_error_message body part
  = add_data decode type_error_message body part.
Proof.
  unfold is_plain, extract_part.
  destruct (py_item type_error_message part "mimeType") as [mime | e];
    [| discriminate].
  now intros ->.
Qed.

Lemma extract_part_html_first part :
  is_html type_error_message part = true ->
  extract_part decode type_error_message "" part
  = add_data decode type_error_message "" part.
Proof.
  unfold is_html, extract_part.
  destruct (py_item type_error_message part "mimeType") as [mime | e];
    [| discriminate].
  destruct mime; try discriminate. simpl. intros H.
  apply String.eqb_eq in H. subst s. reflexivity.
Qed.

(** X25. In a multipart message the HTML parts are a fallback by
    position only.  The loop over the parts never drops text it has
    gathered, and once it has gathered any, HTML parts are passed over:
    the outcome is the same as for the message without them.  An HTML
    part that comes first is used, and the text of a plain part after it
    is appended to it rather than replacing it; in the other order the
    HTML part is used only if the plain part gave no text. *)
Theorem email_body_html_is_fallback_by_position (parts : list pyval) :
  (forall body body',
     extract_parts decode type_error_message body parts = Ok body' ->
     (exists suffix, body' = (body ++ suffix)%string) /\
     (body <> "" ->
      extract_parts decode type_error_message body
        (filter (fun part => negb (is_html type_error_message part)) parts)
      = Ok body')) /\
  (forall html plain text_html text_plain,
     is_html type_error_message html = true ->
     is_plain type_error_message plain = true ->
     add_data decode type_error_message "" html = Ok text_html ->
     add_data decode type_error_message "" plain = Ok text_plain ->
     extract_parts decode type_error_message "" [html; plain]
     = Ok (text_html ++ text_plain)%string /\
     extract_parts decode type_error_message "" [plain; html]
     = Ok (if String.eqb text_plain "" then text_html else text_plain)).
Proof.
  split.
  - induction parts as [| part rest IH]; intros body body' H; simpl in H.
    + inversion H. split; [exists ""; now rewrite str_app_nil_r | auto].
    + destruct (extract_part decode type_error_message body part)
        as [b1 |] eqn:E; [| discriminate].
      destruct (IH _ _ H) as [[s2 ->] Hfilter]. split.
      * destruct (extract_part_extends _ _ _ E) as [s1 ->].
        exists (s1 ++ s2)%string. now rewrite str_app_assoc.
      * intros Hb. simpl.
        destruct (is_html type_error_message part) eqn:Eh; simpl.
        -- rewrite (extract_part_skips_html _ _ Hb Eh) in E. inversion E.
           subst b1. now apply Hfilter.
        -- rewrite E. apply Hfilter.
           eapply extract_part_keeps_nonempty; eassumption.
  - intros html plain text_html text_plain Hh Hp Hth Htp. split; simpl.
    + rewrite (extract_part_html_first _ Hh), Hth.
      rewrite (extract_part_plain _ _ Hp).
      now rewrite (add_data_shift text_html _ _ Htp).
    + rewrite (extract_part_plain _ _ Hp), Htp.
      destruct (String.eqb text_plain "") eqn:Ee.
      * apply String.eqb_eq in Ee. subst text_plain.
        now rewrite (extract_part_html_first _ Hh), Hth.
      * apply String.eqb_neq in Ee.
        now rewrite (extract_part_skips_html _ _ Ee Hh).
Qed.

(** X26. A message without [parts] whose type is not [text/plain] has an
    empty body, whatever it carries: there is no HTML fallback for a
    single part message.  The same HTML payload as the only part of a
    multipart message gives its decoded text. *)
Theorem email_body_single_part_has_no_fallback (d body_dict d' : kwargs)
  (mime data : pyval) (text : string) :
  dict_get "parts" d = None ->
  dict_get "mimeType" d = Some mime ->
  py_eq_str mime "text/plain" = false ->
  _extract_email_body decode py_strip type_error_message (PDict d)
  = Ok (py_strip "") /\
  (mime = PStr "text/html" ->
   dict_get "body" d = Some (PDict body_dict) ->
   dict_get "data" body_dict = Some data ->
   py_truthy data = true ->
   decode data = Ok text ->
   dict_get "parts" d' = Some (PList [PDict d]) ->
   _extract_email_body decode py_strip type_error_message (PDict d')
   = Ok (py_strip text)).
Proof.
  intros Hparts Hmime Hplain. split.
  - unfold _extract_email_body, py_item. now rewrite Hparts, Hmime, Hplain.
  - intros -> Hbody Hdata Htruthy Hdecode Hparts'.
    unfold _extract_email_body. rewrite Hparts'. simpl.
    unfold extract_part, add_data, py_item. rewrite Hmime, Hbody. simpl.
    now rewrite Hdata, Htruthy, Hdecode.
Qed.
End EmailBodyFacts.

(** ** The history over a whole run *)

Section HistoryOfRun.
Context {World : Type} (env : Env World) {cls : AgentClass World}.
Implicit Types (a : BaseAgent World) (s : St World).

Lemma iteration_cycle_count goal trace_id i a l r a' :
  iteration env goal trace_id i a l r a' ->
  length (execution_history a')
  = (length (execution_history a)
     + length (emitted "reflection_completed" l))%nat.
Proof.
  intros H. iteration_cases H; simpl; rewrite ?length_app; simpl; lia.
Qed.

Lemma looping_cycle_count goal trace_id i a l r a' :
  looping env goal trace_id i a l r a' ->
  length (execution_history a')
  = (length (execution_history a)
     + length (emitted "reflection_completed" l))%nat.
Proof.
  induction 1 as [i a Hi | i a l a' Hi Hit | i a l e a' Hi Hit
                  | i a l1 a1 l2 r a' Hi Hit Hloop IH].
  - simpl. lia.
  - eapply iteration_cycle_count; eassumption.
  - eapply iteration_cycle_count; eassumption.
  - rewrite IH, (iteration_cycle_count _ _ _ _ _ _ _ Hit), emitted_app,
      length_app. lia.
Qed.

Lemma processing_cycle_count goal a l r a' :
  processing env goal a l r a' ->
  length (execution_history a')
  = length (emitted "reflection_completed" l).
Proof.
  intros H.
  inversion H as [l0 e a0 Hr | l1 trace_id j a0 l2 r0 Hr Hfin]; subst.
  - inversion Hr as [| trace_id l1 e1 a1 Hl |]; subst; [reflexivity |].
    exact (looping_cycle_count _ _ _ _ _ _ _ Hl).
  - inversion Hr as [| | trace_id1 l0 j1 a1 Hl]; subst.
    rewrite emitted_app.
    rewrite (finishing_emits env _ _ _ _ _ _ "reflection_completed" Hfin)
      by discriminate.
    rewrite app_nil_r. exact (looping_cycle_count _ _ _ _ _ _ _ Hl).
Qed.

(** C3. After a run of [process], the cycles in [execution_history]
    carry the iteration indices 1, 2, ..., [len(execution_history)], in
    this order.  During a run the history only grows at its end.  A pass
    through the loop body leaves the cycles already recorded as they are
    and appends at most one, and so does the loop as a whole from any
    state.  What follows the loop does not touch the agent, so the
    history of the run is the one its loop left.  Nothing is dropped on
    the way: the run ends with one cycle for every
    [reflection_completed] it announced, holding the reflections
    announced, in order. *)
Theorem history_indices_and_append_only goal trace_id fuel i s :
  let o := process env goal s in
  let h := execution_history (self (state_of o)) in
  map cycle_iteration h
  = map (fun n => Some (PInt (Z.of_nat n))) (seq 1 (length h)) /\
  (exists cs,
     execution_history (self (state_of (loop_body env goal trace_id i s)))
     = execution_history (self s) ++ cs /\ (length cs <= 1)%nat) /\
  (exists cs,
     execution_history
       (self (state_of (while_loop env fuel goal trace_id i s)))
     = execution_history (self s) ++ cs) /\
  self (state_of (finish env goal trace_id i s)) = self s /\
  h = execution_history (self (state_of (run_loop env goal s))) /\
  length h = length (emitted "reflection_completed" (log_of o)) /\
  flat_map (field "reflection") h
  = flat_map (field "reflection")
      (emitted "reflection_completed" (log_of o)).
Proof.
  intros o h. split; [| split; [| split; [| split; [| split; [| split]]]]].
  - destruct (process_facts env goal s) as (_ & _ & _ & _ & _ & Hcs & _).
    fold o in Hcs. fold h in Hcs. now apply cycles_from_iterations in Hcs.
  - apply loop_body_extends.
  - exact (while_loop_extends env fuel goal trace_id i s).
  - pose proof (finish_spec env goal trace_id i s) as H.
    unfold post in H. apply H.
  - destruct (process_after_loop env goal s) as [H _]. exact H.
  - exact (processing_cycle_count _ _ _ _ _ (process_trace env goal s)).
  - destruct (processing_announced env _ _ _ _ _
                (process_trace env goal s)) as [[H _] _].
    unfold event_fields, recorded in H. rewrite app_nil_r in H.
    symmetry. exact H.
Qed.
End HistoryOfRun.

(** ** Tool failures in a run *)

Lemma in_emitted t d l : In (EvEmit t d) l -> In d (emitted t l).
Proof.
  induction l as [| ev l IH]; intros H; [destruct H |].
  destruct H as [-> | H].
  - simpl. rewrite String.eqb_refl. now left.
  - unfold emitted. simpl. apply in_or_app. right. now apply IH.
Qed.

Lemma executed_and_reflected_frame {World} (a : BaseAgent World) goal
  pre l post d :
  executed_and_reflected a goal l d ->
  executed_and_reflected a goal (pre ++ l ++ post) d.
Proof.
  intros (before & i & action & w & w' & result & tl & span_id & r & after
          & Hd & Hx & ->).
  exists (pre ++ before), i, action, w, w', result, tl, span_id, r,
    (after ++ post).
  split; [exact Hd |]. split; [exact Hx |].
  rewrite <- !app_assoc. cbn [app]. rewrite <- !app_assoc. reflexivity.
Qed.

Ltac find_decided Hin :=
  unfold planned, decided, reflected in Hin; cbn [app] in Hin;
  repeat match type of Hin with
         | In _ (_ :: _) => destruct Hin as [Hin | Hin]; [try discriminate Hin |]
         | In _ [] => destruct Hin
         end.

Section ToolFailures.
Context {World : Type} (env : Env World) {cls : AgentClass World}.
Implicit Types (a : BaseAgent World) (s : St World).

Lemma executes_run a action w w' result tl :
  executes a action w w' result tl ->
  _execute_action action {| self := a; world := w |}
  = (Ok result, {| self := a; world := w' |}, tl).
Proof.
  intros H. inversion H as [Hd | Hn Hg | tool v w1 Hn Hg Hx
                            | tool e w1 Hn Hg Hx]; subst.
  - unfold _execute_action. now rewrite Hd.
  - now apply execute_missing_tool.
  - rewrite (execute_found_tool action {| self := a; world := w |} tool
               Hn Hg).
    simpl. now rewrite Hx.
  - rewrite (execute_found_tool action {| self := a; world := w |} tool
               Hn Hg).
    simpl. now rewrite Hx.
Qed.

Lemma iteration_decided goal trace_id i a l r a' :
  iteration env goal trace_id i a l r a' ->
  current_goal a = Some goal ->
  forall d,
    In (EvEmit "action_decided" d) l ->
    executed_and_reflected a goal l d.
Proof.
  intros H Hgoal d Hin.
  inversion H; subst;
    try match goal with
        | Hex : executes _ _ _ _ _ _ |- _ =>
            pose proof (executes_run _ _ _ _ _ _ Hex) as Hrun;
            destruct (executes_log _ _ _ _ _ _ Hex)
              as [-> | (? & ? & ? & ->)]; clear Hex
        end;
    find_decided Hin;
    injection Hin as <-;
    eapply (ex_intro _ [_; _; _; _; _; _]);
    do 9 eexists;
    (split; [reflexivity |]);
    (split; [exact Hrun |]);
    unfold planned, decided, reflected, ev_reflect, ev_executed,
      reflect_context;
    cbn [app]; rewrite Hgoal; reflexivity.
Qed.

Lemma looping_decided goal trace_id i a l r a' :
  looping env goal trace_id i a l r a' ->
  current_goal a = Some goal ->
  forall d,
    In (EvEmit "action_decided" d) l ->
    exists b, tools b = tools a /\ executed_and_reflected b goal l d.
Proof.
  induction 1 as [i a Hi | i a l a' Hi Hit | i a l e a' Hi Hit
                  | i a l1 a1 l2 r a' Hi Hit Hloop IH];
    intros Hgoal d Hin.
  - destruct Hin.
  - exists a. split; [reflexivity |]. eapply iteration_decided; eassumption.
  - exists a. split; [reflexivity |]. eapply iteration_decided; eassumption.
  - destruct (iteration_frame _ _ _ _ _ _ _ _ Hit) as (Hc & Hg & _).
    assert (Hts : tools a1 = tools a)
      by (unfold config in Hc; now inversion Hc).
    apply in_app_or in Hin. destruct Hin as [Hin | Hin].
    + exists a. split; [reflexivity |].
      rewrite <- (app_nil_l (l1 ++ l2)).
      apply executed_and_reflected_frame.
      eapply iteration_decided; eassumption.
    + destruct (IH (eq_trans Hg Hgoal) d Hin) as (b & Hb & He).
      exists b. split; [congruence |].
      rewrite <- (app_nil_r l2).
      now apply executed_and_reflected_frame.
Qed.

Lemma processing_decided goal a l r a' :
  processing env goal a l r a' ->
  forall d,
    In (EvEmit "action_decided" d) l ->
    exists b, tools b = tools a /\ executed_and_reflected b goal l d.
Proof.
  assert (Hloop : forall trace_id l0 r0 post d,
             looping env goal trace_id 0 (reset_for goal a) l0 r0 a' ->
             In (EvEmit "action_decided" d) l0 ->
             exists b,
               tools b = tools a /\
               executed_and_reflected b goal
                 ((ev_trace goal a (Ok trace_id)
                     :: ev_goal_start goal a :: l0) ++ post) d).
  { intros trace_id l0 r0 post d Hl Hin.
    destruct (looping_decided _ _ _ _ _ _ _ Hl eq_refl d Hin)
      as (b & Hb & He).
    exists b. split; [exact Hb |].
    exact (executed_and_reflected_frame b goal
             [ev_trace goal a (Ok trace_id); ev_goal_start goal a]
             l0 post d He). }
  intros H d Hin.
  inversion H as [l0 e a0 Hr | l1 trace_id j a0 l2 r0 Hr Hfin]; subst.
  - inversion Hr as [| trace_id l1 e1 a1 Hl |]; subst.
    + destruct Hin as [Hin | []]. discriminate Hin.
    + destruct Hin as [Hin | [Hin | Hin]]; try discriminate Hin.
      rewrite <- (app_nil_r (_ :: _ :: l1)). eapply Hloop; eassumption.
  - inversion Hr as [| | trace_id1 l0 j1 a1 Hl]; subst.
    apply in_app_or in Hin.
    destruct Hin as [[Hin | [Hin | Hin]] | Hin]; try discriminate Hin.
    + eapply Hloop; eassumption.
    + apply in_emitted in Hin.
      rewrite (finishing_emits env _ _ _ _ _ _ "action_decided" Hfin) in Hin
        by discriminate.
      destruct Hin.
Qed.

(** C2. For an action whose [tool_name] is not [direct_response] the
    Execute step always returns a result and never raises.  If no tool of
    that name is registered, the result is the [error] dictionary with
    [success = False] and the message [Tool '<name>' not found], and
    nothing else happens.  If the tool's [execute] raises, the exception
    is turned into an [error] dictionary with [success = False] that
    carries its message.

    The loop goes on with that result.  A pass through the loop body has
    one of the shapes of [iteration]: once an action is decided, the
    Execute step runs, [action_executed] announces its result and the
    Reflect call is made on it.  So in a run of [process] every action
    announced by [action_decided] was executed by [_execute_action] with
    the tools of the agent, and the result it returned, the error results
    included, is the one announced next and the one handed to the Reflect
    call after that; in a run that returns it is also the one recorded in
    the history.  A raising tool is no failure of the run: [process]
    raises exactly when a model call, a span operation, a validation or
    the goal predicate raised, and otherwise goes on to final-result
    generation, emits [goal_completed] and returns. *)
Theorem tool_failures_are_recovered (action : Action.t) s goal s0
  trace_id i :
  Action.tool_name action <> "direct_response" ->
  let o := _execute_action action s in
  (exists v, result_of o = Ok v) /\
  (get_tool (Action.tool_name action) (self s) = None ->
   o = (Ok (PDict [("type", PStr "error");
                   ("result",
                    PStr ("Tool '" ++ Action.tool_name action
                          ++ "' not found")%string);
                   ("success", PBool false)]),
        s, [])) /\
  (forall tool e w,
     get_tool (Action.tool_name action) (self s) = Some tool ->
     Tool.execute tool (Action.tool_parameters action) (world s)
     = (Raise e, w) ->
     o = (Ok (PDict [("type", PStr "error");
                     ("tool_name", PStr (Action.tool_name action));
                     ("parameters", PDict (Action.tool_parameters action));
                     ("result",
                      PStr ("Error executing tool: " ++ exc_str e)%string);
                     ("success", PBool false)]),
          {| self := self s; world := w |},
          [EvTool (Tool.name tool) (Action.tool_parameters action)
             (Raise e)])) /\
  let b := loop_body env goal trace_id i s0 in
  iteration env goal trace_id i (self s0) (log_of b) (result_of b)
    (self (state_of b)) /\
  let p := process env goal s0 in
  (forall d,
     In (EvEmit "action_decided" d) (log_of p) ->
     exists a,
       tools a = tools (self s0) /\
       executed_and_reflected a goal (log_of p) d) /\
  reflected_results (log_of p) = executed_results (log_of p) /\
  (forall v,
     result_of p = Ok v ->
     flat_map (field "action_result")
       (execution_history (self (state_of p)))
     = executed_results (log_of p)) /\
  failures (log_of p) = raised (result_of p) /\
  (failures (log_of p) = [] ->
   exists v, result_of p = Ok v /\
     exists before, statuses (log_of p) = before ++ ["goal_completed"]).
Proof.
  intros Hn o. split; [| split; [| split; [| split]]].
  - destruct (execute_action_spec action s) as ([v Hv] & _). now exists v.
  - now apply execute_missing_tool.
  - intros tool e w. now apply execute_raising_tool.
  - exact (loop_body_trace env goal trace_id i s0).
  - intros p.
    destruct (process_facts env goal s0) as (_ & _ & Hf & Hr & _).
    split; [| split; [exact Hr | split; [| split; [exact Hf |]]]].
    + exact (processing_decided _ _ _ _ _ (process_trace env goal s0)).
    + intros v Hv.
      pose proof (processing_announced env _ _ _ _ _
                    (process_trace env goal s0)) as Ha.
      fold p in Ha. rewrite Hv in Ha.
      destruct Ha as (_ & _ & _ & rest & [Ha _] & Hrest).
      rewrite (Hrest eq_refl), app_nil_r in Ha. symmetry. exact Ha.
    + apply process_completes.
Qed.
End ToolFailures.

(** ** Runs with an observer that may change what it is handed *)

Section LiveCongruence.
Context {World : Type}.

Lemma eqm_bind2 {A B} (m1 m2 : M World A) (f g : A -> M World B) :
  eqm m1 m2 -> (forall a, eqm (f a) (g a)) -> eqm (bind m1 f) (bind m2 g).
Proof.
  intros Hm H s. unfold bind. rewrite (Hm s).
  destruct (m2 s) as [[[a | e] s1] l1]; auto. now rewrite H.
Qed.
End LiveCongruence.

Ltac eqm_step H :=
  first
    [ apply H
    | apply eqm_refl
    | apply eqm_bind2; [| intros ?]
    | match goal with
      | |- eqm (if ?b then _ else _) _ => destruct b
      | |- eqm (match ?x with _ => _ end) _ => destruct x
      end ].

Section LiveObservers.
Context {World : Type} (env : Env World) {cls : AgentClass World}.
Implicit Types (s : St World).

(** Runs depend on the observer through [_emit_status] alone. *)
Lemma live_loop_body_ext o1 o2 goal trace_id i :
  (forall t d, eqm (Live._emit_status o1 t d) (Live._emit_status o2 t d)) ->
  eqm (Live.loop_body env o1 goal trace_id i)
      (Live.loop_body env o2 goal trace_id i).
Proof.
  intros H. unfold Live.loop_body. repeat eqm_step H.
Qed.

Lemma live_while_loop_ext o1 o2 fuel goal trace_id :
  (forall t d, eqm (Live._emit_status o1 t d) (Live._emit_status o2 t d)) ->
  forall i,
    eqm (Live.while_loop env o1 fuel goal trace_id i)
        (Live.while_loop env o2 fuel goal trace_id i).
Proof.
  intros H. induction fuel as [| fuel IH]; intros i; simpl.
  - apply eqm_refl.
  - apply eqm_bind2; [apply eqm_refl | intros a].
    destruct (i <? max_iterations a); [| apply eqm_refl].
    apply eqm_bind2; [now apply live_loop_body_ext | intros [|]].
    + apply IH.
    + apply eqm_refl.
Qed.

Lemma live_process_ext o1 o2 goal :
  (forall t d, eqm (Live._emit_status o1 t d) (Live._emit_status o2 t d)) ->
  eqm (Live.process env o1 goal) (Live.process env o2 goal).
Proof.
  intros H. unfold Live.process.
  repeat first [apply live_while_loop_ext; exact H | eqm_step H].
Qed.

Lemma live_emit_muted (cb : Live.Observer World) t d :
  eqm (Live._emit_status (Some cb) t d)
      (Live._emit_status (Some (Live.muted cb)) t d).
Proof.
  intros s. unfold Live._emit_status, Live.muted, bind, tell.
  destruct (cb t d (world s)) as [[r w] touched]. reflexivity.
Qed.

Lemma live_emit_idle (cb : Live.Observer World) t d :
  (forall t d w, exists r, cb t d w = (r, w, Live.untouched)) ->
  eqm (Live._emit_status (Some cb) t d) (Live._emit_status None t d).
Proof.
  intros H s. unfold Live._emit_status, bind, tell, ret.
  destruct (H t d (world s)) as [r ->]. now destruct s.
Qed.
End LiveObservers.

Section LiveAccounts.
Context {World : Type} (env : Env World) {cls : AgentClass World}.
Context (observer : option (Live.Observer World)).
Implicit Types (s : St World).

Lemma acc_bind {A B} (m : M World A) (f : A -> M World B) s :
  post m s (accounted s) ->
  (forall x s1,
     max_iterations (self s1) = max_iterations (self s) ->
     post (f x) s1 (accounted s1)) ->
  post (bind m f) s (accounted s).
Proof.
  intros Hm Hf. apply post_bind. eapply post_mono; [exact Hm |].
  intros [x | e] s1 l1 [Hl Hmax]; [| now split].
  eapply post_mono; [apply (Hf x s1 Hmax) |].
  intros r2 s2 l2 [Hl2 Hmax2]. split; [| congruence].
  rewrite failures_app, Hl, Hl2. reflexivity.
Qed.

Lemma acc_ret {A} (x : A) s : post (ret x) s (accounted s).
Proof. now split. Qed.

Lemma acc_get_self s : post get_self s (accounted s).
Proof. now split. Qed.

Lemma acc_modify (f : BaseAgent World -> BaseAgent World) s :
  (forall a, max_iterations (f a) = max_iterations a) ->
  post (modify_self f) s (accounted s).
Proof. intros H. split; [reflexivity | apply H]. Qed.

Lemma acc_extern {A} (op : World -> Res A * World) ev s :
  (forall r, failures (ev r) = raised r) ->
  post (extern op ev) s (accounted s).
Proof. intros H. apply post_extern. intros r w _. now split. Qed.

Lemma acc_validate {A} schema (new : pyval -> Res A) payload s :
  post (validate schema new payload) s (accounted s).
Proof.
  apply post_validate. split; [| reflexivity].
  now destruct (new payload).
Qed.

Lemma acc_is_goal_achieved goal h s :
  post (call_is_goal_achieved goal h) s (accounted s).
Proof.
  apply post_is_goal_achieved. split; [| reflexivity].
  unfold failures. simpl. apply app_nil_r.
Qed.

Lemma acc_read_clock (clock : World -> Q * World) s :
  post (read_clock clock) s (accounted s).
Proof. apply post_read_clock. intros t w. now split. Qed.

Lemma acc_emit event_type data s :
  post (Live._emit_status observer event_type data) s (accounted s).
Proof.
  unfold Live._emit_status, post, bind, tell, ret, result_of, state_of,
    log_of.
  destruct observer as [cb |]; simpl; [| now split].
  destruct (cb event_type data (world s)) as [[r w] touched]. now split.
Qed.

Lemma acc_execute action s :
  post (_execute_action action) s (accounted s).
Proof.
  eapply post_mono; [apply execute_action_spec |].
  intros r s' l ([v ->] & Hl & w & ->). split; [| reflexivity].
  destruct Hl as [-> | (n & a & r0 & ->)]; reflexivity.
Qed.
End LiveAccounts.

Ltac acc_step :=
  first
    [ apply acc_ret | apply acc_get_self | apply acc_validate
    | apply acc_is_goal_achieved | apply acc_read_clock
    | apply acc_emit | apply acc_execute
    | apply acc_modify; intros ?; reflexivity
    | apply acc_extern; intros [? | ?]; reflexivity
    | apply acc_bind; [| intros ? ? _]
    | match goal with
      | |- post (if ?b then _ else _) _ _ => destruct b
      | |- post (match ?x with _ => _ end) _ _ => destruct x
      end ].

Section LiveCompletes.
Context {World : Type} (env : Env World) {cls : AgentClass World}.
Context (observer : option (Live.Observer World)).
Implicit Types (s : St World).

Lemma live_loop_body_accounted goal trace_id i s :
  post (Live.loop_body env observer goal trace_id i) s (accounted s).
Proof.
  unfold Live.loop_body, create_span, _create_plan, _decide_action,
    _reflect_on_result, update_span, call_llm.
  repeat acc_step.
Qed.

Lemma live_while_loop_accounted goal trace_id : forall fuel i s,
  max_iterations (self s) - i <= Z.of_nat fuel ->
  post (Live.while_loop env observer fuel goal trace_id i) s (accounted s).
Proof.
  induction fuel as [| fuel IH]; intros i s Hfuel; simpl;
    mstep; mstep; cbn [app];
    destruct (i <? max_iterations (self s)) eqn:E;
    try apply acc_ret.
  - apply Z.ltb_lt in E. simpl in Hfuel. lia.
  - apply Z.ltb_lt in E.
    apply acc_bind; [apply live_loop_body_accounted |].
    intros [|] s1 Hmax; [| apply acc_ret].
    apply IH. rewrite Hmax. lia.
Qed.

Lemma live_process_accounted goal s :
  post (Live.process env observer goal) s (accounted s).
Proof.
  unfold Live.process, start_trace, create_span, _generate_final_result,
    update_span, call_llm.
  apply acc_bind; [acc_step | intros ? s1 H1].
  apply acc_bind; [acc_step | intros ? s2 H2].
  mstep. mstep. cbn [app].
  apply acc_bind; [acc_step | intros ? s3 H3].
  apply acc_bind; [acc_step | intros ? s4 H4].
  apply acc_bind.
  { apply live_while_loop_accounted. rewrite H4, H3.
    destruct (max_iterations (self s2)); simpl; lia. }
  intros ? ? _. repeat acc_step.
Qed.

Lemma live_process_completes goal s :
  failures (log_of (Live.process env observer goal s)) = [] ->
  exists v, result_of (Live.process env observer goal s) = Ok v.
Proof.
  intros H. destruct (live_process_accounted goal s) as [Hf _].
  rewrite H in Hf.
  destruct (result_of (Live.process env observer goal s)) as [v | e].
  - now exists v.
  - discriminate.
Qed.
End LiveCompletes.

Section LiveAgrees.
Context {World : Type} (env : Env World) {cls : AgentClass World}.
Context (cb : option (Callback World)).
Implicit Types (s : St World).

Lemma agree_bind {A B} (m1 m2 : M World A) (f g : A -> M World B) :
  agree cb m1 m2 -> (forall x, agree cb (f x) (g x)) ->
  agree cb (bind m1 f) (bind m2 g).
Proof.
  intros Hm Hf s Hs. destruct (Hm s Hs) as [E Hc].
  unfold bind, state_of in *. rewrite E.
  destruct (m2 s) as [[[x | e] s1] l1]; simpl in *; [| auto].
  destruct (Hf x s1 Hc) as [E2 Hc2]. rewrite E2.
  destruct (g x s1) as [[r2 s2] l2]. simpl in *. auto.
Qed.

Lemma agree_keep {A} (m : M World A) :
  (forall s, callback (self (state_of (m s))) = callback (self s)) ->
  agree cb m m.
Proof. intros H s Hs. split; [reflexivity | now rewrite H]. Qed.

Lemma agree_skip {A} (f : unit -> M World A) (m : M World A) :
  agree cb (f tt) m -> agree cb (bind (ret tt) f) m.
Proof.
  intros H s Hs. destruct (H s Hs) as [E Hc]. split; [| exact Hc].
  unfold bind, ret. rewrite E. now destruct (m s) as [[r s1] l1].
Qed.

Lemma agree_emit {A} event_type data (k1 : Live.Touched -> M World A)
  (k2 : unit -> M World A) :
  agree cb (k1 Live.untouched) (k2 tt) ->
  agree cb
    (bind (Live._emit_status (option_map Live.hands_off cb) event_type data)
       k1)
    (bind (_emit_status event_type data) k2).
Proof.
  intros Hk s Hs.
  unfold Live._emit_status, _emit_status, Live.hands_off, bind, tell,
    get_self, try_except, extern, ret, state_of.
  simpl. rewrite Hs. destruct cb as [f |]; simpl.
  - destruct (f event_type data (world s)) as [[[] | e] w]; simpl;
      destruct (Hk {| self := self s; world := w |} Hs) as [E Hc];
      unfold state_of in Hc; rewrite E;
      destruct (k2 tt {| self := self s; world := w |}) as [[r2 s2] l2];
      simpl in *; auto.
  - destruct (Hk s Hs) as [E Hc]. unfold state_of in Hc. rewrite E.
    destruct (k2 tt s) as [[r2 s2] l2]. simpl in *. auto.
Qed.

Lemma keep_execute action s :
  callback (self (state_of (_execute_action action s))) = callback (self s).
Proof.
  pose proof (execute_action_spec action s) as H. unfold post in H.
  destruct H as (_ & _ & w & ->). reflexivity.
Qed.
End LiveAgrees.

Ltac keep_leaf :=
  apply agree_keep; intros ?;
  first
    [ reflexivity
    | apply keep_execute
    | unfold extern, validate, call_is_goal_achieved, read_clock, state_of;
      simpl;
      repeat match goal with
             | |- context [let '(_, _) := ?x in _] => destruct x
             end;
      reflexivity ].

Ltac agree_step :=
  first
    [ apply agree_emit; cbn beta iota delta [Live.left_as Live.untouched
        Live.touched_result Live.touched_history Live.show_history]
    | apply agree_skip
    | apply agree_bind; [| intros ?]
    | match goal with
      | |- agree _ (if ?b then _ else _) _ => destruct b
      | |- agree _ (match ?x with _ => _ end) _ => destruct x
      end
    | keep_leaf ].

Section LiveAgreement.
Context {World : Type} (env : Env World) {cls : AgentClass World}.
Context (cb : option (Callback World)).
Implicit Types (s : St World).

Lemma live_loop_body_agrees goal trace_id i :
  agree cb
    (Live.loop_body env (option_map Live.hands_off cb) goal trace_id i)
    (loop_body env goal trace_id i).
Proof.
  unfold Live.loop_body, loop_body, create_span, _create_plan,
    _decide_action, _reflect_on_result, update_span, call_llm.
  repeat agree_step.
Qed.

Lemma live_while_loop_agrees fuel goal trace_id : forall i,
  agree cb
    (Live.while_loop env (option_map Live.hands_off cb) fuel goal trace_id i)
    (while_loop env fuel goal trace_id i).
Proof.
  induction fuel as [| fuel IH]; intros i; simpl.
  - repeat agree_step.
  - apply agree_bind; [keep_leaf | intros a].
    destruct (i <? max_iterations a); [| keep_leaf].
    apply agree_bind; [apply live_loop_body_agrees | intros [|]].
    + apply IH.
    + keep_leaf.
Qed.

Lemma live_process_agrees goal :
  agree cb (Live.process env (option_map Live.hands_off cb) goal)
    (process env goal).
Proof.
  unfold Live.process, process, start_trace, create_span,
    _generate_final_result, update_span, call_llm.
  repeat first
    [ apply live_while_loop_agrees
    | match goal with
      | |- context [match output_schema ?a with
                    | Some _ => None
                    | None => None
                    end] =>
          destruct (output_schema a);
          cbn beta iota delta [Live.show_history Live.left_as]
      end
    | agree_step ].
Qed.
End LiveAgreement.

(** ** Failures of the observer *)

Section ObserverFailures.
Context {World : Type} (env : Env World) {cls : AgentClass World}.
Implicit Types (s : St World).

Lemma live_emit_returns observer event_type data s :
  exists touched w,
    Live._emit_status observer event_type data s
    = (Ok touched, {| self := self s; world := w |},
       [EvEmit event_type data]).
Proof.
  unfold Live._emit_status, bind, tell, ret.
  destruct observer as [cb |]; simpl.
  - destruct (cb event_type data (world s)) as [[r w] touched]. eauto.
  - destruct s. eauto.
Qed.

End ObserverFailures.

(** ** The further theorems at work *)

(** Two tools named [add]: the one registered first runs. *)
Lemma execute_runs_first_registered_witness :
  _execute_action (Demo.action_for "add")
    (Demo.start (Demo.agent 3 None None [Demo.add; Demo.broken "add"]))
  = (Ok (PDict [("type", PStr "tool_execution");
                ("tool_name", PStr "add");
                ("parameters", PDict [("a", PInt 3); ("b", PInt 4)]);
                ("result", PInt 7);
                ("success", PBool true)]),
     Demo.start (Demo.agent 3 None None [Demo.add; Demo.broken "add"]),
     [EvTool "add" [("a", PInt 3); ("b", PInt 4)] (Ok (PInt 7))]).
Proof.
  apply (execute_runs_first_registered (Demo.action_for "add")
           (Demo.start (Demo.agent 3 None None [Demo.add; Demo.broken "add"]))
           [] Demo.add [Demo.broken "add"] (PInt 7) 0%nat).
  - simpl. discriminate.
  - reflexivity.
  - reflexivity.
  - intros t [].
  - reflexivity.
Defined.


(** Adding with only [a] given: [b] counts as [0.0]. *)
Lemma math_tools_default_operands_witness :
  Tool.execute (AddTool DemoTools.ops) [("a", PInt 3)] 0%nat
  = (Ok (PFloat (inject_Z 3 + 0)), 0%nat).
Proof.
  destruct (math_tools_default_operands DemoTools.ops [("a", PInt 3)] 0%nat
              eq_refl) as [H _].
  exact H.
Defined.


(** Posting without a connection. *)
Lemma twitter_failure_reported_as_success_witness :
  exists inner,
    result_of
      (_execute_action
         (DemoTools.action "creation_of_a_post" [("text", PStr "hello")])
         (Demo.start
            (Demo.agent 3 None None
               [twitter_tool DemoTools.offline DemoTools.post])))
    = Ok (PDict [("type", PStr "tool_execution");
                 ("tool_name", PStr "creation_of_a_post");
                 ("parameters", PDict [("text", PStr "hello")]);
                 ("result", PDict inner);
                 ("success", PBool true)]) /\
    dict_get "success" inner = Some (PBool false).
Proof.
  destruct (twitter_failure_reported_as_success DemoTools.offline
              (DemoTools.action "creation_of_a_post"
                 [("text", PStr "hello")])
              (Demo.start
                 (Demo.agent 3 None None
                    [twitter_tool DemoTools.offline DemoTools.post]))
              DemoTools.post)
    as (inner & w & Hx & Hfail).
  - simpl. discriminate.
  - reflexivity.
  - reflexivity.
  - exists inner. rewrite Hx. split; [reflexivity |].
    destruct (Hfail {| exc_class := "ConnectionError"; exc_str := "offline" |}
                0%nat eq_refl) as [_ ->].
    reflexivity.
Defined.

(** A run under an output schema returns what the model gave. *)
Lemma schema_final_result_witness :
  let o := process (Demo.env 1 "add") "3+4"
             (Demo.start (Demo.agent 10 (Some "MathResult") None [Demo.add])) in
  exists input parent,
    final_calls (log_of o)
    = [EvCall "generate_final_result" input "MathResult" parent
         (Ok (PDict [("summary", PStr "done")]))].
Proof.
  intros o.
  destruct (schema_final_result (Demo.env 1 "add") "3+4"
              (Demo.start
                 (Demo.agent 10 (Some "MathResult") None [Demo.add]))
              "MathResult" eq_refl) as [H _].
  destruct (H (PDict [("summary", PStr "done")])) as (achieved & trace_id & _ & _ & Hc).
  - vm_compute. reflexivity.
  - eexists _, _. exact Hc.
Defined.

(** What [print_status] prints for the scenario of the specification. *)
Lemma print_status_during_a_run_witness :
  print_status (fun line out => out ++ [line]) (fun _ => "?") "goal_start"
    (PDict [("goal", PStr "3+4"); ("agent_name", PStr "MathAgent");
            ("available_tools", PList [PStr "add"])]) []
  = (Ok tt, ["Agent: MathAgent"; "Goal: 3+4"]).
Proof.
  apply (print_status_during_a_run (Demo.env 1 "add")
           (fun line out => out ++ [line]) (fun _ => "?") "3+4"
           (Demo.start (Demo.agent 10 None None [Demo.add]))).
  vm_compute. right. left. reflexivity.
Defined.

(** The same two parts in either order. *)
Lemma email_body_html_is_fallback_by_position_witness :
  extract_parts DemoMail.decode DemoMail.wording ""
    [DemoMail.part "text/html" "<p>hi</p>"; DemoMail.part "text/plain" "hi"]
  = Ok "<p>hi</p>hi" /\
  extract_parts DemoMail.decode DemoMail.wording ""
    [DemoMail.part "text/plain" "hi"; DemoMail.part "text/html" "<p>hi</p>"]
  = Ok "hi".
Proof.
  destruct (email_body_html_is_fallback_by_position DemoMail.decode
              DemoMail.wording []) as [_ H].
  exact (H (DemoMail.part "text/html" "<p>hi</p>")
           (DemoMail.part "text/plain" "hi") "<p>hi</p>" "hi"
           eq_refl eq_refl eq_refl eq_refl).
Defined.

(** An HTML-only message: empty when single part, its text when
    multipart. *)
Lemma email_body_single_part_has_no_fallback_witness :
  _extract_email_body DemoMail.decode DemoMail.strip DemoMail.wording
    (DemoMail.part "text/html" "<p>hi</p>")
  = Ok "" /\
  _extract_email_body DemoMail.decode DemoMail.strip DemoMail.wording
    (PDict [("mimeType", PStr "multipart/alternative");
            ("parts", PList [DemoMail.part "text/html" "<p>hi</p>"])])
  = Ok "<p>hi</p>".
Proof.
  destruct (email_body_single_part_has_no_fallback DemoMail.decode
              DemoMail.strip DemoMail.wording
              [("partId", PStr "0"); ("mimeType", PStr "text/html");
               ("body", PDict [("size", PInt 5);
                               ("data", PStr "<p>hi</p>")])]
              [("size", PInt 5); ("data", PStr "<p>hi</p>")]
              [("mimeType", PStr "multipart/alternative");
               ("parts", PList [DemoMail.part "text/html" "<p>hi</p>"])]
              (PStr "text/html") (PStr "<p>hi</p>") "<p>hi</p>"
              eq_refl eq_refl eq_refl) as [H1 H2].
  split; [exact H1 |].
  apply H2; reflexivity.
Defined.

(** An unregistered tool: the Execute step answers with the error
    result. *)
Lemma tool_failures_are_recovered_witness :
  _execute_action (Demo.action_for "multiply")
    (Demo.start (Demo.agent 3 None None [Demo.add]))
  = (Ok (PDict [("type", PStr "error");
                ("result", PStr "Tool 'multiply' not found");
                ("success", PBool false)]),
     Demo.start (Demo.agent 3 None None [Demo.add]), []).
Proof.
  destruct (tool_failures_are_recovered (Demo.env 5 "multiply")
              (Demo.action_for "multiply")
              (Demo.start (Demo.agent 3 None None [Demo.add]))
              "3*4" (Demo.start (Demo.agent 3 None None [Demo.add]))
              "trace" 1)
    as (_ & H & _).
  - simpl. discriminate.
  - apply H. reflexivity.
Defined.

(** An observer that raises on every event, having changed the action
    result it was handed: the history and the result of the run are not
    those of the run without it. *)
Lemma observer_changes_history :
  let s := Demo.start (Demo.agent 10 None None [Demo.add]) in
  let meddled := Live.process (Demo.env 1 "add") (Some Live.meddler) "3+4" s in
  let alone := Live.process (Demo.env 1 "add") None "3+4" s in
  (forall t d w, exists e touched, Live.meddler t d w = (Raise e, w, touched)) /\
  (exists v, result_of meddled = Ok v) /\
  execution_history (self (state_of meddled))
  <> execution_history (self (state_of alone)) /\
  result_of meddled <> result_of alone.
Proof.
  intros s meddled alone. split; [| split; [| split]].
  - intros t d w. unfold Live.meddler. eauto.
  - vm_compute. eauto.
  - vm_compute. discriminate.
  - vm_compute. discriminate.
Defined.

